(** * Chronos: the scheduling planner and the worker pipeline

    A shallow embedding of the job scheduler (src/services/jobScheduler.js),
    the queue helpers (queues/jobQueue.js), the job executor
    (src/services/jobExecutor.js) and the worker (src/workers/jobWorker.js).

    - Instants are milliseconds since the epoch ([Z]); a nullable column is an
      [option].
    - The [jobs] table is a finite map from the primary key to the row; the
      [job_executions] and [job_logs] tables are lists in insertion order.
    - Every function that reads or writes the database, the queues or the
      notifier threads a [World]; a JavaScript exception is the [Thrown]
      outcome, and the state reached before the throw is kept.
    - Values the program obtains from outside (the clock, fresh UUIDs, the
      answer of the network) are inputs of the functions that read them. *)

From Stdlib Require Import ZArith.
From stdpp Require Import base decidable option list gmap strings pretty fin_maps.

Local Open Scope string_scope.
Local Open Scope list_scope.
Local Open Scope Z_scope.

(** ** Enumerations of the data model (models/Job.js, models/JobExecution.js) *)

Inductive JobType := http | script | email | webhook | custom.
Inductive JobStatus := active | paused | completed | failed | cancelled.
Inductive ScheduleType := immediate | scheduled | recurring.
Inductive RetryBackoff := fixed | exponential.
Inductive ExecutionStatus :=
  ex_pending | ex_running | ex_completed | ex_failed | ex_cancelled | ex_timeout.
Inductive LogLevel := debug | info | warn | error.

#[global] Instance JobType_eq_dec : EqDecision JobType.
Proof. solve_decision. Defined.
#[global] Instance JobStatus_eq_dec : EqDecision JobStatus.
Proof. solve_decision. Defined.
#[global] Instance ScheduleType_eq_dec : EqDecision ScheduleType.
Proof. solve_decision. Defined.
#[global] Instance RetryBackoff_eq_dec : EqDecision RetryBackoff.
Proof. solve_decision. Defined.
#[global] Instance ExecutionStatus_eq_dec : EqDecision ExecutionStatus.
Proof. solve_decision. Defined.

(** ** Rows *)

(** A row of [jobs].  The free-text columns [description], [tags] and
    [metadata] are never read by the planner or the worker and are left out. *)
Record Job := mkJob {
  id : string;
  userId : string;
  name : string;
  type : JobType;
  payload : string;
  scheduleType : ScheduleType;
  scheduledAt : option Z;
  cronExpression : option string;
  timezone : string;
  maxRetries : Z;
  retryDelay : Z;
  retryBackoff : RetryBackoff;
  timeout : Z;
  priority : Z;
  status : JobStatus;
  lastExecutedAt : option Z;
  nextExecutionAt : option Z;
  totalExecutions : Z;
  successfulExecutions : Z;
  failedExecutions : Z;
  endAt : option Z;
  maxExecutions : option Z;
}.

(** The [error] bag of an execution, [{ message, stack }]; the text of the
    stack trace is not modelled. *)
Record ErrorBag := mkErrorBag { message : string }.

(** What an executor resolves with. *)
Inductive JobResult :=
| HttpResult (statusCode : Z) (body : string)
| AdapterResult (value : string).

(** A row of [job_executions]. *)
Record JobExecution := mkJobExecution {
  exId : string;
  exJobId : string;
  exStatus : ExecutionStatus;
  attempt : Z;
  startedAt : option Z;
  completedAt : option Z;
  duration : option Z;
  result : option JobResult;
  exError : option ErrorBag;
  errorMessage : option string;
  isRetry : bool;
  previousExecutionId : option string;
  workerId : option string;
  input : option string;
  output : option JobResult;
}.

(** The text of a [job_logs] line, one constructor per template of the
    source, carrying the values the template interpolates. *)
Inductive LogMessage :=
| MsgCreated (jobName : string)
| MsgRescheduled
| MsgPaused
| MsgResumed
| MsgCancelled
| MsgTriggered
| MsgStarted (att : Z)
| MsgCompleted (dur : Z)
| MsgFailed (err : string) (att : Z) (isLast : bool).

Record JobLog := mkJobLog {
  logJobId : string;
  logExecutionId : option string;
  level : LogLevel;
  logMessage : LogMessage;
}.

(** ** Configuration (config/index.js, section [job]) *)

Record JobConfig := mkJobConfig {
  maxRetryAttempts : Z;
  retryDelayMs : Z;
  timeoutMs : Z;
}.

(** JavaScript's [a || b] on numbers: [0] (and [NaN], here [None]) is falsy. *)
Definition js_or (a b : Z) : Z := if a =? 0 then b else a.

(** [parseInt(process.env.X, 10) || d]: an unset or non-numeric variable
    parses to [NaN], modelled as [None]. *)
Definition parseIntOr (env : option Z) (d : Z) : Z :=
  match env with
  | Some n => js_or n d
  | None => d
  end.

Definition loadJobConfig (MAX_RETRY_ATTEMPTS RETRY_DELAY_MS JOB_TIMEOUT_MS : option Z)
  : JobConfig :=
  {| maxRetryAttempts := parseIntOr MAX_RETRY_ATTEMPTS 3;
     retryDelayMs := parseIntOr RETRY_DELAY_MS 5000;
     timeoutMs := parseIntOr JOB_TIMEOUT_MS 300000 |}.

(** The configuration of a process started without those variables. *)
Definition defaultConfig : JobConfig := loadJobConfig None None None.

(** ** The queues (queues/jobQueue.js over the bullmq library) *)

(** The attempt envelope: [queueData] of [enqueueJob] and [triggerJob].
    [triggerJob] builds it without [retryDelay] and [retryBackoff]. *)
Record QueueData := mkQueueData {
  qJobId : string;
  qId : string;
  qName : string;
  qType : JobType;
  qPayload : string;
  qUserId : string;
  qTimeout : Z;
  qMaxRetries : Z;
  qRetryDelay : option Z;
  qRetryBackoff : option RetryBackoff;
  isManualTrigger : bool;
}.

Record Backoff := mkBackoff { backoffType : RetryBackoff; backoffDelay : Z }.

(** The job options of bullmq that the repository sets. *)
Record JobsOptions := mkJobsOptions {
  attempts : option Z;
  backoff : option Backoff;
  optPriority : option Z;
  optDelay : option Z;
  optJobId : option string;
  repeat : option (string * string);
}.

Definition noOptions : JobsOptions :=
  {| attempts := None; backoff := None; optPriority := None; optDelay := None;
     optJobId := None; repeat := None |}.

(** [defaultJobOptions] of the queue [chronos-jobs]. *)
Definition defaultJobOptions (config : JobConfig) : JobsOptions :=
  {| attempts := Some (maxRetryAttempts config);
     backoff := Some {| backoffType := exponential;
                        backoffDelay := retryDelayMs config |};
     optPriority := None; optDelay := None; optJobId := None; repeat := None |}.

(** An option given to [add] overrides the queue's default for that option. *)
Definition orElse {A} (given dflt : option A) : option A :=
  match given with Some _ => given | None => dflt end.

Definition mergeOptions (dflt given : JobsOptions) : JobsOptions :=
  {| attempts := orElse (attempts given) (attempts dflt);
     backoff := orElse (backoff given) (backoff dflt);
     optPriority := orElse (optPriority given) (optPriority dflt);
     optDelay := orElse (optDelay given) (optDelay dflt);
     optJobId := orElse (optJobId given) (optJobId dflt);
     repeat := orElse (repeat given) (repeat dflt) |}.

(** A job held by a bullmq queue. *)
Record BullJob := mkBullJob {
  bullName : string;
  data : QueueData;
  opts : JobsOptions;
  attemptsMade : Z;
}.

(** A repeatable registration of the queue [chronos-scheduled]. *)
Record Repeatable := mkRepeatable {
  repeatKey : string;
  repeatJob : BullJob;
}.

(** ** Notifier trigger points (services/notificationService.js) *)

Inductive Notification :=
| job_completed (user job jobName execution : string) (dur : Z)
| job_retry (user job jobName : string) (att maxR : Z) (err : string)
| max_retries_exceeded (user job jobName : string) (maxR : Z) (err : string).

(** ** The state of the system *)

Record World := mkWorld {
  jobs : gmap string Job;
  executions : list JobExecution;
  logs : list JobLog;
  jobQueue : list BullJob;
  scheduledQueue : list Repeatable;
  notifications : list Notification;
}.

Definition emptyWorld : World :=
  {| jobs := ∅; executions := []; logs := []; jobQueue := [];
     scheduledQueue := []; notifications := [] |}.

Definition setJobs (f : gmap string Job → gmap string Job) (w : World) : World :=
  {| jobs := f (jobs w); executions := executions w; logs := logs w;
     jobQueue := jobQueue w; scheduledQueue := scheduledQueue w;
     notifications := notifications w |}.

Definition setExecutions (f : list JobExecution → list JobExecution) (w : World)
  : World :=
  {| jobs := jobs w; executions := f (executions w); logs := logs w;
     jobQueue := jobQueue w; scheduledQueue := scheduledQueue w;
     notifications := notifications w |}.

Definition setLogs (f : list JobLog → list JobLog) (w : World) : World :=
  {| jobs := jobs w; executions := executions w; logs := f (logs w);
     jobQueue := jobQueue w; scheduledQueue := scheduledQueue w;
     notifications := notifications w |}.

Definition setJobQueue (f : list BullJob → list BullJob) (w : World) : World :=
  {| jobs := jobs w; executions := executions w; logs := logs w;
     jobQueue := f (jobQueue w); scheduledQueue := scheduledQueue w;
     notifications := notifications w |}.

Definition setScheduledQueue (f : list Repeatable → list Repeatable) (w : World)
  : World :=
  {| jobs := jobs w; executions := executions w; logs := logs w;
     jobQueue := jobQueue w; scheduledQueue := f (scheduledQueue w);
     notifications := notifications w |}.

Definition notify (n : Notification) (w : World) : World :=
  {| jobs := jobs w; executions := executions w; logs := logs w;
     jobQueue := jobQueue w; scheduledQueue := scheduledQueue w;
     notifications := notifications w ++ [n] |}.

(** ** Effects: state and exceptions *)

Inductive Outcome (A : Type) :=
| Returned (a : A)
| Thrown (msg : string).
Arguments Returned {A} a.
Arguments Thrown {A} msg.

Definition M (A : Type) : Type := World → World * Outcome A.

Definition ret {A} (a : A) : M A := fun w => (w, Returned a).
Definition throw {A} (msg : string) : M A := fun w => (w, Thrown msg).
Definition bind {A B} (k : A → M B) (c : M A) : M B :=
  fun w => match c w with
           | (w', Returned a) => k a w'
           | (w', Thrown msg) => (w', Thrown msg)
           end.
Definition effect (f : World → World) : M unit := fun w => (f w, Returned tt).
Definition reads {A} (f : World → A) : M A := fun w => (w, Returned (f w)).

(** stdpp's notation [x ← c; k] is used for sequencing ([await]). *)
#[global] Instance M_ret : MRet M := @ret.
#[global] Instance M_bind : MBind M := @bind.

(** ** Field assignment on a model instance ([job.status = ...]) *)

Definition set_scheduleType (v : ScheduleType) (j : Job) : Job :=
    mkJob (id j) (userId j) (name j) (type j) (payload j) v (scheduledAt j)
    (cronExpression j) (timezone j) (maxRetries j) (retryDelay j)
    (retryBackoff j) (timeout j) (priority j) (status j) (lastExecutedAt j)
    (nextExecutionAt j) (totalExecutions j) (successfulExecutions j)
    (failedExecutions j) (endAt j) (maxExecutions j).

Definition set_scheduledAt (v : option Z) (j : Job) : Job :=
    mkJob (id j) (userId j) (name j) (type j) (payload j) (scheduleType j) v
    (cronExpression j) (timezone j) (maxRetries j) (retryDelay j)
    (retryBackoff j) (timeout j) (priority j) (status j) (lastExecutedAt j)
    (nextExecutionAt j) (totalExecutions j) (successfulExecutions j)
    (failedExecutions j) (endAt j) (maxExecutions j).

Definition set_cronExpression (v : option string) (j : Job) : Job :=
    mkJob (id j) (userId j) (name j) (type j) (payload j) (scheduleType j)
    (scheduledAt j) v (timezone j) (maxRetries j) (retryDelay j) (retryBackoff
    j) (timeout j) (priority j) (status j) (lastExecutedAt j) (nextExecutionAt
    j) (totalExecutions j) (successfulExecutions j) (failedExecutions j)
    (endAt j) (maxExecutions j).

Definition set_timezone (v : string) (j : Job) : Job :=
    mkJob (id j) (userId j) (name j) (type j) (payload j) (scheduleType j)
    (scheduledAt j) (cronExpression j) v (maxRetries j) (retryDelay j)
    (retryBackoff j) (timeout j) (priority j) (status j) (lastExecutedAt j)
    (nextExecutionAt j) (totalExecutions j) (successfulExecutions j)
    (failedExecutions j) (endAt j) (maxExecutions j).

Definition set_status (v : JobStatus) (j : Job) : Job :=
    mkJob (id j) (userId j) (name j) (type j) (payload j) (scheduleType j)
    (scheduledAt j) (cronExpression j) (timezone j) (maxRetries j) (retryDelay
    j) (retryBackoff j) (timeout j) (priority j) v (lastExecutedAt j)
    (nextExecutionAt j) (totalExecutions j) (successfulExecutions j)
    (failedExecutions j) (endAt j) (maxExecutions j).

Definition set_lastExecutedAt (v : option Z) (j : Job) : Job :=
    mkJob (id j) (userId j) (name j) (type j) (payload j) (scheduleType j)
    (scheduledAt j) (cronExpression j) (timezone j) (maxRetries j) (retryDelay
    j) (retryBackoff j) (timeout j) (priority j) (status j) v (nextExecutionAt
    j) (totalExecutions j) (successfulExecutions j) (failedExecutions j)
    (endAt j) (maxExecutions j).

Definition set_nextExecutionAt (v : option Z) (j : Job) : Job :=
    mkJob (id j) (userId j) (name j) (type j) (payload j) (scheduleType j)
    (scheduledAt j) (cronExpression j) (timezone j) (maxRetries j) (retryDelay
    j) (retryBackoff j) (timeout j) (priority j) (status j) (lastExecutedAt j)
    v (totalExecutions j) (successfulExecutions j) (failedExecutions j) (endAt
    j) (maxExecutions j).

Definition set_totalExecutions (v : Z) (j : Job) : Job :=
    mkJob (id j) (userId j) (name j) (type j) (payload j) (scheduleType j)
    (scheduledAt j) (cronExpression j) (timezone j) (maxRetries j) (retryDelay
    j) (retryBackoff j) (timeout j) (priority j) (status j) (lastExecutedAt j)
    (nextExecutionAt j) v (successfulExecutions j) (failedExecutions j) (endAt
    j) (maxExecutions j).

Definition set_successfulExecutions (v : Z) (j : Job) : Job :=
    mkJob (id j) (userId j) (name j) (type j) (payload j) (scheduleType j)
    (scheduledAt j) (cronExpression j) (timezone j) (maxRetries j) (retryDelay
    j) (retryBackoff j) (timeout j) (priority j) (status j) (lastExecutedAt j)
    (nextExecutionAt j) (totalExecutions j) v (failedExecutions j) (endAt j)
    (maxExecutions j).

Definition set_failedExecutions (v : Z) (j : Job) : Job :=
    mkJob (id j) (userId j) (name j) (type j) (payload j) (scheduleType j)
    (scheduledAt j) (cronExpression j) (timezone j) (maxRetries j) (retryDelay
    j) (retryBackoff j) (timeout j) (priority j) (status j) (lastExecutedAt j)
    (nextExecutionAt j) (totalExecutions j) (successfulExecutions j) v (endAt
    j) (maxExecutions j).

Definition set_exStatus (v : ExecutionStatus) (e : JobExecution) :
    JobExecution :=
    mkJobExecution (exId e) (exJobId e) v (attempt e) (startedAt e)
    (completedAt e) (duration e) (result e) (exError e) (errorMessage e)
    (isRetry e) (previousExecutionId e) (workerId e) (input e) (output e).

Definition set_completedAt (v : option Z) (e : JobExecution) : JobExecution :=
    mkJobExecution (exId e) (exJobId e) (exStatus e) (attempt e) (startedAt e)
    v (duration e) (result e) (exError e) (errorMessage e) (isRetry e)
    (previousExecutionId e) (workerId e) (input e) (output e).

Definition set_duration (v : option Z) (e : JobExecution) : JobExecution :=
    mkJobExecution (exId e) (exJobId e) (exStatus e) (attempt e) (startedAt e)
    (completedAt e) v (result e) (exError e) (errorMessage e) (isRetry e)
    (previousExecutionId e) (workerId e) (input e) (output e).

Definition set_result (v : option JobResult) (e : JobExecution) : JobExecution :=
    mkJobExecution (exId e) (exJobId e) (exStatus e) (attempt e) (startedAt e)
    (completedAt e) (duration e) v (exError e) (errorMessage e) (isRetry e)
    (previousExecutionId e) (workerId e) (input e) (output e).

Definition set_exError (v : option ErrorBag) (e : JobExecution) :
    JobExecution :=
    mkJobExecution (exId e) (exJobId e) (exStatus e) (attempt e) (startedAt e)
    (completedAt e) (duration e) (result e) v (errorMessage e) (isRetry e)
    (previousExecutionId e) (workerId e) (input e) (output e).

Definition set_errorMessage (v : option string) (e : JobExecution) :
    JobExecution :=
    mkJobExecution (exId e) (exJobId e) (exStatus e) (attempt e) (startedAt e)
    (completedAt e) (duration e) (result e) (exError e) v (isRetry e)
    (previousExecutionId e) (workerId e) (input e) (output e).

Definition set_output (v : option JobResult) (e : JobExecution) : JobExecution :=
    mkJobExecution (exId e) (exJobId e) (exStatus e) (attempt e) (startedAt e)
    (completedAt e) (duration e) (result e) (exError e) (errorMessage e)
    (isRetry e) (previousExecutionId e) (workerId e) (input e) v.


(** ** The database layer (Sequelize)

    [instance.save()] writes only the attributes that were assigned a value
    different from the one loaded; the other columns keep what the table
    holds at the time of the save.  An [UPDATE] of a row that is gone writes
    nothing. *)

Definition changed {A} `{EqDecision A} (loaded cur db : A) : A :=
  if decide (cur = loaded) then db else cur.

Definition mergeChanged (loaded cur db : Job) : Job :=
  {| id := changed (id loaded) (id cur) (id db);
     userId := changed (userId loaded) (userId cur) (userId db);
     name := changed (name loaded) (name cur) (name db);
     type := changed (type loaded) (type cur) (type db);
     payload := changed (payload loaded) (payload cur) (payload db);
     scheduleType := changed (scheduleType loaded) (scheduleType cur) (scheduleType db);
     scheduledAt := changed (scheduledAt loaded) (scheduledAt cur) (scheduledAt db);
     cronExpression := changed (cronExpression loaded) (cronExpression cur) (cronExpression db);
     timezone := changed (timezone loaded) (timezone cur) (timezone db);
     maxRetries := changed (maxRetries loaded) (maxRetries cur) (maxRetries db);
     retryDelay := changed (retryDelay loaded) (retryDelay cur) (retryDelay db);
     retryBackoff := changed (retryBackoff loaded) (retryBackoff cur) (retryBackoff db);
     timeout := changed (timeout loaded) (timeout cur) (timeout db);
     priority := changed (priority loaded) (priority cur) (priority db);
     status := changed (status loaded) (status cur) (status db);
     lastExecutedAt := changed (lastExecutedAt loaded) (lastExecutedAt cur) (lastExecutedAt db);
     nextExecutionAt := changed (nextExecutionAt loaded) (nextExecutionAt cur) (nextExecutionAt db);
     totalExecutions := changed (totalExecutions loaded) (totalExecutions cur) (totalExecutions db);
     successfulExecutions := changed (successfulExecutions loaded) (successfulExecutions cur) (successfulExecutions db);
     failedExecutions := changed (failedExecutions loaded) (failedExecutions cur) (failedExecutions db);
     endAt := changed (endAt loaded) (endAt cur) (endAt db);
     maxExecutions := changed (maxExecutions loaded) (maxExecutions cur) (maxExecutions db) |}.

(** [Job.findByPk(id)] *)
Definition Job_findByPk (jobId : string) : M (option Job) :=
  reads (fun w => jobs w !! jobId).

(** [job.save()] for an instance that was loaded as [loaded] and now holds
    [cur]. *)
Definition Job_save (loaded cur : Job) : M unit :=
  effect (setJobs (alter (mergeChanged loaded cur) (id cur))).

(** [Job.create(row)]: the primary key is unique. *)
Definition Job_create (row : Job) : M Job :=
  fun w => match jobs w !! id row with
           | Some _ => (w, Thrown "Validation error")
           | None => (setJobs (insert (id row) row) w, Returned row)
           end.

(** [JobLog.create] and [JobExecution.create]: [job_id] is a foreign key
    into [jobs] (migrations: [references: { model: 'jobs', key: 'id' }]),
    and the primary key of an execution is unique. *)
Definition foreignKeyViolation : string :=
  "insert or update on table violates foreign key constraint".

Definition JobLog_create (l : JobLog) : M unit :=
  fun w => match jobs w !! logJobId l with
           | Some _ => (setLogs (fun ls => ls ++ [l]) w, Returned tt)
           | None => (w, Thrown foreignKeyViolation)
           end.

Definition JobExecution_create (e : JobExecution) : M JobExecution :=
  fun w => match jobs w !! exJobId e with
           | Some _ =>
               if existsb (fun e' => bool_decide (exId e' = exId e))
                    (executions w)
               then (w, Thrown "Validation error")
               else (setExecutions (fun es => es ++ [e]) w, Returned e)
           | None => (w, Thrown foreignKeyViolation)
           end.

(** [execution.save()]: the row with the instance's primary key is
    rewritten. *)
Definition JobExecution_save (cur : JobExecution) : M unit :=
  effect (setExecutions
            (fmap (fun e => if decide (exId e = exId cur) then cur else e))).

(** ** queues/jobQueue.js *)

(** [jobData.name || fallback] on strings: the empty string is falsy. *)
Definition nameOr (n fallback : string) : string :=
  if decide (n = "") then fallback else n.

Definition hasJobId (jobId : string) (b : BullJob) : bool :=
  bool_decide (optJobId (opts b) = Some jobId).

Section Chronos.

(** The process configuration. *)
Variable config : JobConfig.

(** The cron-parser library: whether an expression parses, and the first
    instant after [now] that matches it in a zone. *)
Variable cronValid : string → bool.
Variable cronNext : string → string → Z → Z.

(** The key under which bullmq files a repeatable job, from the job
    name, the job id, the zone and the pattern. *)
Variable repeatableKey : string → string → string → string → string.

(** [jobQueue.add(name, data, opts)]: the default options that the queue
    module declares are completed by the given ones and the job is filed.
    bullmq itself is a library and no code of this repository; that it
    ignores an [add] whose job id is already in the queue is its documented
    contract, taken over here. *)
Definition jobQueue_add (nm : string) (d : QueueData) (o : JobsOptions)
  : M BullJob :=
  fun w =>
    let job := {| bullName := nm; data := d;
                  opts := mergeOptions (defaultJobOptions config) o;
                  attemptsMade := 0 |} in
    match optJobId o with
    | Some jid =>
        match List.find (hasJobId jid) (jobQueue w) with
        | Some existing => (w, Returned existing)
        | None => (setJobQueue (fun q => q ++ [job]) w, Returned job)
        end
    | None => (setJobQueue (fun q => q ++ [job]) w, Returned job)
    end.

(** [addJob(jobData, options)] *)
Definition addJob (jobData : QueueData) (options : JobsOptions) : M BullJob :=
  jobQueue_add (nameOr (qName jobData) "job") jobData
    {| attempts := attempts options; backoff := backoff options;
       optPriority := optPriority options; optDelay := optDelay options;
       optJobId := Some (qJobId jobData); repeat := repeat options |}.

(** [new Date(x).getTime()] for a nullable instant: [new Date(null)] is
    the epoch. *)
Definition getTime (x : option Z) : Z := default 0 x.

(** [addDelayedJob(jobData, executeAt)] *)
Definition addDelayedJob (now : Z) (jobData : QueueData) (executeAt : option Z)
  : M BullJob :=
  let delay := getTime executeAt - now in
  if delay <? 0 then throw "Execute time must be in the future"
  else addJob jobData
         {| attempts := None; backoff := None; optPriority := None;
            optDelay := Some delay; optJobId := None; repeat := None |}.

(** [addRecurringJob(jobData, cronExpression, timezone)]: the queue
    [chronos-scheduled] has no default options.  The registration is put at
    the end of the list.  bullmq keeps one registration per key, which the
    list does not enforce: an [add] under a key that is still registered is
    where the list and the library part ways. *)
Definition addRecurringJob (jobData : QueueData) (cron : string) (tz : string)
  : M BullJob :=
  let nm := nameOr (qName jobData) "recurring-job" in
  let job := {| bullName := nm; data := jobData;
                opts := {| attempts := None; backoff := None;
                           optPriority := None; optDelay := None;
                           optJobId := Some (qJobId jobData);
                           repeat := Some (cron, tz) |};
                attemptsMade := 0 |} in
  _ ← effect (setScheduledQueue (fun q =>
        q ++ [{| repeatKey := repeatableKey nm (qJobId jobData) tz cron;
                 repeatJob := job |}]));
  ret job.

(** [removeRecurringJob(jobId, cronExpression)] *)
Definition removeRecurringJob (jobId cron : string) : M bool :=
  let key := "recurring-job:" +:+ jobId +:+ ":::" +:+ cron in
  fun w =>
    if existsb (fun r => bool_decide (repeatKey r = key)) (scheduledQueue w)
    then (setScheduledQueue
            (filter (fun r => repeatKey r ≠ key)) w, Returned true)
    else (w, Returned false).

(** [cancelJob(jobId)] of the queue module, for an entry that is waiting
    or delayed.  The world does not record which entry a worker is
    processing; [job.remove()] of bullmq throws for such an entry, and that
    failure is not part of this definition. *)
Definition queue_cancelJob (jobId : string) : M bool :=
  fun w =>
    match List.find (hasJobId jobId) (jobQueue w) with
    | Some _ =>
        (setJobQueue (filter (fun b => hasJobId jobId b = false)) w,
         Returned true)
    | None => (w, Returned false)
    end.


(** ** services/jobScheduler.js *)

(** The body of a create request, as [scheduleJob] destructures it; an
    absent property is [None]. *)
Record JobInput := mkJobInput {
  inName : string;
  inType : JobType;
  inPayload : string;
  inScheduleType : ScheduleType;
  inScheduledAt : option Z;
  inCronExpression : option string;
  inTimezone : option string;
  inMaxRetries : option Z;
  inRetryDelay : option Z;
  inRetryBackoff : option RetryBackoff;
  inTimeout : option Z;
  inPriority : option Z;
  inEndAt : option Z;
  inMaxExecutions : option Z;
}.

(** The body of a reschedule request. *)
Record ScheduleData := mkScheduleData {
  sdScheduledAt : option Z;
  sdCronExpression : option string;
  sdTimezone : option string;
}.

(** A string used as a condition: [undefined], [null] and the empty
    string are falsy. *)
Definition truthy (o : option string) : option string :=
  match o with
  | Some s => if decide (s = "") then None else Some s
  | None => None
  end.

(** [validateCronExpression(expression)] *)
Definition validateCronExpression (expression : option string) : M unit :=
  match expression with
  | Some e => if cronValid e then ret tt else throw "Invalid cron expression"
  | None => throw "Invalid cron expression"
  end.

(** [getNextCronExecution(expression, timezone)], read at the instant
    [now]. *)
Definition getNextCronExecution (now : Z) (expression : option string)
    (tz : string) : M Z :=
  match expression with
  | Some e => if cronValid e then ret (cronNext e tz now)
              else throw "Invalid cron expression"
  | None => throw "Invalid cron expression"
  end.

(** [enqueueJob(job)] *)
Definition queueDataOf (job : Job) : QueueData :=
  {| qJobId := id job; qId := id job; qName := name job; qType := type job;
     qPayload := payload job; qUserId := userId job; qTimeout := timeout job;
     qMaxRetries := maxRetries job; qRetryDelay := Some (retryDelay job);
     qRetryBackoff := Some (retryBackoff job); isManualTrigger := false |}.

Definition enqueueJob (now : Z) (job : Job) : M unit :=
  let queueData := queueDataOf job in
  match scheduleType job with
  | immediate =>
      _ ← addJob queueData
            {| attempts := None; backoff := None;
               optPriority := Some (priority job); optDelay := None;
               optJobId := None; repeat := None |};
      ret tt
  | scheduled =>
      _ ← addDelayedJob now queueData (scheduledAt job);
      ret tt
  | recurring =>
      (* a repeat option without a pattern is refused by the queue *)
      match cronExpression job with
      | Some cron => _ ← addRecurringJob queueData cron (timezone job); ret tt
      | None => throw "Invalid cron expression"
      end
  end.

(** [scheduleJob(jobData, userId)], called at the instant [now]; [newId]
    is the UUID the database generates for the row. *)
Definition scheduleJob (now : Z) (newId : string) (jobData : JobInput)
    (user : string) : M Job :=
  let tz := default "UTC" (inTimezone jobData) in
  _ ← (if decide (inScheduleType jobData = recurring)
       then validateCronExpression (inCronExpression jobData) else ret tt);
  nextExecution ←
    match inScheduleType jobData with
    | immediate => ret (Some now)
    | scheduled =>
        (* [new Date(undefined)] is an invalid date, which the insert of the
           row refuses *)
        match inScheduledAt jobData with
        | Some t => ret (Some t)
        | None => throw "Invalid date"
        end
    | recurring =>
        t ← getNextCronExecution now (inCronExpression jobData) tz;
        ret (Some t)
    end;
  job ← Job_create
    {| id := newId; userId := user; name := inName jobData;
       type := inType jobData; payload := inPayload jobData;
       scheduleType := inScheduleType jobData;
       scheduledAt := inScheduledAt jobData;
       cronExpression := inCronExpression jobData;
       timezone := tz;
       maxRetries := default 3 (inMaxRetries jobData);
       retryDelay := default 5000 (inRetryDelay jobData);
       retryBackoff := default exponential (inRetryBackoff jobData);
       timeout := default 300000 (inTimeout jobData);
       priority := default 0 (inPriority jobData);
       status := active;
       lastExecutedAt := None;
       nextExecutionAt := nextExecution;
       totalExecutions := 0; successfulExecutions := 0;
       failedExecutions := 0;
       endAt := inEndAt jobData;
       maxExecutions := inMaxExecutions jobData |};
  _ ← enqueueJob now job;
  _ ← JobLog_create {| logJobId := id job; logExecutionId := None;
                       level := info; logMessage := MsgCreated (name job) |};
  ret job.

(** Removal of the queue registrations of a job, as [pauseJob] and
    [cancelJob] do it. *)
Definition removeFromQueue (job : Job) : M bool :=
  match scheduleType job, truthy (cronExpression job) with
  | recurring, Some cron => removeRecurringJob (id job) cron
  | _, _ => queue_cancelJob (id job)
  end.

(** [rescheduleJob(jobId, scheduleData)] *)
Definition rescheduleJob (now : Z) (jobId : string) (sd : ScheduleData)
  : M Job :=
  found ← Job_findByPk jobId;
  match found with
  | None => throw "Job not found"
  | Some job =>
      _ ← match scheduleType job, truthy (cronExpression job) with
          | recurring, Some cron => removeRecurringJob (id job) cron
          | _, _ => ret false
          end;
      _ ← queue_cancelJob (id job);
      job' ←
        match sdScheduledAt sd, truthy (sdCronExpression sd) with
        | Some t, _ =>
            ret (set_nextExecutionAt (Some t)
                  (set_cronExpression None
                    (set_scheduledAt (Some t)
                      (set_scheduleType scheduled job))))
        | None, Some cron =>
            _ ← validateCronExpression (Some cron);
            let j1 := set_scheduledAt None
                        (set_timezone
                           (default (timezone job) (truthy (sdTimezone sd)))
                           (set_cronExpression (Some cron)
                              (set_scheduleType recurring job))) in
            t ← getNextCronExecution now (Some cron) (timezone j1);
            ret (set_nextExecutionAt (Some t) j1)
        | None, None => ret job
        end;
      _ ← Job_save job job';
      _ ← enqueueJob now job';
      _ ← JobLog_create {| logJobId := id job'; logExecutionId := None;
                           level := info; logMessage := MsgRescheduled |};
      ret job'
  end.

(** [pauseJob(jobId)] *)
Definition pauseJob (jobId : string) : M Job :=
  found ← Job_findByPk jobId;
  match found with
  | None => throw "Job not found"
  | Some job =>
      _ ← removeFromQueue job;
      let job' := set_status paused job in
      _ ← Job_save job job';
      _ ← JobLog_create {| logJobId := id job'; logExecutionId := None;
                           level := info; logMessage := MsgPaused |};
      ret job'
  end.

(** [resumeJob(jobId)] *)
Definition resumeJob (now : Z) (jobId : string) : M Job :=
  found ← Job_findByPk jobId;
  match found with
  | None => throw "Job not found"
  | Some job =>
      if decide (status job = paused) then
        j1 ← (if decide (scheduleType job = recurring) then
                t ← getNextCronExecution now (cronExpression job)
                      (timezone job);
                ret (set_nextExecutionAt (Some t) job)
              else ret job);
        let job' := set_status active j1 in
        _ ← Job_save job job';
        _ ← enqueueJob now job';
        _ ← JobLog_create {| logJobId := id job'; logExecutionId := None;
                             level := info; logMessage := MsgResumed |};
        ret job'
      else throw "Job is not paused"
  end.

(** [cancelJob(jobId)] of the scheduler. *)
Definition cancelJob (jobId : string) : M Job :=
  found ← Job_findByPk jobId;
  match found with
  | None => throw "Job not found"
  | Some job =>
      _ ← removeFromQueue job;
      let job' := set_status cancelled job in
      _ ← Job_save job job';
      _ ← JobLog_create {| logJobId := id job'; logExecutionId := None;
                           level := info; logMessage := MsgCancelled |};
      ret job'
  end.

(** [triggerJob(jobId)] *)
Definition triggerJob (now : Z) (jobId : string) : M Job :=
  found ← Job_findByPk jobId;
  match found with
  | None => throw "Job not found"
  | Some job =>
      if decide (status job = active) then
        let queueData :=
          {| qJobId := id job;
             qId := id job +:+ "-manual-" +:+ pretty now;
             qName := name job; qType := type job; qPayload := payload job;
             qUserId := userId job; qTimeout := timeout job;
             qMaxRetries := maxRetries job; qRetryDelay := None;
             qRetryBackoff := None; isManualTrigger := true |} in
        _ ← addJob queueData
              {| attempts := None; backoff := None; optPriority := Some 10;
                 optDelay := None; optJobId := None; repeat := None |};
        _ ← JobLog_create {| logJobId := id job; logExecutionId := None;
                             level := info; logMessage := MsgTriggered |};
        ret job
      else throw "Can only trigger active jobs"
  end.

(** [job.endAt && new Date() >= new Date(job.endAt)] *)
Definition endReached (now : Z) (job : Job) : bool :=
  match endAt job with
  | Some e => e <=? now
  | None => false
  end.

(** [job.maxExecutions && job.totalExecutions >= job.maxExecutions]: a
    bound of [0] is falsy. *)
Definition maxReached (job : Job) : bool :=
  match maxExecutions job with
  | Some m => negb (m =? 0) && (m <=? totalExecutions job)
  | None => false
  end.

(** [updateNextExecution(jobId)], called at the instant [now]. *)
Definition updateNextExecution (now : Z) (jobId : string) : M (option Job) :=
  found ← Job_findByPk jobId;
  match found with
  | None => ret None
  | Some job =>
      if decide (scheduleType job ≠ recurring) then ret None
      else if endReached now job then
        let job' := set_status completed job in
        _ ← Job_save job job'; ret (Some job')
      else if maxReached job then
        let job' := set_status completed job in
        _ ← Job_save job job'; ret (Some job')
      else
        t ← getNextCronExecution now (cronExpression job) (timezone job);
        let job' := set_nextExecutionAt (Some t) job in
        _ ← Job_save job job'; ret (Some job')
  end.

(** ** services/jobExecutor.js *)

(** What the network answers to the request of an http or webhook job:
    a response, a socket error, or nothing until the request's idle timer
    ([payload.timeout], 30000 ms when absent) fires. *)
Inductive NetAnswer :=
| NetResponse (statusCode : Z) (body : string)
| NetError (msg : string)
| NetTimeout.

(** The outside world of one attempt: the answer of the network for http
    and webhook jobs, the end of the subprocess for script jobs ([Thrown]
    with the message of [exec] when it fails, exits with a code other than 0
    or is killed at its timeout), the message id given to an email, and the
    outcome of the registered handler for custom jobs ([Thrown] also when
    the handler name is missing or unknown).  An environment describes an
    attempt whose executor settles; the worker sets no deadline of its own,
    so an executor that never settles gives an attempt that never ends, and
    no environment stands for it. *)
Record Environment := mkEnvironment {
  network : NetAnswer;
  subprocess : Outcome JobResult;
  messageId : string;
  handler : Outcome JobResult;
}.

(** [executeHttpJob(payload)] *)
Definition executeHttpJob (net : NetAnswer) : Outcome JobResult :=
  match net with
  | NetResponse statusCode body =>
      if (200 <=? statusCode) && (statusCode <? 300)
      then Returned (HttpResult statusCode body)
      else Thrown ("HTTP request failed with status " +:+ pretty statusCode
                   +:+ ": " +:+ body)
  | NetError msg => Thrown ("HTTP request failed: " +:+ msg)
  | NetTimeout => Thrown "HTTP request timed out"
  end.

(** [executeWebhookJob(payload)] signs the body and calls
    [executeHttpJob]. *)
Definition executeWebhookJob (net : NetAnswer) : Outcome JobResult :=
  executeHttpJob net.

(** [executeScriptJob(payload)] *)
Definition executeScriptJob (sub : Outcome JobResult) : Outcome JobResult :=
  match sub with
  | Returned r => Returned r
  | Thrown msg => Thrown ("Script execution failed: " +:+ msg)
  end.

(** [executeEmailJob(payload)]: the placeholder transport always resolves. *)
Definition executeEmailJob (mid : string) : Outcome JobResult :=
  Returned (AdapterResult mid).

(** [executeCustomJob(payload)] *)
Definition executeCustomJob (h : Outcome JobResult) : Outcome JobResult := h.

(** [execute(job)] switches on [job.type]; the promise it returns settles
    with this outcome. *)
Definition dispatch (t : JobType) (env : Environment) : Outcome JobResult :=
  match t with
  | http => executeHttpJob (network env)
  | webhook => executeWebhookJob (network env)
  | script => executeScriptJob (subprocess env)
  | email => executeEmailJob (messageId env)
  | custom => executeCustomJob (handler env)
  end.

Definition executeOutcome (job : QueueData) (env : Environment)
  : Outcome JobResult :=
  dispatch (qType job) env.

Definition execute (job : QueueData) (env : Environment) : M JobResult :=
  fun w => (w, executeOutcome job env).

(** ** workers/jobWorker.js *)

Variable WORKER_ID : string.

(** [try { body } catch (error) { handler }] *)
Definition tryCatch {A} (body : M A) (handler : string → M A) : M A :=
  fun w => match body w with
           | (w', Thrown e) => handler e w'
           | (w', Returned a) => (w', Returned a)
           end.

(** [jobData.maxRetries || config.job.maxRetryAttempts] *)
Definition maxRetriesOf (bullJob : BullJob) : Z :=
  js_or (qMaxRetries (data bullJob)) (maxRetryAttempts config).

(** [bullJob.attemptsMade + 1 >= (jobData.maxRetries ||
    config.job.maxRetryAttempts)] *)
Definition isLastAttempt (bullJob : BullJob) : bool :=
  maxRetriesOf bullJob <=? attemptsMade bullJob + 1.

(** The [catch] block of [processJob]; [execution] is the value of the
    local variable when the exception is caught, [endTime] the clock
    then. *)
Definition catchBlock (bullJob : BullJob) (startTime endTime : Z)
    (execution : option JobExecution) (err : string) : M JobResult :=
  let jobData := data bullJob in
  let dur := endTime - startTime in
  let isLast := isLastAttempt bullJob in
  _ ← match execution with
      | Some e =>
          JobExecution_save
            (set_errorMessage (Some err)
              (set_exError (Some {| message := err |})
                (set_duration (Some dur)
                  (set_completedAt (Some endTime)
                    (set_exStatus ex_failed e)))))
      | None => ret tt
      end;
  found ← Job_findByPk (qJobId jobData);
  _ ← match found with
      | Some job =>
          let j1 := set_failedExecutions (failedExecutions job + 1)
                      (set_totalExecutions (totalExecutions job + 1)
                        (set_lastExecutedAt (Some endTime) job)) in
          if isLast then
            let j2 := set_status failed j1 in
            _ ← effect (notify (max_retries_exceeded (userId j2) (id j2)
                                  (name j2) (maxRetriesOf bullJob) err));
            Job_save job j2
          else
            _ ← effect (notify (job_retry (userId j1) (id j1) (name j1)
                                  (attemptsMade bullJob + 1)
                                  (maxRetriesOf bullJob) err));
            Job_save job j1
      | None => ret tt
      end;
  _ ← JobLog_create
        {| logJobId := qJobId jobData;
           logExecutionId := exId <$> execution;
           level := error;
           logMessage := MsgFailed err (attemptsMade bullJob + 1) isLast |};
  throw err.

(** The [try] block after the executor has resolved with [res]:
    [execution] already holds the completed values. *)
Definition finalizeSuccess (bullJob : BullJob) (startTime endTime : Z)
    (execution : JobExecution) (res : JobResult) : M JobResult :=
  let jobData := data bullJob in
  let dur := endTime - startTime in
  _ ← JobExecution_save execution;
  found ← Job_findByPk (qJobId jobData);
  _ ← match found with
      | Some job =>
          let j1 := set_successfulExecutions (successfulExecutions job + 1)
                      (set_totalExecutions (totalExecutions job + 1)
                        (set_lastExecutedAt (Some endTime) job)) in
          j2 ← (if decide (scheduleType j1 = recurring) then
                  _ ← updateNextExecution endTime (id j1); ret j1
                else ret (set_status completed j1));
          _ ← Job_save job j2;
          effect (notify (job_completed (userId j2) (id j2) (name j2)
                            (exId execution) dur))
      | None => ret tt
      end;
  _ ← JobLog_create
        {| logJobId := qJobId jobData;
           logExecutionId := Some (exId execution);
           level := info; logMessage := MsgCompleted dur |};
  ret res.

(** The [try] block of [processJob] once the execution row exists. *)
Definition runExecution (bullJob : BullJob) (startTime endTime : Z)
    (env : Environment) (execution : JobExecution) : M JobResult :=
  let jobData := data bullJob in
  res ← tryCatch
    (_ ← JobLog_create
           {| logJobId := qJobId jobData;
              logExecutionId := Some (exId execution);
              level := info;
              logMessage := MsgStarted (attempt execution) |};
     execute jobData env)
    (catchBlock bullJob startTime endTime (Some execution));
  let execution' :=
    set_output (Some res)
      (set_result (Some res)
        (set_duration (Some (endTime - startTime))
          (set_completedAt (Some endTime)
            (set_exStatus ex_completed execution)))) in
  tryCatch
    (finalizeSuccess bullJob startTime endTime execution' res)
    (catchBlock bullJob startTime endTime (Some execution')).

(** The row [processJob] opens for an attempt. *)
Definition newExecution (bullJob : BullJob) (execId : string)
    (startTime : Z) : JobExecution :=
  {| exId := execId; exJobId := qJobId (data bullJob);
     exStatus := ex_running;
     attempt := attemptsMade bullJob + 1;
     startedAt := Some startTime;
     completedAt := None; duration := None; result := None;
     exError := None; errorMessage := None;
     isRetry := bool_decide (0 < attemptsMade bullJob);
     previousExecutionId := None;
     workerId := Some WORKER_ID;
     input := Some (qPayload (data bullJob));
     output := None |}.

(** [processJob(bullJob)].  [execId] is the UUID generated for the
    execution row, [startTime] the clock when the attempt starts,
    [endTime] the clock when the executor has settled, and [env] what the
    outside world answers to the executor. *)
Definition processJob (bullJob : BullJob) (execId : string)
    (startTime endTime : Z) (env : Environment) : M JobResult :=
  fun w =>
    match JobExecution_create (newExecution bullJob execId startTime) w with
    | (w1, Thrown err) => catchBlock bullJob startTime endTime None err w1
    | (w1, Returned execution) =>
        runExecution bullJob startTime endTime env execution w1
    end.

(** *** The attempt between its awaits

    [processJob] is an async function: between two of its awaits the worker
    (concurrency 5, and one worker for each of the two queues) runs other
    attempts.  The segments below cut an attempt at the [await] of
    [Job.findByPk]: what it does up to the load of the job row, and what it
    does with the row it has loaded. *)

(** From the start of the attempt to the call of the executor. *)
Definition openAttempt (bullJob : BullJob) (execId : string) (startTime : Z)
  : M JobExecution :=
  execution ← JobExecution_create (newExecution bullJob execId startTime);
  _ ← JobLog_create
        {| logJobId := qJobId (data bullJob);
           logExecutionId := Some (exId execution);
           level := info;
           logMessage := MsgStarted (attempt execution) |};
  ret execution.

(** The [try] block after the executor has resolved, up to the load of the
    job row. *)
Definition finalizeLoad (bullJob : BullJob) (execution : JobExecution)
  : M (option Job) :=
  _ ← JobExecution_save execution;
  Job_findByPk (qJobId (data bullJob)).

(** The rest of the [try] block, with the row [found] that was loaded. *)
Definition finalizeStore (bullJob : BullJob) (startTime endTime : Z)
    (execution : JobExecution) (res : JobResult) (found : option Job)
  : M JobResult :=
  let jobData := data bullJob in
  let dur := endTime - startTime in
  _ ← match found with
      | Some job =>
          let j1 := set_successfulExecutions (successfulExecutions job + 1)
                      (set_totalExecutions (totalExecutions job + 1)
                        (set_lastExecutedAt (Some endTime) job)) in
          j2 ← (if decide (scheduleType j1 = recurring) then
                  _ ← updateNextExecution endTime (id j1); ret j1
                else ret (set_status completed j1));
          _ ← Job_save job j2;
          effect (notify (job_completed (userId j2) (id j2) (name j2)
                            (exId execution) dur))
      | None => ret tt
      end;
  _ ← JobLog_create
        {| logJobId := qJobId jobData;
           logExecutionId := Some (exId execution);
           level := info; logMessage := MsgCompleted dur |};
  ret res.

(** The [catch] block up to the load of the job row. *)
Definition catchLoad (bullJob : BullJob) (startTime endTime : Z)
    (execution : option JobExecution) (err : string) : M (option Job) :=
  _ ← match execution with
      | Some e =>
          JobExecution_save
            (set_errorMessage (Some err)
              (set_exError (Some {| message := err |})
                (set_duration (Some (endTime - startTime))
                  (set_completedAt (Some endTime)
                    (set_exStatus ex_failed e)))))
      | None => ret tt
      end;
  Job_findByPk (qJobId (data bullJob)).

(** The rest of the [catch] block, with the row [found] that was loaded. *)
Definition catchStore (bullJob : BullJob) (endTime : Z)
    (execution : option JobExecution) (err : string) (found : option Job)
  : M JobResult :=
  let jobData := data bullJob in
  let isLast := isLastAttempt bullJob in
  _ ← match found with
      | Some job =>
          let j1 := set_failedExecutions (failedExecutions job + 1)
                      (set_totalExecutions (totalExecutions job + 1)
                        (set_lastExecutedAt (Some endTime) job)) in
          if isLast then
            let j2 := set_status failed j1 in
            _ ← effect (notify (max_retries_exceeded (userId j2) (id j2)
                                  (name j2) (maxRetriesOf bullJob) err));
            Job_save job j2
          else
            _ ← effect (notify (job_retry (userId j1) (id j1) (name j1)
                                  (attemptsMade bullJob + 1)
                                  (maxRetriesOf bullJob) err));
            Job_save job j1
      | None => ret tt
      end;
  _ ← JobLog_create
        {| logJobId := qJobId jobData;
           logExecutionId := exId <$> execution;
           level := error;
           logMessage := MsgFailed err (attemptsMade bullJob + 1) isLast |};
  throw err.

(** Two attempts of one job that overlap: [a], whose executor resolves,
    and [b], whose executor rejects, have both been opened; each loads the
    job row before the other has saved it. *)
Definition overlappingAttempts (a b : BullJob) (startA endA startB endB : Z)
    (executionA executionB : JobExecution) (res : JobResult) (err : string)
  : M JobResult :=
  let executionA' :=
    set_output (Some res)
      (set_result (Some res)
        (set_duration (Some (endA - startA))
          (set_completedAt (Some endA)
            (set_exStatus ex_completed executionA)))) in
  rowA ← finalizeLoad a executionA';
  rowB ← catchLoad b startB endB (Some executionB) err;
  _ ← finalizeStore a startA endA executionA' res rowA;
  catchStore b endB (Some executionB) err rowB.

(** ** The delivery of attempts by the queue (the bullmq worker)

    bullmq is a library and no code of this repository: [willRetry],
    [retryDelayOf] and [runAttempts] follow its documented contract for the
    options [attempts] and [backoff], and are used only where a property
    speaks of the deliveries of a queue job.  The worker of bullmq calls the
    processor with the job; when the processor throws and
    [attemptsMade + 1 < opts.attempts], the job is delayed by its backoff
    and delivered again with [attemptsMade] incremented; otherwise the chain
    ends. *)

Record AttemptInput := mkAttemptInput {
  aiExecId : string;
  aiStart : Z;
  aiEnd : Z;
  aiEnv : Environment;
}.

Inductive ChainEnd :=
| ChainCompleted (res : JobResult)
| ChainFailed (err : string)
| ChainWaiting (next : BullJob).

(** The built-in backoff strategies of bullmq, for the job whose
    [made]-th attempt has just failed. *)
Definition retryDelayOf (o : JobsOptions) (made : Z) : Z :=
  match backoff o with
  | Some b =>
      match backoffType b with
      | exponential => 2 ^ (made - 1) * backoffDelay b
      | fixed => backoffDelay b
      end
  | None => 0
  end.

Definition willRetry (bullJob : BullJob) : bool :=
  match attempts (opts bullJob) with
  | Some n => attemptsMade bullJob + 1 <? n
  | None => false
  end.

Definition nextDelivery (bullJob : BullJob) : BullJob :=
  {| bullName := bullName bullJob; data := data bullJob;
     opts := opts bullJob; attemptsMade := attemptsMade bullJob + 1 |}.

(** The chain of attempts of one queue job; [inputs] gives the outside
    world of the successive attempts.  The result lists the delays before
    the re-deliveries. *)
Fixpoint runAttempts (bullJob : BullJob) (inputs : list AttemptInput)
    (w : World) : World * list Z * ChainEnd :=
  match inputs with
  | [] => (w, [], ChainWaiting bullJob)
  | i :: rest =>
      match processJob bullJob (aiExecId i) (aiStart i) (aiEnd i)
              (aiEnv i) w with
      | (w', Returned res) => (w', [], ChainCompleted res)
      | (w', Thrown err) =>
          if willRetry bullJob then
            let '(w'', delays, e) :=
              runAttempts (nextDelivery bullJob) rest w' in
            (w'', retryDelayOf (opts bullJob) (attemptsMade bullJob + 1)
                   :: delays, e)
          else (w', [], ChainFailed err)
      end
  end.

(** ** utils/helpers.js: [retryWithBackoff]

    The delay slept after the failed attempt [att] of [retryWithBackoff];
    no delay follows the last attempt. *)
Definition retryWithBackoff_delay (maxR baseDelay : Z)
    (backoffT : RetryBackoff) (att : Z) : option Z :=
  if att <? maxR then
    Some (match backoffT with
          | exponential => baseDelay * 2 ^ (att - 1)
          | fixed => baseDelay
          end)
  else None.


(** How a call of [retryWithBackoff] ends: it returns the value of [fn], or
    throws [lastError], which is [undefined] ([None]) when [fn] was never
    called. *)
Inductive Settled (A : Type) :=
| Resolved (a : A)
| Rejected (lastError : option string).
#[global] Arguments Resolved {A} a.
#[global] Arguments Rejected {A} lastError.

(** What a call of [retryWithBackoff] did: the number of calls of [fn], the
    delays it slept, in order, and how it ended. *)
Record RetryRun (A : Type) := mkRetryRun {
  calls : Z;
  slept : list Z;
  settled : Settled A;
}.
#[global] Arguments mkRetryRun {A}.
#[global] Arguments calls {A}.
#[global] Arguments slept {A}.
#[global] Arguments settled {A}.

(** The loop of [retryWithBackoff], entered with the loop variable at
    [att]; [fn k] is what the [k]-th call of [fn] settles with.  [fuel]
    bounds the number of iterations. *)
Fixpoint retryLoop {A} (fn : Z → Outcome A) (maxR baseDelay : Z)
    (backoffT : RetryBackoff) (fuel : nat) (att : Z)
    (lastError : option string) (sleeps : list Z) : option (RetryRun A) :=
  if att <=? maxR then
    match fuel with
    | O => None
    | S fuel' =>
        match fn att with
        | Returned a =>
            Some {| calls := att; slept := sleeps; settled := Resolved a |}
        | Thrown e =>
            retryLoop fn maxR baseDelay backoffT fuel' (att + 1) (Some e)
              match retryWithBackoff_delay maxR baseDelay backoffT att with
              | Some delay => sleeps ++ [delay]
              | None => sleeps
              end
        end
    end
  else Some {| calls := att - 1; slept := sleeps;
               settled := Rejected lastError |}.

(** [retryWithBackoff(fn, maxRetries = 3, baseDelay = 1000,
    backoffType = 'exponential')] *)
Definition retryWithBackoff {A} (fn : Z → Outcome A)
    (maxRetries baseDelay : option Z) (backoffType : option RetryBackoff)
  : option (RetryRun A) :=
  let maxR := default 3 maxRetries in
  retryLoop fn maxR (default 1000 baseDelay) (default exponential backoffType)
    (Z.to_nat maxR) 1 None [].

(** [Array.prototype.slice(start, end)]: a negative index counts from the
    end, and both indices are clamped to the array. *)
Definition js_slice {A} (l : list A) (start stop : Z) : list A :=
  let len := Z.of_nat (length l) in
  let k := if start <? 0 then Z.max (len + start) 0 else Z.min start len in
  let final := if stop <? 0 then Z.max (len + stop) 0 else Z.min stop len in
  take (Z.to_nat (final - k)) (drop (Z.to_nat k) l).

(** The value of [paginate]; [pages] is [None] when [limit] is 0, where
    [Math.ceil(length / limit)] is [Infinity] or [NaN]. *)
Record Page (A : Type) := mkPage {
  pgData : list A;
  pgTotal : Z;
  pgPage : Z;
  pgLimit : Z;
  pgPages : option Z;
}.
#[global] Arguments mkPage {A}.
#[global] Arguments pgData {A}.
#[global] Arguments pgTotal {A}.
#[global] Arguments pgPage {A}.
#[global] Arguments pgLimit {A}.
#[global] Arguments pgPages {A}.

(** [paginate(array, page = 1, limit = 20)] *)
Definition paginate {A} (array : list A) (page limit : option Z) : Page A :=
  let page := default 1 page in
  let limit := default 20 limit in
  let start := (page - 1) * limit in
  let stop := start + limit in
  {| pgData := js_slice array start stop;
     pgTotal := Z.of_nat (length array);
     pgPage := page;
     pgLimit := limit;
     pgPages := if limit =? 0 then None
                else Some (- ((- Z.of_nat (length array)) / limit)) |}.

(** ** controllers/jobController.js

    What a controller hands to express: a JSON response with its status
    code, an [ApiError] with its status code, or any other exception, which
    goes to the error handler as it was thrown. *)
Inductive Reply (A : Type) :=
| Sent (code : Z) (body : A)
| ApiError (statusCode : Z) (msg : string)
| Raised (msg : string).
#[global] Arguments Sent {A} code body.
#[global] Arguments ApiError {A} statusCode msg.
#[global] Arguments Raised {A} msg.

Definition Controller (A : Type) : Type := World → World * Reply A.

(** [await] of a service call inside a controller. *)
Definition awaiting {A B} (c : M A) (k : A → Controller B) : Controller B :=
  fun w => match c w with
           | (w', Returned a) => k a w'
           | (w', Thrown msg) => (w', Raised msg)
           end.

(** [Job.findOne({ where: { id, userId } })] *)
Definition Job_findOne (jobId user : string) (w : World) : option Job :=
  match jobs w !! jobId with
  | Some job => if decide (userId job = user) then Some job else None
  | None => None
  end.

(** [job.destroy()]: the executions and the log lines of the job go with
    the row (the foreign keys are declared [ON DELETE CASCADE]). *)
Definition Job_destroy (job : Job) : M unit :=
  effect (fun w =>
    {| jobs := delete (id job) (jobs w);
       executions := filter (fun e => exJobId e ≠ id job) (executions w);
       logs := filter (fun l => logJobId l ≠ id job) (logs w);
       jobQueue := jobQueue w; scheduledQueue := scheduledQueue w;
       notifications := notifications w |}).

(** [createJob]: [POST /api/v1/jobs] *)
Definition controller_createJob (now : Z) (newId : string) (body : JobInput)
    (reqUser : string) : Controller Job :=
  awaiting (scheduleJob now newId body reqUser)
    (fun job w => (w, Sent 201 job)).

(** [deleteJob]: [DELETE /api/v1/jobs/:id] *)
Definition controller_deleteJob (reqId reqUser : string) : Controller unit :=
  fun w =>
    match Job_findOne reqId reqUser w with
    | None => (w, ApiError 404 "Job not found")
    | Some job =>
        awaiting (cancelJob (id job)) (fun _ =>
        awaiting (Job_destroy job) (fun _ w' => (w', Sent 200 tt))) w
    end.

(** [pauseJob]: [POST /api/v1/jobs/:id/pause] *)
Definition controller_pauseJob (reqId reqUser : string) : Controller Job :=
  fun w =>
    match Job_findOne reqId reqUser w with
    | None => (w, ApiError 404 "Job not found")
    | Some job =>
        if decide (status job ≠ active)
        then (w, ApiError 400 "Can only pause active jobs")
        else awaiting (pauseJob (id job))
               (fun updatedJob w' => (w', Sent 200 updatedJob)) w
    end.

(** [resumeJob]: [POST /api/v1/jobs/:id/resume] *)
Definition controller_resumeJob (now : Z) (reqId reqUser : string)
  : Controller Job :=
  fun w =>
    match Job_findOne reqId reqUser w with
    | None => (w, ApiError 404 "Job not found")
    | Some job =>
        if decide (status job ≠ paused)
        then (w, ApiError 400 "Can only resume paused jobs")
        else awaiting (resumeJob now (id job))
               (fun updatedJob w' => (w', Sent 200 updatedJob)) w
    end.

(** [cancelJob]: [POST /api/v1/jobs/:id/cancel] *)
Definition controller_cancelJob (reqId reqUser : string) : Controller Job :=
  fun w =>
    match Job_findOne reqId reqUser w with
    | None => (w, ApiError 404 "Job not found")
    | Some job =>
        if decide (status job = cancelled)
        then (w, ApiError 400 "Job is already cancelled")
        else awaiting (cancelJob (id job))
               (fun updatedJob w' => (w', Sent 200 updatedJob)) w
    end.

(** [rescheduleJob]: [POST /api/v1/jobs/:id/reschedule] *)
Definition controller_rescheduleJob (now : Z) (reqId reqUser : string)
    (body : ScheduleData) : Controller Job :=
  fun w =>
    match sdScheduledAt body, truthy (sdCronExpression body) with
    | None, None =>
        (w, ApiError 400 "Either scheduledAt or cronExpression is required")
    | _, _ =>
        match Job_findOne reqId reqUser w with
        | None => (w, ApiError 404 "Job not found")
        | Some job =>
            awaiting (rescheduleJob now (id job) body)
              (fun updatedJob w' => (w', Sent 200 updatedJob)) w
        end
    end.

(** [triggerJob]: [POST /api/v1/jobs/:id/trigger]; the response carries the
    job as it was loaded. *)
Definition controller_triggerJob (now : Z) (reqId reqUser : string)
  : Controller Job :=
  fun w =>
    match Job_findOne reqId reqUser w with
    | None => (w, ApiError 404 "Job not found")
    | Some job =>
        awaiting (triggerJob now (id job)) (fun _ w' => (w', Sent 200 job)) w
    end.

(** * Definitions used to state the properties *)

(** The execution row, the job row and the notification that the [catch]
    block leaves behind. *)
Definition failedExecution (bullJob : BullJob) (execId : string)
    (startTime endTime : Z) (err : string) : JobExecution :=
  set_errorMessage (Some err)
    (set_exError (Some {| message := err |})
      (set_duration (Some (endTime - startTime))
        (set_completedAt (Some endTime)
          (set_exStatus ex_failed (newExecution bullJob execId startTime))))).

Definition countFailure (endTime : Z) (job : Job) : Job :=
  set_failedExecutions (failedExecutions job + 1)
    (set_totalExecutions (totalExecutions job + 1)
      (set_lastExecutedAt (Some endTime) job)).

Definition failedJob (bullJob : BullJob) (endTime : Z) (job : Job) : Job :=
  if isLastAttempt bullJob then set_status failed (countFailure endTime job)
  else countFailure endTime job.

Definition failureNotification (bullJob : BullJob) (job : Job) (err : string)
  : Notification :=
  if isLastAttempt bullJob then
    max_retries_exceeded (userId job) (id job) (name job)
      (maxRetriesOf bullJob) err
  else
    job_retry (userId job) (id job) (name job) (attemptsMade bullJob + 1)
      (maxRetriesOf bullJob) err.

Definition startedLog (bullJob : BullJob) (execId : string) : JobLog :=
  {| logJobId := qJobId (data bullJob); logExecutionId := Some execId;
     level := info; logMessage := MsgStarted (attemptsMade bullJob + 1) |}.

Definition failedLog (bullJob : BullJob) (execId : option string)
    (err : string) : JobLog :=
  {| logJobId := qJobId (data bullJob); logExecutionId := execId;
     level := error;
     logMessage := MsgFailed err (attemptsMade bullJob + 1)
                     (isLastAttempt bullJob) |}.

(** What [updateNextExecution] decides for the row of a recurring job. *)
Definition advance (now : Z) (job : Job) : Outcome Job :=
  if endReached now job then Returned (set_status completed job)
  else if maxReached job then Returned (set_status completed job)
  else match cronExpression job with
       | Some e =>
           if cronValid e
           then Returned (set_nextExecutionAt
                            (Some (cronNext e (timezone job) now)) job)
           else Thrown "Invalid cron expression"
       | None => Thrown "Invalid cron expression"
       end.

Definition countSuccess (endTime : Z) (job : Job) : Job :=
  set_successfulExecutions (successfulExecutions job + 1)
    (set_totalExecutions (totalExecutions job + 1)
      (set_lastExecutedAt (Some endTime) job)).

Definition completedExecution (bullJob : BullJob) (execId : string)
    (startTime endTime : Z) (res : JobResult) : JobExecution :=
  set_output (Some res)
    (set_result (Some res)
      (set_duration (Some (endTime - startTime))
        (set_completedAt (Some endTime)
          (set_exStatus ex_completed (newExecution bullJob execId startTime))))).

Definition completedLog (bullJob : BullJob) (execId : string) (dur : Z)
  : JobLog :=
  {| logJobId := qJobId (data bullJob); logExecutionId := Some execId;
     level := info; logMessage := MsgCompleted dur |}.

(** The row that the success path leaves for a job: a job that is not
    recurring is completed; for a recurring job the row written by the
    advance keeps its status and next execution, and receives the counters
    and the last execution time. *)
Definition succeededJob (endTime : Z) (job : Job) : Outcome Job :=
  if decide (scheduleType job = recurring) then
    match advance endTime job with
    | Returned job' =>
        Returned (mergeChanged job (countSuccess endTime job) job')
    | Thrown e => Thrown e
    end
  else Returned (set_status completed (countSuccess endTime job)).

Definition countersOk (job : Job) : Prop :=
  successfulExecutions job + failedExecutions job ≤ totalExecutions job.

(** One finalize step on the counters of a row. *)
Definition finalized (job job' : Job) : Prop :=
  totalExecutions job' = totalExecutions job + 1 ∧
  ((successfulExecutions job' = successfulExecutions job + 1 ∧
    failedExecutions job' = failedExecutions job) ∨
   (successfulExecutions job' = successfulExecutions job ∧
    failedExecutions job' = failedExecutions job + 1)).

Definition sameCounters (job job' : Job) : Prop :=
  totalExecutions job' = totalExecutions job ∧
  successfulExecutions job' = successfulExecutions job ∧
  failedExecutions job' = failedExecutions job.

Definition wfWorld (w : World) : Prop :=
  ∀ k j, jobs w !! k = Some j → id j = k.

(** Between two states: every row that existed is still there with the same
    key and counters, and a new row starts with its counters at zero. *)
Definition countersKept (w w' : World) : Prop :=
  ∀ k, match jobs w !! k, jobs w' !! k with
       | Some j, Some j' => sameCounters j j' ∧ id j' = id j
       | None, Some j' =>
           totalExecutions j' = 0 ∧ successfulExecutions j' = 0 ∧
           failedExecutions j' = 0 ∧ id j' = k
       | Some _, None => False
       | None, None => True
       end.

Definition keeps {A} (c : M A) : Prop :=
  ∀ w w' r, c w = (w', r) → countersKept w w'.

(** The operations of the planner and the attempts of the worker, with the
    values each reads from outside.  [step] runs one operation from its
    start to its end and [run] a list of them in turn: a history in which
    no two operations overlap. *)
Inductive Op :=
| OpSchedule (now : Z) (newId : string) (jobData : JobInput) (user : string)
| OpReschedule (now : Z) (jobId : string) (sd : ScheduleData)
| OpPause (jobId : string)
| OpResume (now : Z) (jobId : string)
| OpCancel (jobId : string)
| OpTrigger (now : Z) (jobId : string)
| OpAttempt (bullJob : BullJob) (execId : string) (startTime endTime : Z)
    (env : Environment).

Definition step (op : Op) (w : World) : World :=
  match op with
  | OpSchedule now newId jobData user => (scheduleJob now newId jobData user w).1
  | OpReschedule now jobId sd => (rescheduleJob now jobId sd w).1
  | OpPause jobId => (pauseJob jobId w).1
  | OpResume now jobId => (resumeJob now jobId w).1
  | OpCancel jobId => (cancelJob jobId w).1
  | OpTrigger now jobId => (triggerJob now jobId w).1
  | OpAttempt bullJob execId startTime endTime env =>
      (processJob bullJob execId startTime endTime env w).1
  end.

Definition run (ops : list Op) (w : World) : World :=
  fold_left (fun w op => step op w) ops w.

Definition countersInvariant (w : World) : Prop :=
  ∀ k j, jobs w !! k = Some j → countersOk j.

(** What one operation does to the counters: a planner operation keeps them;
    an attempt finalizes the row of its job, if there is one, and leaves the
    other rows alone. *)
Definition counterEffect (op : Op) (w w' : World) : Prop :=
  match op with
  | OpAttempt bullJob _ _ _ _ =>
      match jobs w !! qJobId (data bullJob) with
      | Some job =>
          ∃ job', jobs w' = <[qJobId (data bullJob) := job']> (jobs w) ∧
                  finalized job job' ∧ id job' = id job
      | None => jobs w' = jobs w
      end
  | _ => countersKept w w'
  end.

(** The row [scheduleJob] inserts for an immediate job. *)
Definition immediateRow (now : Z) (newId : string) (jobData : JobInput)
    (user : string) : Job :=
  {| id := newId; userId := user; name := inName jobData;
     type := inType jobData; payload := inPayload jobData;
     scheduleType := immediate;
     scheduledAt := inScheduledAt jobData;
     cronExpression := inCronExpression jobData;
     timezone := default "UTC" (inTimezone jobData);
     maxRetries := default 3 (inMaxRetries jobData);
     retryDelay := default 5000 (inRetryDelay jobData);
     retryBackoff := default exponential (inRetryBackoff jobData);
     timeout := default 300000 (inTimeout jobData);
     priority := default 0 (inPriority jobData);
     status := active;
     lastExecutedAt := None;
     nextExecutionAt := Some now;
     totalExecutions := 0; successfulExecutions := 0; failedExecutions := 0;
     endAt := inEndAt jobData;
     maxExecutions := inMaxExecutions jobData |}.

(** The queue job [addJob] builds for the envelope of a job row, given the
    options of the call. *)
Definition queuedJob (job : Job) (priorityOpt delayOpt : option Z) : BullJob :=
  {| bullName := nameOr (name job) "job";
     data := queueDataOf job;
     opts := {| attempts := Some (maxRetryAttempts config);
                backoff := Some {| backoffType := exponential;
                                   backoffDelay := retryDelayMs config |};
                optPriority := priorityOpt; optDelay := delayOpt;
                optJobId := Some (id job); repeat := None |};
     attemptsMade := 0 |}.

(** The [k]-th re-delivery of a queue job. *)
Definition redelivered (k : Z) (bullJob : BullJob) : BullJob :=
  {| bullName := bullName bullJob; data := data bullJob;
     opts := opts bullJob; attemptsMade := attemptsMade bullJob + k |}.

(** The envelope with another [timeout]. *)
Definition withTimeout (t : Z) (bullJob : BullJob) : BullJob :=
  {| bullName := bullName bullJob;
     data := {| qJobId := qJobId (data bullJob); qId := qId (data bullJob);
                qName := qName (data bullJob); qType := qType (data bullJob);
                qPayload := qPayload (data bullJob);
                qUserId := qUserId (data bullJob); qTimeout := t;
                qMaxRetries := qMaxRetries (data bullJob);
                qRetryDelay := qRetryDelay (data bullJob);
                qRetryBackoff := qRetryBackoff (data bullJob);
                isManualTrigger := isManualTrigger (data bullJob) |};
     opts := opts bullJob; attemptsMade := attemptsMade bullJob |}.

(** The envelope with another [maxRetries]. *)
Definition withMaxRetries (n : Z) (bullJob : BullJob) : BullJob :=
  {| bullName := bullName bullJob;
     data := {| qJobId := qJobId (data bullJob); qId := qId (data bullJob);
                qName := qName (data bullJob); qType := qType (data bullJob);
                qPayload := qPayload (data bullJob);
                qUserId := qUserId (data bullJob);
                qTimeout := qTimeout (data bullJob);
                qMaxRetries := n;
                qRetryDelay := qRetryDelay (data bullJob);
                qRetryBackoff := qRetryBackoff (data bullJob);
                isManualTrigger := isManualTrigger (data bullJob) |};
     opts := opts bullJob; attemptsMade := attemptsMade bullJob |}.

(** * Properties of the embedding *)

(** ** The database layer *)

Lemma changed_same {A} `{EqDecision A} (loaded cur : A) :
  changed loaded cur loaded = cur.
Proof. unfold changed. case_decide; congruence. Qed.

(** A save right after the load writes the instance as it is. *)
Lemma mergeChanged_same (loaded cur : Job) : mergeChanged loaded cur loaded = cur.
Proof.
  destruct cur. unfold mergeChanged. cbn [id userId name type payload
    scheduleType scheduledAt cronExpression timezone maxRetries retryDelay
    retryBackoff timeout priority status lastExecutedAt nextExecutionAt
    totalExecutions successfulExecutions failedExecutions endAt maxExecutions].
  by rewrite !changed_same.
Qed.

Ltac unfold_M :=
  unfold mbind, M_bind, bind, mret, M_ret, ret, throw, effect, reads,
    tryCatch in *.

Lemma fresh_existsb (execId : string) (es : list JobExecution) :
  Forall (fun e => exId e ≠ execId) es →
  existsb (fun e' => bool_decide (exId e' = execId)) es = false.
Proof.
  induction 1 as [|e es He _ IH]; [done|].
  cbn. rewrite IH. by rewrite bool_decide_eq_false_2.
Qed.

Lemma save_fresh (cur : JobExecution) (es : list JobExecution) (e0 : JobExecution) :
  Forall (fun e => exId e ≠ exId cur) es → exId e0 = exId cur →
  (fun e => if decide (exId e = exId cur) then cur else e) <$> (es ++ [e0])
  = es ++ [cur].
Proof.
  intros Hfresh Hid. rewrite fmap_app. f_equal.
  - induction Hfresh as [|e es He _ IH]; [done|].
    cbn. rewrite decide_False by done. by f_equal.
  - cbn. by rewrite decide_True.
Qed.

(** ** One attempt whose executor rejects *)

Ltac simpl_world :=
  unfold setJobs, setExecutions, setLogs, setJobQueue, setScheduledQueue,
    notify in *;
  cbn [jobs executions logs jobQueue scheduledQueue notifications] in *.

Lemma set_status_id (s : JobStatus) (j : Job) : id (set_status s j) = id j.
Proof. done. Qed.

Lemma countFailure_id (t : Z) (j : Job) : id (countFailure t j) = id j.
Proof. done. Qed.

Lemma failedJob_id (bullJob : BullJob) (t : Z) (j : Job) :
  id (failedJob bullJob t j) = id j.
Proof. unfold failedJob. by destruct (isLastAttempt bullJob). Qed.

(** The [catch] block when the job row exists. *)
Lemma catchBlock_found (bullJob : BullJob) (startTime endTime : Z)
    (execution : option JobExecution) (err : string) (w : World) (job : Job) :
  jobs w !! qJobId (data bullJob) = Some job →
  id job = qJobId (data bullJob) →
  catchBlock bullJob startTime endTime execution err w =
    ({| jobs := <[qJobId (data bullJob) := failedJob bullJob endTime job]>
                  (jobs w);
        executions :=
          match execution with
          | Some e =>
              let e' := set_errorMessage (Some err)
                          (set_exError (Some {| message := err |})
                            (set_duration (Some (endTime - startTime))
                              (set_completedAt (Some endTime)
                                (set_exStatus ex_failed e)))) in
              (fun x => if decide (exId x = exId e') then e' else x)
                <$> executions w
          | None => executions w
          end;
        logs := logs w ++ [failedLog bullJob (exId <$> execution) err];
        jobQueue := jobQueue w;
        scheduledQueue := scheduledQueue w;
        notifications := notifications w
                           ++ [failureNotification bullJob job err] |},
     Thrown err).
Proof.
  intros Hjob Hid.
  assert (Hsave : ∀ cur, id cur = id job →
            alter (mergeChanged job cur) (id cur) (jobs w)
            = <[qJobId (data bullJob) := cur]> (jobs w)).
  { intros cur Hcur. rewrite Hcur, Hid.
    rewrite (alter_alt_Some _ _ _ _ Hjob). by rewrite mergeChanged_same. }
  unfold catchBlock, failedJob, failureNotification, failedLog.
  unfold JobExecution_save, Job_findByPk, Job_save, JobLog_create. unfold_M.
  destruct execution as [e|]; simpl_world; rewrite Hjob;
    destruct (isLastAttempt bullJob); simpl_world;
    cbn [logJobId]; rewrite Hsave by done;
    rewrite lookup_insert_eq; reflexivity.
Qed.

Lemma processJob_rejected (bullJob : BullJob) (execId : string)
    (startTime endTime : Z) (env : Environment) (w : World) (job : Job)
    (err : string) :
  jobs w !! qJobId (data bullJob) = Some job →
  id job = qJobId (data bullJob) →
  Forall (fun e => exId e ≠ execId) (executions w) →
  executeOutcome (data bullJob) env = Thrown err →
  processJob bullJob execId startTime endTime env w =
    ({| jobs := <[qJobId (data bullJob) := failedJob bullJob endTime job]>
                  (jobs w);
        executions := executions w
                        ++ [failedExecution bullJob execId startTime endTime err];
        logs := logs w ++ [startedLog bullJob execId;
                           failedLog bullJob (Some execId) err];
        jobQueue := jobQueue w;
        scheduledQueue := scheduledQueue w;
        notifications := notifications w
                           ++ [failureNotification bullJob job err] |},
     Thrown err).
Proof.
  intros Hjob Hid Hfresh Hexec.
  unfold processJob, JobExecution_create.
  cbn [exJobId newExecution exId]. rewrite Hjob, fresh_existsb by done.
  unfold runExecution, JobLog_create, execute. unfold_M.
  simpl_world. cbn [logJobId]. rewrite Hjob, Hexec.
  rewrite (catchBlock_found _ _ _ _ _ _ job) by done.
  simpl_world. f_equal. f_equal.
  - by rewrite save_fresh.
  - by rewrite <- app_assoc.
Qed.

(** ** The recurring advance *)

Lemma Job_save_found (loaded cur db : Job) (w : World) :
  jobs w !! id cur = Some db →
  Job_save loaded cur w
  = (setJobs (insert (id cur) (mergeChanged loaded cur db)) w, Returned tt).
Proof.
  intros Hdb. unfold Job_save, effect, setJobs.
  by rewrite (alter_alt_Some _ _ _ _ Hdb).
Qed.

Lemma updateNextExecution_found (now : Z) (w : World) (job : Job) :
  jobs w !! id job = Some job →
  scheduleType job = recurring →
  updateNextExecution now (id job) w =
    match advance now job with
    | Returned job' => (setJobs (insert (id job) job') w, Returned (Some job'))
    | Thrown e => (w, Thrown e)
    end.
Proof.
  intros Hjob Hrec.
  unfold updateNextExecution, Job_findByPk, advance, getNextCronExecution.
  unfold_M. rewrite Hjob.
  rewrite decide_False by (intros H; by apply H).
  destruct (endReached now job).
  { rewrite (Job_save_found _ _ job) by done. by rewrite mergeChanged_same. }
  destruct (maxReached job).
  { rewrite (Job_save_found _ _ job) by done. by rewrite mergeChanged_same. }
  destruct (cronExpression job) as [e|]; [|done].
  destruct (cronValid e); [|done].
  rewrite (Job_save_found _ _ job) by done. by rewrite mergeChanged_same.
Qed.

Lemma updateNextExecution_other (now : Z) (jobId : string) (w : World) :
  (∀ job, jobs w !! jobId = Some job → scheduleType job ≠ recurring) →
  updateNextExecution now jobId w = (w, Returned None).
Proof.
  intros Hnot. unfold updateNextExecution, Job_findByPk. unfold_M.
  destruct (jobs w !! jobId) as [job|] eqn:Hjob; [|done].
  by rewrite decide_True by (by apply Hnot).
Qed.

(** ** One attempt whose executor resolves *)

Lemma finalizeSuccess_found (bullJob : BullJob) (startTime endTime : Z)
    (execution : JobExecution) (res : JobResult) (w : World) (job : Job) :
  jobs w !! qJobId (data bullJob) = Some job →
  id job = qJobId (data bullJob) →
  let saved :=
    (fun x => if decide (exId x = exId execution) then execution else x)
      <$> executions w in
  finalizeSuccess bullJob startTime endTime execution res w =
    match succeededJob endTime job with
    | Returned job' =>
        ({| jobs := <[qJobId (data bullJob) := job']> (jobs w);
            executions := saved;
            logs := logs w ++ [completedLog bullJob (exId execution)
                                 (endTime - startTime)];
            jobQueue := jobQueue w;
            scheduledQueue := scheduledQueue w;
            notifications := notifications w
              ++ [job_completed (userId job) (id job) (name job)
                    (exId execution) (endTime - startTime)] |},
         Returned res)
    | Thrown e =>
        ({| jobs := jobs w; executions := saved; logs := logs w;
            jobQueue := jobQueue w; scheduledQueue := scheduledQueue w;
            notifications := notifications w |},
         Thrown e)
    end.
Proof.
  intros Hjob Hid saved.
  unfold finalizeSuccess, succeededJob, JobExecution_save, Job_findByPk.
  unfold_M. simpl_world. rewrite Hjob.
  change (scheduleType (set_successfulExecutions _ _)) with (scheduleType job).
  change (id (set_successfulExecutions _ _)) with (id job).
  fold (countSuccess endTime job).
  destruct (decide (scheduleType job = recurring)) as [Hrec|Hrec].
  - rewrite updateNextExecution_found by (simpl_world; by rewrite ?Hid).
    destruct (advance endTime job) as [job'|e]; [|done].
    simpl_world.
    rewrite (Job_save_found _ _ job')
      by (simpl_world; change (id (countSuccess endTime job)) with (id job);
          by rewrite lookup_insert_eq).
    unfold JobLog_create. simpl_world. cbn [logJobId].
    change (id (countSuccess endTime job)) with (id job).
    rewrite Hid, lookup_insert_eq, insert_insert_eq. reflexivity.
  - rewrite (Job_save_found _ _ job) by (simpl_world; by rewrite <- Hid in Hjob).
    unfold JobLog_create. simpl_world. cbn [logJobId].
    rewrite mergeChanged_same.
    change (id (set_status completed (countSuccess endTime job))) with (id job).
    rewrite Hid, lookup_insert_eq. reflexivity.
Qed.

Lemma processJob_resolved (bullJob : BullJob) (execId : string)
    (startTime endTime : Z) (env : Environment) (w : World) (job : Job)
    (res : JobResult) :
  jobs w !! qJobId (data bullJob) = Some job →
  id job = qJobId (data bullJob) →
  Forall (fun e => exId e ≠ execId) (executions w) →
  executeOutcome (data bullJob) env = Returned res →
  processJob bullJob execId startTime endTime env w =
    match succeededJob endTime job with
    | Returned job' =>
        ({| jobs := <[qJobId (data bullJob) := job']> (jobs w);
            executions := executions w
              ++ [completedExecution bullJob execId startTime endTime res];
            logs := logs w ++ [startedLog bullJob execId;
                               completedLog bullJob execId
                                 (endTime - startTime)];
            jobQueue := jobQueue w;
            scheduledQueue := scheduledQueue w;
            notifications := notifications w
              ++ [job_completed (userId job) (id job) (name job) execId
                    (endTime - startTime)] |},
         Returned res)
    | Thrown e =>
        ({| jobs := <[qJobId (data bullJob) := failedJob bullJob endTime job]>
                      (jobs w);
            executions := executions w
              ++ [set_errorMessage (Some e)
                    (set_exError (Some {| message := e |})
                      (set_exStatus ex_failed
                        (completedExecution bullJob execId startTime endTime
                           res)))];
            logs := logs w ++ [startedLog bullJob execId;
                               failedLog bullJob (Some execId) e];
            jobQueue := jobQueue w;
            scheduledQueue := scheduledQueue w;
            notifications := notifications w
                               ++ [failureNotification bullJob job e] |},
         Thrown e)
    end.
Proof.
  intros Hjob Hid Hfresh Hexec.
  unfold processJob, JobExecution_create.
  cbn [exJobId newExecution exId]. rewrite Hjob, fresh_existsb by done.
  unfold runExecution, JobLog_create, execute. unfold_M.
  simpl_world. cbn [logJobId]. rewrite Hjob, Hexec.
  rewrite (finalizeSuccess_found _ _ _ _ _ _ job) by done.
  fold (completedExecution bullJob execId startTime endTime res).
  destruct (succeededJob endTime job) as [job'|e].
  - simpl_world. f_equal. f_equal.
    + by rewrite save_fresh.
    + by rewrite <- app_assoc.
  - rewrite (catchBlock_found _ _ _ _ _ _ job) by done.
    simpl_world. f_equal. f_equal.
    + by do 2 (rewrite save_fresh by done).
    + by rewrite <- app_assoc.
Qed.

(** An attempt for a job whose row is gone: nothing can be written. *)
Lemma processJob_orphan (bullJob : BullJob) (execId : string)
    (startTime endTime : Z) (env : Environment) (w : World) :
  jobs w !! qJobId (data bullJob) = None →
  processJob bullJob execId startTime endTime env w
  = (w, Thrown foreignKeyViolation).
Proof.
  intros Hnone. unfold processJob, JobExecution_create.
  cbn [exJobId newExecution]. rewrite Hnone.
  unfold catchBlock, Job_findByPk, JobLog_create. unfold_M.
  cbn [logJobId]. rewrite Hnone. cbn. by rewrite Hnone.
Qed.

(** ** Counters *)

Lemma failedJob_finalized (bullJob : BullJob) (t : Z) (job : Job) :
  finalized job (failedJob bullJob t job).
Proof.
  unfold finalized, failedJob.
  destruct (isLastAttempt bullJob); cbn; auto.
Qed.

Lemma changed_incr (x db : Z) : changed x (x + 1) db = x + 1.
Proof. unfold changed. case_decide; lia. Qed.

Lemma changed_keep {A} `{EqDecision A} (x db : A) : changed x x db = db.
Proof. unfold changed. by case_decide. Qed.

Lemma advance_sameCounters (now : Z) (job job' : Job) :
  advance now job = Returned job' → sameCounters job job' ∧ id job' = id job.
Proof.
  unfold advance, sameCounters.
  repeat case_match; intros [= <-]; done.
Qed.

Lemma succeededJob_finalized (t : Z) (job job' : Job) :
  succeededJob t job = Returned job' → finalized job job' ∧ id job' = id job.
Proof.
  unfold succeededJob. case_decide.
  - destruct (advance t job) as [adv|] eqn:Hadv; [|done].
    apply advance_sameCounters in Hadv as [(Ht & Hs & Hf) Hi].
    intros [= <-]. unfold finalized, mergeChanged.
    cbn [totalExecutions successfulExecutions failedExecutions id countSuccess
         set_successfulExecutions set_totalExecutions set_lastExecutedAt].
    rewrite !changed_incr, !changed_keep. auto.
  - intros [= <-]. unfold finalized. cbn. auto.
Qed.

Lemma existsb_fresh (execId : string) (es : list JobExecution) :
  existsb (fun e' => bool_decide (exId e' = execId)) es = false →
  Forall (fun e => exId e ≠ execId) es.
Proof.
  induction es as [|e es IH]; [constructor|].
  cbn. intros [He Hes]%orb_false_iff.
  constructor; [by apply bool_decide_eq_false_1 in He | by apply IH].
Qed.

Lemma stale_existsb (execId : string) (es : list JobExecution) :
  ¬ Forall (fun e => exId e ≠ execId) es →
  existsb (fun e' => bool_decide (exId e' = execId)) es = true.
Proof.
  intros Hnot. destruct (existsb _ es) eqn:Hex; [done|].
  by apply existsb_fresh in Hex.
Qed.

(** Every attempt for a job whose row exists finalizes that row exactly
    once, whatever happens to the attempt. *)
Lemma processJob_jobs (bullJob : BullJob) (execId : string)
    (startTime endTime : Z) (env : Environment) (w w' : World)
    (r : Outcome JobResult) (job : Job) :
  jobs w !! qJobId (data bullJob) = Some job →
  id job = qJobId (data bullJob) →
  processJob bullJob execId startTime endTime env w = (w', r) →
  ∃ job', jobs w' = <[qJobId (data bullJob) := job']> (jobs w) ∧
          finalized job job' ∧ id job' = id job.
Proof.
  intros Hjob Hid Hrun.
  destruct (decide (Forall (fun e => exId e ≠ execId) (executions w)))
    as [Hfresh|Hstale].
  - destruct (executeOutcome (data bullJob) env) as [res|err] eqn:Hexec.
    + rewrite (processJob_resolved _ _ _ _ _ _ job res) in Hrun by done.
      destruct (succeededJob endTime job) as [job'|e] eqn:Hsucc.
      * apply succeededJob_finalized in Hsucc as [Hfin Hi].
        injection Hrun as <- <-. by exists job'.
      * injection Hrun as <- <-. exists (failedJob bullJob endTime job).
        split; [done|]. split; [apply failedJob_finalized|apply failedJob_id].
    + rewrite (processJob_rejected _ _ _ _ _ _ job err) in Hrun by done.
      injection Hrun as <- <-. exists (failedJob bullJob endTime job).
      split; [done|]. split; [apply failedJob_finalized|apply failedJob_id].
  - unfold processJob, JobExecution_create in Hrun.
    cbn [exJobId newExecution exId] in Hrun.
    rewrite Hjob, stale_existsb in Hrun by done.
    rewrite (catchBlock_found _ _ _ _ _ _ job) in Hrun by done.
    injection Hrun as <- <-. exists (failedJob bullJob endTime job).
    split; [done|]. split; [apply failedJob_finalized|apply failedJob_id].
Qed.

(** ** Operations that keep the counters *)

Lemma countersKept_refl (w w' : World) : jobs w' = jobs w → countersKept w w'.
Proof.
  intros Heq k. rewrite Heq. by destruct (jobs w !! k).
Qed.

Lemma countersKept_trans (w1 w2 w3 : World) :
  countersKept w1 w2 → countersKept w2 w3 → countersKept w1 w3.
Proof.
  intros H12 H23 k. specialize (H12 k). specialize (H23 k).
  unfold sameCounters in *.
  destruct (jobs w1 !! k), (jobs w2 !! k), (jobs w3 !! k);
    try done; intuition congruence.
Qed.

Lemma keeps_ret {A} (a : A) : keeps (mret a).
Proof. intros w w' r [= <- <-]. by apply countersKept_refl. Qed.

Lemma keeps_throw {A} (msg : string) : keeps (@throw A msg).
Proof. intros w w' r [= <- <-]. by apply countersKept_refl. Qed.

Lemma keeps_bind {A B} (c : M A) (k : A → M B) :
  keeps c → (∀ a, keeps (k a)) → keeps (c ≫= k).
Proof.
  intros Hc Hk w w' r. unfold_M. destruct (c w) as [w1 [a|msg]] eqn:Hcw.
  - intros Hka. eapply countersKept_trans; [by eapply Hc | by eapply Hk].
  - intros [= <- <-]. by eapply Hc.
Qed.

Lemma keeps_same {A} (c : M A) :
  (∀ w, jobs (c w).1 = jobs w) → keeps c.
Proof.
  intros Hc w w' r Hrun. apply countersKept_refl.
  specialize (Hc w). by rewrite Hrun in Hc.
Qed.

Lemma keeps_Job_findByPk (jobId : string) : keeps (Job_findByPk jobId).
Proof. by apply keeps_same. Qed.

Lemma keeps_JobLog_create (l : JobLog) : keeps (JobLog_create l).
Proof.
  apply keeps_same. intros w. unfold JobLog_create. by case_match.
Qed.

Lemma keeps_Job_save (loaded cur : Job) :
  sameCounters loaded cur → id cur = id loaded → keeps (Job_save loaded cur).
Proof.
  intros (Ht & Hs & Hf) Hi w w' r [= <- <-] k. simpl_world.
  destruct (decide (k = id cur)) as [->|Hne].
  - rewrite lookup_alter_eq. destruct (jobs w !! id cur) as [db|]; [|done].
    cbn. unfold sameCounters, mergeChanged. cbn.
    rewrite Ht, Hs, Hf, Hi, !changed_keep. done.
  - rewrite lookup_alter_ne by done. by destruct (jobs w !! k).
Qed.

Lemma keeps_Job_create (row : Job) :
  totalExecutions row = 0 → successfulExecutions row = 0 →
  failedExecutions row = 0 → keeps (Job_create row).
Proof.
  intros Ht Hs Hf w w' r. unfold Job_create.
  destruct (jobs w !! id row) eqn:Hrow.
  - intros [= <- <-]. by apply countersKept_refl.
  - intros [= <- <-] k. simpl_world.
    destruct (decide (k = id row)) as [->|Hne].
    + by rewrite lookup_insert_eq, Hrow.
    + rewrite lookup_insert_ne by done. by destruct (jobs w !! k).
Qed.

Lemma keeps_jobQueue_add (nm : string) (d : QueueData) (o : JobsOptions) :
  keeps (jobQueue_add nm d o).
Proof.
  apply keeps_same. intros w. unfold jobQueue_add. by repeat case_match.
Qed.

Lemma keeps_addJob (d : QueueData) (o : JobsOptions) : keeps (addJob d o).
Proof. apply keeps_jobQueue_add. Qed.

Lemma keeps_addDelayedJob (now : Z) (d : QueueData) (at_ : option Z) :
  keeps (addDelayedJob now d at_).
Proof.
  unfold addDelayedJob. case_match; [apply keeps_throw|apply keeps_addJob].
Qed.

Lemma keeps_addRecurringJob (d : QueueData) (cron tz : string) :
  keeps (addRecurringJob d cron tz).
Proof. by apply keeps_same. Qed.

Lemma keeps_removeRecurringJob (jobId cron : string) :
  keeps (removeRecurringJob jobId cron).
Proof.
  apply keeps_same. intros w. unfold removeRecurringJob. by case_match.
Qed.

Lemma keeps_queue_cancelJob (jobId : string) : keeps (queue_cancelJob jobId).
Proof.
  apply keeps_same. intros w. unfold queue_cancelJob. by case_match.
Qed.

Lemma keeps_validateCronExpression (e : option string) :
  keeps (validateCronExpression e).
Proof.
  unfold validateCronExpression.
  repeat case_match; (apply keeps_ret || apply keeps_throw).
Qed.

Lemma keeps_getNextCronExecution (now : Z) (e : option string) (tz : string) :
  keeps (getNextCronExecution now e tz).
Proof.
  unfold getNextCronExecution.
  repeat case_match; (apply keeps_ret || apply keeps_throw).
Qed.

Ltac keeps_step :=
  first
    [ apply keeps_bind; [|intros ?]
    | apply keeps_ret
    | apply keeps_throw
    | apply keeps_Job_findByPk
    | apply keeps_JobLog_create
    | apply keeps_addJob
    | apply keeps_addDelayedJob
    | apply keeps_addRecurringJob
    | apply keeps_removeRecurringJob
    | apply keeps_queue_cancelJob
    | apply keeps_validateCronExpression
    | apply keeps_getNextCronExecution
    | apply keeps_Job_save; [done|done]
    | apply keeps_Job_create; done
    | by apply keeps_same
    | case_match
    | case_decide ].

Lemma keeps_enqueueJob (now : Z) (job : Job) : keeps (enqueueJob now job).
Proof. unfold enqueueJob. repeat keeps_step. Qed.

Lemma keeps_removeFromQueue (job : Job) : keeps (removeFromQueue job).
Proof. unfold removeFromQueue. repeat keeps_step. Qed.

Lemma keeps_scheduleJob (now : Z) (newId : string) (jobData : JobInput)
    (user : string) : keeps (scheduleJob now newId jobData user).
Proof.
  unfold scheduleJob.
  repeat (keeps_step || apply keeps_enqueueJob).
Qed.

Lemma keeps_pauseJob (jobId : string) : keeps (pauseJob jobId).
Proof. unfold pauseJob. repeat (keeps_step || apply keeps_removeFromQueue). Qed.

Lemma keeps_cancelJob (jobId : string) : keeps (cancelJob jobId).
Proof. unfold cancelJob. repeat (keeps_step || apply keeps_removeFromQueue). Qed.

(** Sequencing when what follows relies on a property of the value. *)
Lemma keeps_bind_post {A B} (P : A → Prop) (c : M A) (k : A → M B) :
  keeps c → (∀ w w' a, c w = (w', Returned a) → P a) →
  (∀ a, P a → keeps (k a)) → keeps (c ≫= k).
Proof.
  intros Hc HP Hk w w' r. unfold_M. destruct (c w) as [w1 [a|msg]] eqn:Hcw.
  - intros Hka. eapply countersKept_trans; [by eapply Hc|].
    eapply Hk; [by eapply HP | done].
  - intros [= <- <-]. by eapply Hc.
Qed.

Lemma keeps_resumeJob (now : Z) (jobId : string) : keeps (resumeJob now jobId).
Proof.
  unfold resumeJob. apply keeps_bind; [keeps_step|]. intros [job|]; [|keeps_step].
  case_decide; [|keeps_step].
  apply (keeps_bind_post (fun j1 => sameCounters job j1 ∧ id j1 = id job)).
  - repeat keeps_step.
  - intros w w' j1. unfold getNextCronExecution. unfold_M.
    repeat case_match; intros [= <- <-]; done.
  - intros j1 [Hc Hi]. repeat (keeps_step || apply keeps_enqueueJob).
Qed.

Lemma keeps_rescheduleJob (now : Z) (jobId : string) (sd : ScheduleData) :
  keeps (rescheduleJob now jobId sd).
Proof.
  unfold rescheduleJob. apply keeps_bind; [keeps_step|].
  intros [job|]; [|keeps_step].
  apply keeps_bind; [repeat keeps_step|]. intros _.
  apply keeps_bind; [repeat keeps_step|]. intros _.
  apply (keeps_bind_post (fun j1 => sameCounters job j1 ∧ id j1 = id job)).
  - repeat keeps_step.
  - intros w w' j1. unfold validateCronExpression, getNextCronExecution.
    unfold_M. repeat case_match; intros [= <- <-]; done.
  - intros j1 [Hc Hi]. repeat (keeps_step || apply keeps_enqueueJob).
Qed.

Lemma keeps_triggerJob (now : Z) (jobId : string) : keeps (triggerJob now jobId).
Proof. unfold triggerJob. repeat keeps_step. Qed.

(** ** Histories of operations *)

Lemma keeps_step_spec {A} (c : M A) (w : World) :
  keeps c → countersKept w (c w).1.
Proof. intros Hc. destruct (c w) as [w' r] eqn:Hrun. by eapply Hc. Qed.

Lemma step_counterEffect (op : Op) (w : World) :
  wfWorld w → counterEffect op w (step op w).
Proof.
  intros Hwf. destruct op; cbn [step counterEffect].
  - apply keeps_step_spec, keeps_scheduleJob.
  - apply keeps_step_spec, keeps_rescheduleJob.
  - apply keeps_step_spec, keeps_pauseJob.
  - apply keeps_step_spec, keeps_resumeJob.
  - apply keeps_step_spec, keeps_cancelJob.
  - apply keeps_step_spec, keeps_triggerJob.
  - destruct (jobs w !! qJobId (data bullJob)) as [job|] eqn:Hjob.
    + destruct (processJob bullJob execId startTime endTime env w)
        as [w' r] eqn:Hrun.
      eapply processJob_jobs; [done|by apply Hwf|done].
    + by rewrite processJob_orphan.
Qed.

Lemma counterEffect_wf (op : Op) (w w' : World) :
  wfWorld w → counterEffect op w w' → wfWorld w'.
Proof.
  intros Hwf Heff.
  assert (Hkept : countersKept w w' → wfWorld w').
  { intros Hk k j' Hj'. specialize (Hk k). rewrite Hj' in Hk.
    destruct (jobs w !! k) as [j|] eqn:Hj.
    - destruct Hk as [_ ->]. by apply Hwf.
    - by destruct Hk as (_ & _ & _ & ->). }
  destruct op; cbn [counterEffect] in Heff; try by apply Hkept.
  destruct (jobs w !! qJobId (data bullJob)) as [job|] eqn:Hjob.
  - destruct Heff as (job' & Heq & _ & Hi). intros k j. rewrite Heq.
    destruct (decide (k = qJobId (data bullJob))) as [->|Hne].
    + rewrite lookup_insert_eq. intros [= <-]. rewrite Hi. by apply Hwf.
    + rewrite lookup_insert_ne by done. apply Hwf.
  - intros k j. rewrite Heff. apply Hwf.
Qed.

Lemma counterEffect_invariant (op : Op) (w w' : World) :
  countersInvariant w → counterEffect op w w' → countersInvariant w'.
Proof.
  intros Hinv Heff.
  assert (Hkept : countersKept w w' → countersInvariant w').
  { intros Hk k j' Hj'. specialize (Hk k). rewrite Hj' in Hk.
    destruct (jobs w !! k) as [j|] eqn:Hj.
    - destruct Hk as [(Ht & Hs & Hf) _]. specialize (Hinv k j Hj).
      unfold countersOk in *. lia.
    - destruct Hk as (Ht & Hs & Hf & _). unfold countersOk. lia. }
  destruct op; cbn [counterEffect] in Heff; try by apply Hkept.
  destruct (jobs w !! qJobId (data bullJob)) as [job|] eqn:Hjob.
  - destruct Heff as (job' & Heq & Hfin & _). intros k j. rewrite Heq.
    destruct (decide (k = qJobId (data bullJob))) as [->|Hne].
    + rewrite lookup_insert_eq. intros [= <-].
      specialize (Hinv _ _ Hjob). unfold countersOk, finalized in *. lia.
    + rewrite lookup_insert_ne by done. apply Hinv.
  - intros k j. rewrite Heff. apply Hinv.
Qed.

Lemma run_reachable (ops : list Op) (w : World) :
  wfWorld w → countersInvariant w →
  wfWorld (run ops w) ∧ countersInvariant (run ops w).
Proof.
  revert w. induction ops as [|op ops IH]; intros w Hwf Hinv; [done|].
  cbn [run fold_left]. apply IH.
  - eapply counterEffect_wf; [done|by apply step_counterEffect].
  - eapply counterEffect_invariant; [done|by apply step_counterEffect].
Qed.

(** X28. In every state reached by a history of planner operations and
    worker attempts that run one after the other (no attempt starts before
    the operation before it has ended), each job has
    successful + failed <= total; a planner operation leaves the counters of
    every job as they are (a new job starts at zero), and an attempt adds
    one to the total and to exactly one of the successful and failed
    counters of its job, leaving the other jobs alone. *)
Theorem X28_counters_in_turn (ops : list Op) (op : Op) (w : World) :
  wfWorld w → countersInvariant w →
  countersInvariant (run ops w) ∧
  counterEffect op (run ops w) (step op (run ops w)).
Proof.
  intros Hwf Hinv. destruct (run_reachable ops w Hwf Hinv) as [Hwf' Hinv'].
  split; [done|]. by apply step_counterEffect.
Qed.

(** ** Creation of an immediate job *)

Lemma scheduleJob_immediate (now : Z) (newId : string) (jobData : JobInput)
    (user : string) (w : World) :
  inScheduleType jobData = immediate →
  jobs w !! newId = None →
  List.find (hasJobId newId) (jobQueue w) = None →
  let job := immediateRow now newId jobData user in
  scheduleJob now newId jobData user w =
    ({| jobs := <[newId := job]> (jobs w);
        executions := executions w;
        logs := logs w ++ [{| logJobId := newId; logExecutionId := None;
                              level := info;
                              logMessage := MsgCreated (inName jobData) |}];
        jobQueue := jobQueue w ++ [queuedJob job (Some (priority job)) None];
        scheduledQueue := scheduledQueue w;
        notifications := notifications w |},
     Returned job).
Proof.
  intros Himm Hfresh Hqueue job.
  unfold scheduleJob. rewrite Himm. unfold_M.
  rewrite decide_False by done.
  unfold Job_create. cbn [id]. rewrite Hfresh.
  unfold enqueueJob, addJob, jobQueue_add. unfold_M.
  cbn [scheduleType optJobId qJobId queueDataOf id]. simpl_world.
  rewrite Hqueue. unfold JobLog_create. simpl_world. cbn [logJobId id].
  rewrite lookup_insert_eq. reflexivity.
Qed.

Lemma succeededJob_once (t : Z) (job : Job) :
  scheduleType job ≠ recurring →
  succeededJob t job = Returned (set_status completed (countSuccess t job)).
Proof. intros Hnot. unfold succeededJob. by rewrite decide_False. Qed.

(** C4. An immediate job is created and its first attempt succeeds: the
    chain ends after that attempt with exactly one new Execution, which is
    completed, has attempt 1 and carries completed_at, duration and result;
    the Job is completed with successful_executions = 1 and
    total_executions = 1 and its last_executed_at is set.  More generally a
    successful attempt completes every job that is not recurring. *)
Theorem C4_immediate_success (now : Z) (newId : string) (jobData : JobInput)
    (user : string) (w : World) (execId : string) (startTime endTime : Z)
    (env : Environment) (res : JobResult) (more : list AttemptInput) :
  inScheduleType jobData = immediate →
  jobs w !! newId = None →
  List.find (hasJobId newId) (jobQueue w) = None →
  Forall (fun e => exId e ≠ execId) (executions w) →
  dispatch (inType jobData) env = Returned res →
  (∃ w1 job bullJob w2 e job',
      scheduleJob now newId jobData user w = (w1, Returned job) ∧
      jobQueue w1 = jobQueue w ++ [bullJob] ∧
      runAttempts bullJob
        ({| aiExecId := execId; aiStart := startTime; aiEnd := endTime;
            aiEnv := env |} :: more) w1
      = (w2, [], ChainCompleted res) ∧
      executions w2 = executions w ++ [e] ∧
      exJobId e = newId ∧ exStatus e = ex_completed ∧ attempt e = 1 ∧
      isRetry e = false ∧ completedAt e = Some endTime ∧
      duration e = Some (endTime - startTime) ∧ result e = Some res ∧
      jobs w2 !! newId = Some job' ∧ status job' = completed ∧
      successfulExecutions job' = 1 ∧ totalExecutions job' = 1 ∧
      failedExecutions job' = 0 ∧ lastExecutedAt job' = Some endTime) ∧
  (∀ (w0 : World) (bullJob : BullJob) (job : Job),
      jobs w0 !! qJobId (data bullJob) = Some job →
      id job = qJobId (data bullJob) →
      scheduleType job ≠ recurring →
      Forall (fun e => exId e ≠ execId) (executions w0) →
      executeOutcome (data bullJob) env = Returned res →
      ∃ w' job',
        processJob bullJob execId startTime endTime env w0
        = (w', Returned res) ∧
        jobs w' !! qJobId (data bullJob) = Some job' ∧
        status job' = completed ∧
        totalExecutions job' = totalExecutions job + 1 ∧
        successfulExecutions job' = successfulExecutions job + 1 ∧
        failedExecutions job' = failedExecutions job ∧
        lastExecutedAt job' = Some endTime).
Proof.
  intros Himm Hfresh Hqueue Hexec Hres. split.
  - set (job := immediateRow now newId jobData user).
    set (bullJob := queuedJob job (Some (priority job)) None).
    eexists _, job, bullJob, _, _, _.
    split; [by apply scheduleJob_immediate|].
    split; [done|].
    cbn [runAttempts aiExecId aiStart aiEnd aiEnv].
    rewrite (processJob_resolved _ _ _ _ _ _ job res);
      [| by (simpl_world; apply lookup_insert_eq) | done | done | done].
    rewrite succeededJob_once by done.
    split; [reflexivity|]. simpl_world.
    split; [reflexivity|].
    rewrite lookup_insert_eq. by repeat split.
  - intros w0 bullJob job Hjob Hid Hnot Hfresh0 Hexec0.
    eexists _, _. rewrite (processJob_resolved _ _ _ _ _ _ job res) by done.
    rewrite succeededJob_once by done.
    split; [reflexivity|]. simpl_world. rewrite lookup_insert_eq.
    by repeat split.
Qed.

(** ** The retry decision *)



(** ** Terminal statuses and [next_execution_at] *)

Lemma removeFromQueue_jobs (job : Job) (w : World) :
  ∃ w1 b, removeFromQueue job w = (w1, Returned b) ∧ jobs w1 = jobs w.
Proof.
  unfold removeFromQueue, removeRecurringJob, queue_cancelJob.
  repeat case_match; eexists _, _; split; reflexivity.
Qed.

Lemma cancelJob_found (w : World) (job : Job) :
  jobs w !! id job = Some job →
  ∃ w', cancelJob (id job) w = (w', Returned (set_status cancelled job)) ∧
        jobs w' = <[id job := set_status cancelled job]> (jobs w).
Proof.
  intros Hjob. unfold cancelJob, Job_findByPk. unfold_M. rewrite Hjob.
  destruct (removeFromQueue_jobs job w) as (w1 & b & -> & Hw1).
  rewrite (Job_save_found _ _ job) by (by rewrite Hw1).
  rewrite mergeChanged_same. unfold JobLog_create. simpl_world.
  cbn [logJobId id set_status]. rewrite lookup_insert_eq, Hw1.
  eexists. split; reflexivity.
Qed.


(** ** The execution row of an attempt *)

Lemma processJob_executions (bullJob : BullJob) (execId : string)
    (startTime endTime : Z) (env : Environment) (w w' : World)
    (r : Outcome JobResult) :
  wfWorld w →
  processJob bullJob execId startTime endTime env w = (w', r) →
  executions w' = executions w ∨
  ∃ e, executions w' = executions w ++ [e] ∧
       (exStatus e = ex_completed ∨ exStatus e = ex_failed) ∧
       exId e = execId ∧ exJobId e = qJobId (data bullJob) ∧
       attempt e = attemptsMade bullJob + 1 ∧
       isRetry e = bool_decide (0 < attemptsMade bullJob) ∧
       previousExecutionId e = None ∧
       duration e = Some (endTime - startTime).
Proof.
  intros Hwf Hrun.
  destruct (jobs w !! qJobId (data bullJob)) as [job|] eqn:Hjob.
  2: { rewrite processJob_orphan in Hrun by done.
       injection Hrun as <- <-. by left. }
  pose proof (Hwf _ _ Hjob) as Hid.
  destruct (decide (Forall (fun e => exId e ≠ execId) (executions w)))
    as [Hfresh|Hstale].
  - right. destruct (executeOutcome (data bullJob) env) as [res|err] eqn:Hexec.
    + rewrite (processJob_resolved _ _ _ _ _ _ job res) in Hrun by done.
      destruct (succeededJob endTime job) as [job'|e];
        injection Hrun as <- <-; eexists; (split; [reflexivity|]);
        cbn; auto 10.
    + rewrite (processJob_rejected _ _ _ _ _ _ job err) in Hrun by done.
      injection Hrun as <- <-. eexists. split; [reflexivity|]. cbn. auto 10.
  - left. unfold processJob, JobExecution_create in Hrun.
    cbn [exJobId newExecution exId] in Hrun.
    rewrite Hjob, stale_existsb in Hrun by done.
    rewrite (catchBlock_found _ _ _ _ _ _ job) in Hrun by done.
    by injection Hrun as <- <-.
Qed.

(** X29. Every attempt on a job that has its row adds exactly one Execution
    row, under the generated id and the id of the job, with
    attempt = attempts_made + 1 and is_retry = true exactly when it is a
    retried attempt (attempt > 1), so the Execution of a first attempt has
    is_retry = false. *)
Theorem X29_attempt_numbering (bullJob : BullJob) (execId : string)
    (startTime endTime : Z) (env : Environment) (w : World) (job : Job) :
  wfWorld w →
  jobs w !! qJobId (data bullJob) = Some job →
  Forall (fun e => exId e ≠ execId) (executions w) →
  ∃ w' r e,
    processJob bullJob execId startTime endTime env w = (w', r) ∧
    executions w' = executions w ++ [e] ∧
    exId e = execId ∧ exJobId e = qJobId (data bullJob) ∧
    attempt e = attemptsMade bullJob + 1 ∧
    (isRetry e = true ↔ 1 < attempt e).
Proof.
  intros Hwf Hjob Hfresh.
  destruct (processJob bullJob execId startTime endTime env w)
    as [w' r] eqn:Hrun.
  pose proof (Hwf _ _ Hjob) as Hid.
  assert (∃ e, executions w' = executions w ++ [e] ∧
       exId e = execId ∧ exJobId e = qJobId (data bullJob) ∧
       attempt e = attemptsMade bullJob + 1 ∧
       isRetry e = bool_decide (0 < attemptsMade bullJob) ∧
       previousExecutionId e = None) as (e & He & ? & ? & Hatt & Hretry & ?).
  { destruct (executeOutcome (data bullJob) env) as [res|err] eqn:Hexec.
    - rewrite (processJob_resolved _ _ _ _ _ _ job res) in Hrun by done.
      destruct (succeededJob endTime job) as [job'|e0];
        injection Hrun as <- <-; eexists; (split; [reflexivity|]); done.
    - rewrite (processJob_rejected _ _ _ _ _ _ job err) in Hrun by done.
      injection Hrun as <- <-. eexists. split; [reflexivity|]. done. }
  exists w', r, e. repeat (split; [done|]).
  rewrite Hretry, Hatt, bool_decide_eq_true. lia.
Qed.

(** ** The queue job of a job that is not recurring *)

Lemma enqueueJob_once (now : Z) (job : Job) (w w1 : World) :
  scheduleType job ≠ recurring →
  List.find (hasJobId (id job)) (jobQueue w) = None →
  enqueueJob now job w = (w1, Returned tt) →
  ∃ prio delay,
    jobQueue w1 = jobQueue w ++ [queuedJob job prio delay] ∧ jobs w1 = jobs w.
Proof.
  intros Hnot Hqueue. unfold enqueueJob, addDelayedJob, addJob, jobQueue_add.
  unfold_M. destruct (scheduleType job); [| |done].
  - cbn [optJobId qJobId queueDataOf]. rewrite Hqueue.
    intros [= <-]. by eexists _, _.
  - destruct (getTime (scheduledAt job) - now <? 0); [done|].
    cbn [optJobId qJobId queueDataOf]. rewrite Hqueue.
    intros [= <-]. by eexists _, _.
Qed.

(** ** Timeouts *)

Lemma processJob_withTimeout (t : Z) (bullJob : BullJob) (execId : string)
    (startTime endTime : Z) (env : Environment) (w : World) :
  processJob (withTimeout t bullJob) execId startTime endTime env w
  = processJob bullJob execId startTime endTime env w.
Proof. reflexivity. Qed.

(** ** A [max_retries] of zero *)

Lemma bind_Returned {A B} (c : M A) (k : A → M B) (w w' : World) (b : B) :
  (c ≫= k) w = (w', Returned b) →
  ∃ w1 a, c w = (w1, Returned a) ∧ k a w1 = (w', Returned b).
Proof.
  unfold_M. destruct (c w) as [w1 [a|msg]]; [|done]. by exists w1, a.
Qed.

Lemma scheduleJob_maxRetries (now : Z) (newId : string) (jobData : JobInput)
    (user : string) (w w' : World) (job : Job) :
  scheduleJob now newId jobData user w = (w', Returned job) →
  maxRetries job = default 3 (inMaxRetries jobData).
Proof.
  unfold scheduleJob. intros Hrun.
  apply bind_Returned in Hrun as (w1 & _ & _ & Hrun).
  apply bind_Returned in Hrun as (w2 & nextExecution & _ & Hrun).
  apply bind_Returned in Hrun as (w3 & row & Hcreate & Hrun).
  apply bind_Returned in Hrun as (w4 & _ & _ & Hrun).
  apply bind_Returned in Hrun as (w5 & _ & _ & Hrun).
  injection Hrun as _ <-.
  unfold Job_create in Hcreate. case_match; [done|].
  by injection Hcreate as _ <-.
Qed.

(** What a successful [scheduleJob] has filed in the queues. *)
Lemma scheduleJob_filed (now : Z) (newId : string) (jobData : JobInput)
    (user : string) (w w' : World) (job : Job) :
  scheduleJob now newId jobData user w = (w', Returned job) →
  (inScheduleType jobData ≠ recurring →
   List.find (hasJobId newId) (jobQueue w) = None →
   ∃ prio delay, jobQueue w' = jobQueue w ++ [queuedJob job prio delay]) ∧
  (inScheduleType jobData = recurring →
   ∃ cron,
     scheduledQueue w'
     = scheduledQueue w
         ++ [{| repeatKey :=
                  repeatableKey (nameOr (name job) "recurring-job") (id job)
                    (timezone job) cron;
                repeatJob :=
                  {| bullName := nameOr (name job) "recurring-job";
                     data := queueDataOf job;
                     opts := {| attempts := None; backoff := None;
                                optPriority := None; optDelay := None;
                                optJobId := Some (id job);
                                repeat := Some (cron, timezone job) |};
                     attemptsMade := 0 |} |}]).
Proof.
  unfold scheduleJob. intros Hrun.
  apply bind_Returned in Hrun as (w1 & [] & Hvalid & Hrun).
  apply bind_Returned in Hrun as (w2 & nextExecution & Hnext & Hrun).
  apply bind_Returned in Hrun as (w3 & row & Hcreate & Hrun).
  apply bind_Returned in Hrun as (w4 & [] & Henqueue & Hrun).
  apply bind_Returned in Hrun as (w5 & [] & Hlog & Hrun).
  injection Hrun as <- <-.
  assert (Hw1 : w1 = w).
  { unfold validateCronExpression in Hvalid. unfold_M.
    repeat case_match; by simplify_eq. }
  subst w1.
  assert (Hw2 : w2 = w).
  { unfold getNextCronExecution in Hnext. unfold_M.
    repeat case_match; by simplify_eq. }
  subst w2.
  assert (Hrow : id row = newId ∧ scheduleType row = inScheduleType jobData ∧
                 jobQueue w3 = jobQueue w ∧
                 scheduledQueue w3 = scheduledQueue w).
  { unfold Job_create in Hcreate. cbn [id] in Hcreate.
    case_match; [done|]. by injection Hcreate as <- <-. }
  destruct Hrow as (Hid & Htype & Hq3 & Hs3).
  assert (Hq5 : jobQueue w5 = jobQueue w4 ∧
                scheduledQueue w5 = scheduledQueue w4).
  { unfold JobLog_create in Hlog. case_match; [|done].
    by injection Hlog as <-. }
  destruct Hq5 as [-> ->]. split.
  - intros Hnot Hfind.
    destruct (enqueueJob_once now row w3 w4) as (prio & delay & Hq & _);
      [by rewrite Htype | by rewrite Hid, Hq3 | done |].
    exists prio, delay. by rewrite Hq, Hq3.
  - intros Hrec. unfold enqueueJob, addRecurringJob in Henqueue.
    rewrite Htype, Hrec in Henqueue. unfold_M.
    destruct (cronExpression row) as [cron|]; [|done].
    injection Henqueue as <-. exists cron. simpl_world. by rewrite Hs3.
Qed.

(** C10 (amended). In the last-attempt decision an envelope [maxRetries] of
    0 is falsy and is replaced by the configured default: with the default
    of 3 the decision for a job created with max_retries = 0 is the decision
    for max_retries = 3, so its first failed attempt is not treated as the
    last one (the job keeps its status and a retry is announced with a
    maximum of 3).  Creation keeps the 0 as it is.  A job that is not
    recurring and was created with max_retries = 0 is filed with the
    configured default as the attempts of its queue job, so the queue
    delivers it again exactly while the decision of the worker says that
    the attempt was not the last one, and after its first failed attempt the
    chain goes on with the second delivery. *)
Theorem C10_zero_max_retries (bullJob : BullJob) :
  maxRetryAttempts config = 3 →
  qMaxRetries (data bullJob) = 0 →
  maxRetriesOf bullJob = 3 ∧
  isLastAttempt bullJob = isLastAttempt (withMaxRetries 3 bullJob) ∧
  (isLastAttempt bullJob = true ↔ 3 ≤ attemptsMade bullJob + 1) ∧
  (attemptsMade bullJob = 0 → isLastAttempt bullJob = false) ∧
  (∀ w job execId startTime endTime env err,
      attemptsMade bullJob = 0 →
      jobs w !! qJobId (data bullJob) = Some job →
      id job = qJobId (data bullJob) →
      Forall (fun e => exId e ≠ execId) (executions w) →
      executeOutcome (data bullJob) env = Thrown err →
      ∃ w' job',
        processJob bullJob execId startTime endTime env w
        = (w', Thrown err) ∧
        jobs w' !! qJobId (data bullJob) = Some job' ∧
        status job' = status job ∧
        notifications w' = notifications w ++
          [job_retry (userId job) (id job) (name job) 1 3 err]) ∧
  (∀ now newId jobData user w w' job,
      inMaxRetries jobData = Some 0 →
      scheduleJob now newId jobData user w = (w', Returned job) →
      maxRetries job = 0 ∧
      (inScheduleType jobData ≠ recurring →
       List.find (hasJobId newId) (jobQueue w) = None →
       ∃ b, jobQueue w' = jobQueue w ++ [b] ∧
            qMaxRetries (data b) = 0 ∧
            attempts (opts b) = Some (maxRetryAttempts config) ∧
            attemptsMade b = 0 ∧
            (∀ k, willRetry (redelivered k b)
                  = negb (isLastAttempt (redelivered k b))) ∧
            (∀ i rest w0 err,
                (processJob b (aiExecId i) (aiStart i) (aiEnd i) (aiEnv i)
                   w0).2 = Thrown err →
                runAttempts b (i :: rest) w0
                = (let '(w2, delays, e) :=
                     runAttempts (nextDelivery b) rest
                       (processJob b (aiExecId i) (aiStart i) (aiEnd i)
                          (aiEnv i) w0).1 in
                   (w2, retryDelayOf (opts b) 1 :: delays, e))))).
Proof.
  intros Hcfg Hzero.
  assert (Hmax : maxRetriesOf bullJob = 3).
  { unfold maxRetriesOf, js_or. by rewrite Hzero, Hcfg. }
  assert (Hlast : isLastAttempt bullJob = (3 <=? attemptsMade bullJob + 1)).
  { unfold isLastAttempt. by rewrite Hmax. }
  split; [done|]. split; [by rewrite Hlast|].
  split; [rewrite Hlast; apply Z.leb_le|].
  split; [intros Hfirst; by rewrite Hlast, Hfirst|].
  split.
  - intros w job execId startTime endTime env err Hfirst Hjob Hid Hfresh Hexec.
    rewrite (processJob_rejected _ _ _ _ _ _ job err) by done.
    eexists _, _. split; [reflexivity|]. simpl_world.
    split; [apply lookup_insert_eq|].
    unfold failedJob, failureNotification.
    rewrite Hlast, Hmax, Hfirst. done.
  - intros now newId jobData user w w' job Hin Hrun.
    pose proof (scheduleJob_maxRetries _ _ _ _ _ _ _ Hrun) as Hkept.
    rewrite Hin in Hkept. cbn in Hkept.
    destruct (scheduleJob_filed _ _ _ _ _ _ _ Hrun) as [Hone Hrec].
    split; [done|].
    intros Hnot Hfind. destruct (Hone Hnot Hfind) as (prio & delay & Hq).
    eexists. split; [exact Hq|].
    split; [done|]. split; [done|]. split; [done|]. split.
    + intros k. unfold willRetry, isLastAttempt, maxRetriesOf, js_or.
      cbn [redelivered queuedJob data opts attempts attemptsMade queueDataOf
             qMaxRetries].
      rewrite Hkept, Hcfg. cbn. apply Z.ltb_antisym.
    + intros i rest w0 err Hthrown. cbn [runAttempts].
      destruct (processJob _ _ _ _ _ w0) as [w1 r]. cbn in Hthrown.
      subst r. unfold willRetry.
      cbn [queuedJob opts attempts attemptsMade fst]. by rewrite Hcfg.
Qed.

(** * Further properties of the planner *)

Lemma find_none_filter (jobId : string) (q : list BullJob) :
  List.find (hasJobId jobId) q = None →
  filter (fun b => hasJobId jobId b = false) q = q.
Proof.
  induction q as [|b q IH]; [done|]. intros Hq. cbn in Hq.
  destruct (hasJobId jobId b) eqn:Hb; [done|].
  rewrite filter_cons_True by done. f_equal. by apply IH.
Qed.

Lemma find_filter_none (jobId : string) (q : list BullJob) :
  List.find (hasJobId jobId) (filter (fun b => hasJobId jobId b = false) q)
  = None.
Proof.
  induction q as [|b q IH]; [done|].
  destruct (hasJobId jobId b) eqn:Hb.
  - rewrite filter_cons_False by (by rewrite Hb). done.
  - rewrite filter_cons_True by done. cbn. by rewrite Hb.
Qed.

(** [cancelJob] of the queue module: the jobs filed under the id leave the
    queue; nothing else changes. *)
Lemma queue_cancelJob_spec (jobId : string) (w : World) :
  ∃ w1 b,
    queue_cancelJob jobId w = (w1, Returned b) ∧
    jobQueue w1 = filter (fun x => hasJobId jobId x = false) (jobQueue w) ∧
    jobs w1 = jobs w ∧ logs w1 = logs w ∧ executions w1 = executions w ∧
    scheduledQueue w1 = scheduledQueue w ∧
    notifications w1 = notifications w.
Proof.
  unfold queue_cancelJob.
  destruct (List.find (hasJobId jobId) (jobQueue w)) eqn:Hfind.
  - eexists _, _. split; [reflexivity|]. done.
  - eexists _, _. split; [reflexivity|]. by rewrite find_none_filter.
Qed.

Lemma removeRecurringJob_spec (jobId cron : string) (w : World) :
  ∃ w1 b,
    removeRecurringJob jobId cron w = (w1, Returned b) ∧
    jobQueue w1 = jobQueue w ∧
    jobs w1 = jobs w ∧ logs w1 = logs w ∧ executions w1 = executions w ∧
    notifications w1 = notifications w.
Proof.
  unfold removeRecurringJob. case_match; eexists _, _; (split; [reflexivity|]);
    done.
Qed.

Lemma set_status_active_paused (job : Job) :
  status job = active → set_status active (set_status paused job) = job.
Proof. destruct job. cbn. by intros ->. Qed.

Lemma pauseJob_found (w : World) (job : Job) :
  jobs w !! id job = Some job →
  ∃ w', pauseJob (id job) w = (w', Returned (set_status paused job)) ∧
        jobs w' = <[id job := set_status paused job]> (jobs w).
Proof.
  intros Hjob. unfold pauseJob, Job_findByPk. unfold_M. rewrite Hjob.
  destruct (removeFromQueue_jobs job w) as (w1 & b & -> & Hw1).
  rewrite (Job_save_found _ _ job) by (by rewrite Hw1).
  rewrite mergeChanged_same. unfold JobLog_create. simpl_world.
  cbn [logJobId id set_status]. rewrite lookup_insert_eq, Hw1.
  eexists. split; reflexivity.
Qed.

(** X1. On a job id that has no row, every planner operation throws
    "Job not found" and changes nothing, and the recurring advance returns
    null and changes nothing. *)
Theorem X1_missing_job (now : Z) (jobId : string) (sd : ScheduleData)
    (w : World) :
  jobs w !! jobId = None →
  rescheduleJob now jobId sd w = (w, Thrown "Job not found") ∧
  pauseJob jobId w = (w, Thrown "Job not found") ∧
  resumeJob now jobId w = (w, Thrown "Job not found") ∧
  cancelJob jobId w = (w, Thrown "Job not found") ∧
  triggerJob now jobId w = (w, Thrown "Job not found") ∧
  updateNextExecution now jobId w = (w, Returned None).
Proof.
  intros Hnone.
  unfold rescheduleJob, pauseJob, resumeJob, cancelJob, triggerJob,
    updateNextExecution, Job_findByPk.
  unfold_M. by rewrite Hnone.
Qed.

(** X2. [resumeJob] refuses a job that is not paused and [triggerJob] a job
    that is not active, both without changing anything; [pauseJob] and
    [cancelJob] have no such guard and give any job, whatever its status
    (completed and failed included), the status paused or cancelled. *)
Theorem X2_status_guards (now : Z) (w : World) (job : Job) :
  jobs w !! id job = Some job →
  (status job ≠ paused →
   resumeJob now (id job) w = (w, Thrown "Job is not paused")) ∧
  (status job ≠ active →
   triggerJob now (id job) w = (w, Thrown "Can only trigger active jobs")) ∧
  (∃ w', pauseJob (id job) w = (w', Returned (set_status paused job)) ∧
         jobs w' !! id job = Some (set_status paused job)) ∧
  (∃ w', cancelJob (id job) w = (w', Returned (set_status cancelled job)) ∧
         jobs w' !! id job = Some (set_status cancelled job)).
Proof.
  intros Hjob. repeat split.
  - intros Hnot. unfold resumeJob, Job_findByPk. unfold_M. rewrite Hjob.
    by rewrite decide_False.
  - intros Hnot. unfold triggerJob, Job_findByPk. unfold_M. rewrite Hjob.
    by rewrite decide_False.
  - destruct (pauseJob_found w job Hjob) as (w' & Hrun & Hjobs).
    exists w'. split; [done|]. by rewrite Hjobs, lookup_insert_eq.
  - destruct (cancelJob_found w job Hjob) as (w' & Hrun & Hjobs).
    exists w'. split; [done|]. by rewrite Hjobs, lookup_insert_eq.
Qed.

(** ** Pause, resume and reschedule *)

Lemma pauseJob_once (w : World) (job : Job) :
  jobs w !! id job = Some job →
  scheduleType job ≠ recurring →
  ∃ w', pauseJob (id job) w = (w', Returned (set_status paused job)) ∧
        jobs w' = <[id job := set_status paused job]> (jobs w) ∧
        jobQueue w'
        = filter (fun b => hasJobId (id job) b = false) (jobQueue w) ∧
        scheduledQueue w' = scheduledQueue w ∧
        executions w' = executions w ∧
        notifications w' = notifications w.
Proof.
  intros Hjob Hnot. unfold pauseJob, Job_findByPk. unfold_M. rewrite Hjob.
  assert (Hrm : removeFromQueue job = queue_cancelJob (id job)).
  { unfold removeFromQueue. by destruct (scheduleType job). }
  rewrite Hrm.
  destruct (queue_cancelJob_spec (id job) w)
    as (w1 & b & -> & Hq & Hj & Hl & He & Hs & Hn).
  rewrite (Job_save_found _ _ job) by (by rewrite Hj).
  rewrite mergeChanged_same. unfold JobLog_create. simpl_world.
  cbn [logJobId id set_status]. rewrite lookup_insert_eq.
  eexists. split; [reflexivity|]. simpl_world. by rewrite Hj.
Qed.

Lemma enqueueJob_immediate (now : Z) (job : Job) (w : World) :
  scheduleType job = immediate →
  List.find (hasJobId (id job)) (jobQueue w) = None →
  enqueueJob now job w
  = (setJobQueue
       (fun q => q ++ [queuedJob job (Some (priority job)) None]) w,
     Returned tt).
Proof.
  intros Himm Hfind. unfold enqueueJob, addJob, jobQueue_add. unfold_M.
  rewrite Himm. cbn [optJobId qJobId queueDataOf]. by rewrite Hfind.
Qed.

Lemma enqueueJob_scheduled (now : Z) (job : Job) (w : World) :
  scheduleType job = scheduled →
  List.find (hasJobId (id job)) (jobQueue w) = None →
  enqueueJob now job w
  = if getTime (scheduledAt job) - now <? 0
    then (w, Thrown "Execute time must be in the future")
    else (setJobQueue
            (fun q => q ++ [queuedJob job None
                              (Some (getTime (scheduledAt job) - now))]) w,
          Returned tt).
Proof.
  intros Hsch Hfind.
  unfold enqueueJob, addDelayedJob, addJob, jobQueue_add. unfold_M.
  rewrite Hsch. destruct (getTime (scheduledAt job) - now <? 0); [done|].
  cbn [optJobId qJobId queueDataOf]. by rewrite Hfind.
Qed.

(** The registration [addRecurringJob] files for a job row. *)
Definition registration (job : Job) (cron : string) : Repeatable :=
  {| repeatKey := repeatableKey (nameOr (name job) "recurring-job") (id job)
                    (timezone job) cron;
     repeatJob := {| bullName := nameOr (name job) "recurring-job";
                     data := queueDataOf job;
                     opts := {| attempts := None; backoff := None;
                                optPriority := None; optDelay := None;
                                optJobId := Some (id job);
                                repeat := Some (cron, timezone job) |};
                     attemptsMade := 0 |} |}.

Lemma enqueueJob_recurring (now : Z) (job : Job) (cron : string) (w : World) :
  scheduleType job = recurring →
  cronExpression job = Some cron →
  enqueueJob now job w
  = (setScheduledQueue (fun q => q ++ [registration job cron]) w,
     Returned tt).
Proof.
  intros Hrec Hcron. unfold enqueueJob, addRecurringJob. unfold_M.
  by rewrite Hrec, Hcron.
Qed.

(** X3. Pausing an active immediate job and resuming it gives the row back
    as it was; the queue entries filed under the job's id are removed by the
    pause, and the resume enqueues the job anew, with its priority. *)
Theorem X3_pause_resume_immediate (now : Z) (w : World) (job : Job) :
  jobs w !! id job = Some job →
  scheduleType job = immediate →
  status job = active →
  ∃ w1 w2,
    pauseJob (id job) w = (w1, Returned (set_status paused job)) ∧
    jobs w1 !! id job = Some (set_status paused job) ∧
    jobQueue w1 = filter (fun b => hasJobId (id job) b = false) (jobQueue w) ∧
    resumeJob now (id job) w1 = (w2, Returned job) ∧
    jobs w2 = jobs w ∧
    jobQueue w2
    = filter (fun b => hasJobId (id job) b = false) (jobQueue w)
        ++ [queuedJob job (Some (priority job)) None].
Proof.
  intros Hjob Himm Hact.
  destruct (pauseJob_once w job Hjob) as (w1 & Hp & Hj1 & Hq1 & _);
    [by rewrite Himm|].
  assert (Hrow : jobs w1 !! id job = Some (set_status paused job))
    by (by rewrite Hj1, lookup_insert_eq).
  exists w1. eexists. split; [done|]. split; [done|]. split; [done|].
  unfold resumeJob, Job_findByPk. unfold_M. rewrite Hrow.
  rewrite decide_True by done.
  rewrite decide_False by (cbn; by rewrite Himm).
  cbn [mret M_ret ret]. rewrite set_status_active_paused by done.
  rewrite (Job_save_found _ _ (set_status paused job)) by done.
  rewrite mergeChanged_same.
  rewrite enqueueJob_immediate;
    [| done | simpl_world; rewrite Hq1; apply find_filter_none].
  unfold JobLog_create. simpl_world. cbn [logJobId].
  rewrite lookup_insert_eq. split; [reflexivity|]. simpl_world.
  rewrite Hj1, Hq1, insert_insert_eq. split; [|done].
  by apply insert_id.
Qed.

(** X4. Resuming a paused recurring job with a valid cron expression
    computes next_execution_at from the instant of the resume, makes the
    job active, writes one log line and leaves the job queue, the
    executions and the notifications as they were. *)
Theorem X4_resume_recurring (now : Z) (w : World) (job : Job) (cron : string) :
  jobs w !! id job = Some job →
  scheduleType job = recurring →
  cronExpression job = Some cron →
  cronValid cron = true →
  status job = paused →
  let job' := set_status active
                (set_nextExecutionAt
                   (Some (cronNext cron (timezone job) now)) job) in
  ∃ w',
    resumeJob now (id job) w = (w', Returned job') ∧
    jobs w' = <[id job := job']> (jobs w) ∧
    logs w' = logs w ++ [{| logJobId := id job; logExecutionId := None;
                            level := info; logMessage := MsgResumed |}] ∧
    jobQueue w' = jobQueue w ∧
    executions w' = executions w ∧
    notifications w' = notifications w.
Proof.
  intros Hjob Hrec Hcron Hvalid Hpaused job'.
  unfold resumeJob, Job_findByPk, getNextCronExecution. unfold_M.
  rewrite Hjob. rewrite decide_True by done. rewrite decide_True by done.
  rewrite Hcron, Hvalid. fold job'.
  rewrite (Job_save_found _ _ job) by done. rewrite mergeChanged_same.
  rewrite (enqueueJob_recurring _ _ cron) by done.
  unfold JobLog_create. simpl_world. cbn [logJobId].
  change (id job') with (id job). rewrite lookup_insert_eq.
  eexists. split; [reflexivity|]. done.
Qed.


(** What [rescheduleJob] does once the old registrations are removed. *)
Definition rescheduleRest (now : Z) (sd : ScheduleData) (job : Job) : M Job :=
  job' ←
    match sdScheduledAt sd, truthy (sdCronExpression sd) with
    | Some t, _ =>
        mret (set_nextExecutionAt (Some t)
                (set_cronExpression None
                  (set_scheduledAt (Some t)
                    (set_scheduleType scheduled job))))
    | None, Some cron =>
        _ ← validateCronExpression (Some cron);
        let j1 := set_scheduledAt None
                    (set_timezone
                       (default (timezone job) (truthy (sdTimezone sd)))
                       (set_cronExpression (Some cron)
                          (set_scheduleType recurring job))) in
        t ← getNextCronExecution now (Some cron) (timezone j1);
        mret (set_nextExecutionAt (Some t) j1)
    | None, None => mret job
    end;
  _ ← Job_save job job';
  _ ← enqueueJob now job';
  _ ← JobLog_create {| logJobId := id job'; logExecutionId := None;
                       level := info; logMessage := MsgRescheduled |};
  mret job'.

(** [rescheduleJob] first removes the queue entries filed under the id of
    the job (and asks for the removal of its repeatable registration). *)
Lemma rescheduleJob_found (now : Z) (sd : ScheduleData) (w : World)
    (job : Job) :
  jobs w !! id job = Some job →
  ∃ w1,
    rescheduleJob now (id job) sd w = rescheduleRest now sd job w1 ∧
    jobQueue w1 = filter (fun x => hasJobId (id job) x = false) (jobQueue w) ∧
    jobs w1 = jobs w ∧ executions w1 = executions w ∧
    notifications w1 = notifications w.
Proof.
  intros Hjob. unfold rescheduleJob, rescheduleRest, Job_findByPk.
  unfold_M. rewrite Hjob.
  destruct (scheduleType job), (truthy (cronExpression job)) as [cron|].
  all: try (destruct (removeRecurringJob_spec (id job) cron w)
              as (w0 & b0 & Hrun & Hq0 & Hj0 & Hl0 & He0 & Hn0);
            rewrite Hrun;
            destruct (queue_cancelJob_spec (id job) w0)
              as (w1 & b & Hrun1 & Hq & Hj & Hl & He & Hs & Hn);
            rewrite Hrun1; exists w1; split; [reflexivity|];
            by rewrite Hq, Hj, He, Hn, Hq0, Hj0, He0, Hn0).
  all: destruct (queue_cancelJob_spec (id job) w)
         as (w1 & b & Hrun1 & Hq & Hj & Hl & He & Hs & Hn);
       rewrite Hrun1; exists w1; split; [reflexivity|]; done.
Qed.

(** The row after a reschedule to the instant [t]. *)
Definition rescheduledAt (t : Z) (job : Job) : Job :=
  set_nextExecutionAt (Some t)
    (set_cronExpression None
      (set_scheduledAt (Some t) (set_scheduleType scheduled job))).

(** X6. Rescheduling an existing job to an instant [t]: the row becomes a
    scheduled job with scheduled_at = next_execution_at = t and no cron
    expression, its status is left as it is (no status is refused), the
    queue entries filed under its id are removed, and when t is not in the
    past one entry delayed by t - now is added. *)
Theorem X6_reschedule_to_instant (now t : Z) (tz cron : option string)
    (w : World) (job : Job) :
  jobs w !! id job = Some job →
  now ≤ t →
  ∃ w',
    rescheduleJob now (id job)
      {| sdScheduledAt := Some t; sdCronExpression := cron;
         sdTimezone := tz |} w
    = (w', Returned (rescheduledAt t job)) ∧
    jobs w' = <[id job := rescheduledAt t job]> (jobs w) ∧
    status (rescheduledAt t job) = status job ∧
    jobQueue w'
    = filter (fun b => hasJobId (id job) b = false) (jobQueue w)
        ++ [queuedJob (rescheduledAt t job) None (Some (t - now))].
Proof.
  intros Hjob Hfuture.
  destruct (rescheduleJob_found now
              {| sdScheduledAt := Some t; sdCronExpression := cron;
                 sdTimezone := tz |} w job Hjob)
    as (w1 & -> & Hq & Hj & He & Hn).
  unfold rescheduleRest. unfold_M. cbn [sdScheduledAt].
  fold (rescheduledAt t job).
  rewrite (Job_save_found _ _ job) by (by rewrite Hj).
  rewrite mergeChanged_same.
  rewrite enqueueJob_scheduled;
    [| done | simpl_world; rewrite Hq; apply find_filter_none].
  change (getTime (scheduledAt (rescheduledAt t job))) with t.
  assert (Hpos : (t - now <? 0) = false) by (apply Z.ltb_ge; lia).
  rewrite Hpos. unfold JobLog_create. simpl_world. cbn [logJobId id].
  rewrite lookup_insert_eq.
  eexists. split; [reflexivity|]. simpl_world. by rewrite Hj, Hq.
Qed.

(** X7. A reschedule that fails leaves the job without its queue entry: with
    an instant in the past the row has already been rewritten as a scheduled
    job when "Execute time must be in the future" is thrown; with a cron
    expression that does not parse the row is untouched; in both cases the
    entries filed under the job's id have been removed and none is added. *)
Theorem X7_failed_reschedule (now : Z) (tz : option string) (w : World)
    (job : Job) :
  jobs w !! id job = Some job →
  (∀ t cron, t < now →
     ∃ w',
       rescheduleJob now (id job)
         {| sdScheduledAt := Some t; sdCronExpression := cron;
            sdTimezone := tz |} w
       = (w', Thrown "Execute time must be in the future") ∧
       jobs w' = <[id job := rescheduledAt t job]> (jobs w) ∧
       jobQueue w'
       = filter (fun b => hasJobId (id job) b = false) (jobQueue w)) ∧
  (∀ cron, cron ≠ "" → cronValid cron = false →
     ∃ w',
       rescheduleJob now (id job)
         {| sdScheduledAt := None; sdCronExpression := Some cron;
            sdTimezone := tz |} w
       = (w', Thrown "Invalid cron expression") ∧
       jobs w' = jobs w ∧
       jobQueue w'
       = filter (fun b => hasJobId (id job) b = false) (jobQueue w)).
Proof.
  intros Hjob. split.
  - intros t cron Hpast.
    destruct (rescheduleJob_found now
                {| sdScheduledAt := Some t; sdCronExpression := cron;
                   sdTimezone := tz |} w job Hjob)
      as (w1 & -> & Hq & Hj & He & Hn).
    unfold rescheduleRest. unfold_M. cbn [sdScheduledAt].
    fold (rescheduledAt t job).
    rewrite (Job_save_found _ _ job) by (by rewrite Hj).
    rewrite mergeChanged_same.
    rewrite enqueueJob_scheduled;
      [| done | simpl_world; rewrite Hq; apply find_filter_none].
    change (getTime (scheduledAt (rescheduledAt t job))) with t.
    assert (Hneg : (t - now <? 0) = true) by (apply Z.ltb_lt; lia).
    rewrite Hneg. eexists. split; [reflexivity|]. simpl_world.
    by rewrite Hj, Hq.
  - intros cron Hne Hinvalid.
    destruct (rescheduleJob_found now
                {| sdScheduledAt := None; sdCronExpression := Some cron;
                   sdTimezone := tz |} w job Hjob)
      as (w1 & -> & Hq & Hj & He & Hn).
    unfold rescheduleRest. unfold_M.
    cbn [sdScheduledAt sdCronExpression truthy].
    rewrite decide_False by done.
    unfold validateCronExpression. rewrite Hinvalid. unfold throw.
    eexists. split; [reflexivity|]. done.
Qed.

(** ** Creation of scheduled and recurring jobs *)

(** The row [scheduleJob] inserts for a job scheduled at [t]. *)
Definition scheduledRow (t : Z) (newId : string) (jobData : JobInput)
    (user : string) : Job :=
  {| id := newId; userId := user; name := inName jobData;
     type := inType jobData; payload := inPayload jobData;
     scheduleType := scheduled;
     scheduledAt := Some t;
     cronExpression := inCronExpression jobData;
     timezone := default "UTC" (inTimezone jobData);
     maxRetries := default 3 (inMaxRetries jobData);
     retryDelay := default 5000 (inRetryDelay jobData);
     retryBackoff := default exponential (inRetryBackoff jobData);
     timeout := default 300000 (inTimeout jobData);
     priority := default 0 (inPriority jobData);
     status := active;
     lastExecutedAt := None;
     nextExecutionAt := Some t;
     totalExecutions := 0; successfulExecutions := 0; failedExecutions := 0;
     endAt := inEndAt jobData;
     maxExecutions := inMaxExecutions jobData |}.

(** The row [scheduleJob] inserts for a recurring job with the expression
    [e], read at the instant [now]. *)
Definition recurringRow (now : Z) (e : string) (newId : string)
    (jobData : JobInput) (user : string) : Job :=
  {| id := newId; userId := user; name := inName jobData;
     type := inType jobData; payload := inPayload jobData;
     scheduleType := recurring;
     scheduledAt := inScheduledAt jobData;
     cronExpression := Some e;
     timezone := default "UTC" (inTimezone jobData);
     maxRetries := default 3 (inMaxRetries jobData);
     retryDelay := default 5000 (inRetryDelay jobData);
     retryBackoff := default exponential (inRetryBackoff jobData);
     timeout := default 300000 (inTimeout jobData);
     priority := default 0 (inPriority jobData);
     status := active;
     lastExecutedAt := None;
     nextExecutionAt :=
       Some (cronNext e (default "UTC" (inTimezone jobData)) now);
     totalExecutions := 0; successfulExecutions := 0; failedExecutions := 0;
     endAt := inEndAt jobData;
     maxExecutions := inMaxExecutions jobData |}.

(** X8. Creating a scheduled job whose scheduledAt is not in the past
    inserts an active row with next_execution_at = scheduled_at and enqueues
    one entry delayed by scheduled_at - now. *)
Theorem X8_schedule_scheduled (now t : Z) (newId : string)
    (jobData : JobInput) (user : string) (w : World) :
  inScheduleType jobData = scheduled →
  inScheduledAt jobData = Some t →
  now ≤ t →
  jobs w !! newId = None →
  List.find (hasJobId newId) (jobQueue w) = None →
  let row := scheduledRow t newId jobData user in
  ∃ w',
    scheduleJob now newId jobData user w = (w', Returned row) ∧
    jobs w' = <[newId := row]> (jobs w) ∧
    jobQueue w' = jobQueue w ++ [queuedJob row None (Some (t - now))] ∧
    scheduledQueue w' = scheduledQueue w.
Proof.
  intros Hsch Hat Hfuture Hfresh Hqueue row. subst row.
  unfold scheduleJob. rewrite Hsch, Hat. unfold_M.
  rewrite decide_False by done.
  unfold Job_create. cbn [id]. rewrite Hfresh.
  fold (scheduledRow t newId jobData user).
  rewrite enqueueJob_scheduled by done.
  change (getTime (scheduledAt (scheduledRow t newId jobData user))) with t.
  assert (Hpos : (t - now <? 0) = false) by (apply Z.ltb_ge; lia).
  rewrite Hpos. unfold JobLog_create. simpl_world.
  cbn [logJobId id scheduledRow].
  rewrite lookup_insert_eq. eexists. split; [reflexivity|]. done.
Qed.

(** X9. Creating a recurring job: a cron expression that is missing or does
    not parse is refused before anything is written (the state is
    unchanged); otherwise the row is inserted with next_execution_at the
    first match after now in the job's zone (UTC by default), and one
    repeatable registration is filed; the job queue is not used. *)
Theorem X9_schedule_recurring (now : Z) (newId : string) (jobData : JobInput)
    (user : string) (w : World) :
  inScheduleType jobData = recurring →
  ((∀ e, inCronExpression jobData = Some e → cronValid e = false) →
   scheduleJob now newId jobData user w
   = (w, Thrown "Invalid cron expression")) ∧
  (∀ e, inCronExpression jobData = Some e → cronValid e = true →
        jobs w !! newId = None →
        let row := recurringRow now e newId jobData user in
        ∃ w',
          scheduleJob now newId jobData user w = (w', Returned row) ∧
          jobs w' = <[newId := row]> (jobs w) ∧
          scheduledQueue w' = scheduledQueue w ++ [registration row e] ∧
          jobQueue w' = jobQueue w).
Proof.
  intros Hrec. split.
  - intros Hbad. unfold scheduleJob, validateCronExpression. rewrite Hrec.
    unfold_M. rewrite decide_True by done.
    destruct (inCronExpression jobData) as [e|]; [|done].
    by rewrite (Hbad e).
  - intros e Hcron Hvalid Hfresh row. subst row.
    unfold scheduleJob, validateCronExpression, getNextCronExecution.
    rewrite Hrec, Hcron, Hvalid. unfold_M. rewrite decide_True by done.
    unfold Job_create. cbn [id]. rewrite Hfresh.
    fold (recurringRow now e newId jobData user).
    rewrite (enqueueJob_recurring _ _ e) by done.
    unfold JobLog_create. simpl_world. cbn [logJobId id recurringRow].
    rewrite lookup_insert_eq. eexists. split; [reflexivity|]. done.
Qed.

(** * utils/helpers.js *)

(** ** [retryWithBackoff] *)

(** The delay slept after the failed attempt [att] when another attempt
    follows. *)
Definition sleepOf (baseDelay : Z) (backoffT : RetryBackoff) (att : Z) : Z :=
  match backoffT with
  | exponential => baseDelay * 2 ^ (att - 1)
  | fixed => baseDelay
  end.

(** The delays slept after the attempts [att], [att + 1], ... ([n] of
    them). *)
Definition sleepsFrom (baseDelay : Z) (backoffT : RetryBackoff) (att : Z)
    (n : nat) : list Z :=
  (fun i => sleepOf baseDelay backoffT (att + Z.of_nat i)) <$> seq 0 n.

Definition errorOf {A} (o : Outcome A) : option string :=
  match o with Thrown e => Some e | Returned _ => None end.

Definition failing {A} (o : Outcome A) : Prop := ∃ e, o = Thrown e.

Lemma sleepsFrom_S b t att n :
  sleepsFrom b t att (S n) = sleepOf b t att :: sleepsFrom b t (att + 1) n.
Proof.
  unfold sleepsFrom. cbn [seq fmap list_fmap]. rewrite Z.add_0_r. f_equal.
  rewrite <- seq_shift, <- list_fmap_compose. apply list_fmap_ext.
  intros _ i _. cbn. f_equal. lia.
Qed.

(** [n] failing calls, each followed by another attempt. *)
Lemma retryLoop_failures {A} (fn : Z → Outcome A) (maxR b : Z)
    (t : RetryBackoff) (n fuel : nat) (att : Z) (last : option string)
    (sleeps : list Z) :
  att + Z.of_nat n ≤ maxR →
  (∀ k, att ≤ k < att + Z.of_nat n → failing (fn k)) →
  retryLoop fn maxR b t (n + fuel) att last sleeps
  = retryLoop fn maxR b t fuel (att + Z.of_nat n)
      (if decide (n = 0%nat) then last
       else errorOf (fn (att + Z.of_nat n - 1)))
      (sleeps ++ sleepsFrom b t att n).
Proof.
  revert att last sleeps. induction n as [|n IH]; intros att last sleeps Hle Hfail.
  - cbn [Nat.add]. rewrite Z.add_0_r. unfold sleepsFrom. cbn.
    by rewrite app_nil_r.
  - cbn [Nat.add retryLoop].
    assert (Hin : (att <=? maxR) = true) by (apply Z.leb_le; lia).
    rewrite Hin. destruct (Hfail att) as [e He]; [lia|]. rewrite He.
    unfold retryWithBackoff_delay.
    assert (Hlt : (att <? maxR) = true) by (apply Z.ltb_lt; lia).
    rewrite Hlt. fold (sleepOf b t att).
    rewrite IH by (try lia; intros k Hk; apply Hfail; lia).
    rewrite sleepsFrom_S, <- app_assoc. cbn [app].
    rewrite (decide_False (P := S n = 0%nat)) by done.
    replace (att + 1 + Z.of_nat n) with (att + Z.of_nat (S n)) by lia.
    f_equal. destruct n as [|n].
    + rewrite decide_True by done.
      replace (att + Z.of_nat 1 - 1) with att by lia. by rewrite He.
    + rewrite decide_False by done. repeat f_equal; lia.
Qed.

Fixpoint sum_list (l : list Z) : Z :=
  match l with [] => 0 | x :: l' => x + sum_list l' end.

Lemma sum_sleeps_exponential (b att : Z) (n : nat) :
  1 ≤ att →
  sum_list (sleepsFrom b exponential att n)
  = b * 2 ^ (att - 1) * (2 ^ Z.of_nat n - 1).
Proof.
  revert att. induction n as [|n IH]; intros att Hatt.
  - cbn. lia.
  - rewrite sleepsFrom_S. cbn [sum_list sleepOf]. rewrite IH by lia.
    replace (att + 1 - 1) with (Z.succ (att - 1)) by lia.
    rewrite Z.pow_succ_r by lia.
    rewrite Nat2Z.inj_succ, Z.pow_succ_r by lia. lia.
Qed.

Lemma sum_sleeps_fixed (b att : Z) (n : nat) :
  sum_list (sleepsFrom b fixed att n) = b * Z.of_nat n.
Proof.
  revert att. induction n as [|n IH]; intros att.
  - cbn. lia.
  - rewrite sleepsFrom_S. cbn [sum_list sleepOf]. rewrite IH. lia.
Qed.

(** X10. When every call of [fn] fails and maxRetries is at least 1,
    [retryWithBackoff] calls [fn] exactly maxRetries times, sleeps after
    every failure but the last (baseDelay * 2^(k-1) after the k-th one with
    the exponential backoff, baseDelay with the fixed one) and throws the
    error of the last call; the time slept in total is
    baseDelay * (2^(maxRetries-1) - 1), respectively
    baseDelay * (maxRetries - 1). *)
Theorem X10_retry_all_fail {A} (fn : Z → Outcome A) (maxRetries baseDelay : Z)
    (backoffType : RetryBackoff) (e : string) :
  1 ≤ maxRetries →
  (∀ k, 1 ≤ k < maxRetries → failing (fn k)) →
  fn maxRetries = Thrown e →
  let sleeps := sleepsFrom baseDelay backoffType 1 (Z.to_nat (maxRetries - 1)) in
  retryWithBackoff fn (Some maxRetries) (Some baseDelay) (Some backoffType)
  = Some {| calls := maxRetries; slept := sleeps;
            settled := Rejected (Some e) |} ∧
  sum_list sleeps
  = match backoffType with
    | exponential => baseDelay * (2 ^ (maxRetries - 1) - 1)
    | fixed => baseDelay * (maxRetries - 1)
    end.
Proof.
  intros Hpos Hfail Hlast sleeps. split.
  - unfold retryWithBackoff. cbn [default from_option Datatypes.id].
    replace (Z.to_nat maxRetries) with (Z.to_nat (maxRetries - 1) + 1)%nat
      by lia.
    rewrite retryLoop_failures by (try lia; intros k Hk; apply Hfail; lia).
    replace (1 + Z.of_nat (Z.to_nat (maxRetries - 1))) with maxRetries by lia.
    cbn [retryLoop]. rewrite Z.leb_refl, Hlast.
    unfold retryWithBackoff_delay. rewrite Z.ltb_irrefl.
    assert (Hout : (maxRetries + 1 <=? maxRetries) = false)
      by (apply Z.leb_gt; lia).
    rewrite Hout. by replace (maxRetries + 1 - 1) with maxRetries by lia.
  - subst sleeps. destruct backoffType.
    + rewrite sum_sleeps_fixed. by rewrite Z2Nat.id by lia.
    + rewrite sum_sleeps_exponential by lia.
      rewrite Z2Nat.id by lia. cbn. lia.
Qed.

(** X11. With a maxRetries of 0 or less [retryWithBackoff] never calls
    [fn], sleeps nothing and throws [undefined]. *)
Theorem X11_retry_no_attempt {A} (fn : Z → Outcome A) (maxRetries : Z)
    (baseDelay : option Z) (backoffType : option RetryBackoff) :
  maxRetries ≤ 0 →
  retryWithBackoff fn (Some maxRetries) baseDelay backoffType
  = Some {| calls := 0; slept := []; settled := Rejected None |}.
Proof.
  intros Hle. unfold retryWithBackoff. cbn [default from_option Datatypes.id].
  replace (Z.to_nat maxRetries) with 0%nat by lia. cbn [retryLoop].
  assert (Hout : (1 <=? maxRetries) = false) by (apply Z.leb_gt; lia).
  by rewrite Hout.
Qed.

(** X12. When the first call of [fn] that succeeds is the k-th one, with
    k at most maxRetries, [retryWithBackoff] returns its value after k calls
    and k - 1 sleeps, and calls [fn] no further. *)
Theorem X12_retry_first_success {A} (fn : Z → Outcome A) (maxRetries baseDelay : Z)
    (backoffType : RetryBackoff) (k : Z) (a : A) :
  1 ≤ k ≤ maxRetries →
  (∀ j, 1 ≤ j < k → failing (fn j)) →
  fn k = Returned a →
  retryWithBackoff fn (Some maxRetries) (Some baseDelay) (Some backoffType)
  = Some {| calls := k;
            slept := sleepsFrom baseDelay backoffType 1 (Z.to_nat (k - 1));
            settled := Resolved a |}.
Proof.
  intros Hk Hfail Hok. unfold retryWithBackoff.
  cbn [default from_option Datatypes.id].
  replace (Z.to_nat maxRetries)
    with (Z.to_nat (k - 1) + S (Z.to_nat (maxRetries - k)))%nat by lia.
  rewrite retryLoop_failures by (try lia; intros j Hj; apply Hfail; lia).
  replace (1 + Z.of_nat (Z.to_nat (k - 1))) with k by lia.
  cbn [retryLoop].
  assert (Hin : (k <=? maxRetries) = true) by (apply Z.leb_le; lia).
  by rewrite Hin, Hok.
Qed.

(** ** [paginate] *)

Lemma paginate_data {A} (array : list A) (page limit : Z) :
  1 ≤ page → 0 ≤ limit →
  pgData (paginate array (Some page) (Some limit))
  = take (Z.to_nat limit) (drop (Z.to_nat (page - 1) * Z.to_nat limit) array).
Proof.
  intros Hpage Hlimit. unfold paginate, js_slice.
  cbn [pgData default from_option Datatypes.id].
  set (len := Z.of_nat (length array)).
  assert (Hstart : 0 ≤ (page - 1) * limit) by nia.
  destruct ((page - 1) * limit <? 0) eqn:H1; [apply Z.ltb_lt in H1; lia|].
  destruct ((page - 1) * limit + limit <? 0) eqn:H2;
    [apply Z.ltb_lt in H2; lia|].
  destruct (decide ((page - 1) * limit ≤ len)) as [Hin|Hout].
  - rewrite (Z.min_l ((page - 1) * limit) len) by done.
    replace (Z.to_nat ((page - 1) * limit))
      with (Z.to_nat (page - 1) * Z.to_nat limit)%nat by nia.
    destruct (decide ((page - 1) * limit + limit ≤ len)) as [Hin2|Hout2].
    + rewrite Z.min_l by done. f_equal. lia.
    + rewrite Z.min_r by lia.
      rewrite !take_ge; [done| |];
        rewrite length_drop; subst len; nia.
  - rewrite !Z.min_r by lia. rewrite Z.sub_diag.
    rewrite !drop_ge by (subst len; nia). by rewrite !take_nil.
Qed.

Lemma pages_bounds (total limit : Z) :
  0 ≤ total → 1 ≤ limit →
  let p := - (- total / limit) in
  (p - 1) * limit < total ≤ p * limit.
Proof.
  intros Htotal Hlimit p. subst p.
  pose proof (Z.div_mod (- total) limit ltac:(lia)) as Hdm.
  pose proof (Z.mod_pos_bound (- total) limit ltac:(lia)) as Hmod.
  nia.
Qed.

Lemma chunks_join {A} (n k : nat) (l : list A) :
  (length l ≤ k * n)%nat →
  mjoin ((fun i => take n (drop (i * n) l)) <$> seq 0 k) = l.
Proof.
  revert l. induction k as [|k IH]; intros l Hlen.
  - destruct l; [done|]. cbn in Hlen. lia.
  - cbn [seq fmap list_fmap]. rewrite <- seq_shift, <- list_fmap_compose.
    etrans; [|apply (take_drop n l)].
    rewrite <- (IH (drop n l)) by (rewrite length_drop; lia).
    cbn [mjoin list_join Nat.mul drop]. f_equal. f_equal.
    apply list_fmap_ext. intros _ i _. cbn. by rewrite drop_drop.
Qed.

(** X13. For a page and a limit of at least 1, [paginate] returns the
    items from index (page-1)*limit on, at most limit of them; the page
    count p it reports satisfies (p-1)*limit < total <= p*limit; every page
    before the last is full and every page after the last is empty. *)
Theorem X13_paginate_bounds {A} (array : list A) (page limit : Z) :
  1 ≤ page → 1 ≤ limit →
  let r := paginate array (Some page) (Some limit) in
  pgData r
  = take (Z.to_nat limit) (drop (Z.to_nat ((page - 1) * limit)) array) ∧
  Z.of_nat (length (pgData r)) ≤ limit ∧
  ∃ pages, pgPages r = Some pages ∧
           (pages - 1) * limit < pgTotal r ≤ pages * limit ∧
           (page < pages → Z.of_nat (length (pgData r)) = limit) ∧
           (pages < page → pgData r = []).
Proof.
  intros Hpage Hlimit r. subst r. rewrite paginate_data by lia.
  replace (Z.to_nat (page - 1) * Z.to_nat limit)%nat
    with (Z.to_nat ((page - 1) * limit)) by nia.
  split; [done|]. split; [rewrite length_take; lia|].
  unfold paginate. cbn [pgPages pgTotal default from_option Datatypes.id].
  assert (Hnz : (limit =? 0) = false) by (apply Z.eqb_neq; lia).
  rewrite Hnz. eexists. split; [reflexivity|].
  pose proof (pages_bounds (Z.of_nat (length array)) limit ltac:(lia) Hlimit)
    as Hb. cbn zeta in Hb. split; [done|]. split.
  - intros Hlt. rewrite length_take, length_drop. nia.
  - intros Hgt. rewrite drop_ge; [by rewrite take_nil|]. nia.
Qed.

(** X14. For a limit of at least 1, the pages 1 to p of an array, p being
    the page count that [paginate] reports, put one after the other give
    the array back. *)
Theorem X14_paginate_round_trip {A} (array : list A) (limit pages : Z) :
  1 ≤ limit →
  pgPages (paginate array (Some 1) (Some limit)) = Some pages →
  mjoin ((fun i => pgData (paginate array (Some (Z.of_nat i + 1)) (Some limit)))
           <$> seq 0 (Z.to_nat pages))
  = array.
Proof.
  intros Hlimit Hpages. unfold paginate in Hpages.
  cbn [pgPages default from_option Datatypes.id] in Hpages.
  assert (Hnz : (limit =? 0) = false) by (apply Z.eqb_neq; lia).
  rewrite Hnz in Hpages. injection Hpages as <-.
  pose proof (pages_bounds (Z.of_nat (length array)) limit ltac:(lia) Hlimit)
    as Hb. cbn zeta in Hb.
  rewrite <- (chunks_join (Z.to_nat limit)
                (Z.to_nat (- (- Z.of_nat (length array) / limit))) array)
    at 2 by nia.
  f_equal. apply list_fmap_ext. intros _ i _. rewrite paginate_data by lia.
  do 2 f_equal. lia.
Qed.

(** X15. [paginate] accepts the page 0, for which the data is empty
    whatever the limit. *)
Theorem X15_paginate_page_zero {A} (array : list A) (limit : option Z) :
  pgData (paginate array (Some 0) limit) = [].
Proof.
  unfold paginate, js_slice. cbn [pgData default from_option Datatypes.id].
  set (len := Z.of_nat (length array)). set (l := default 20 limit).
  assert (Hlen : 0 ≤ len) by (subst len; lia).
  replace ((0 - 1) * l + l) with 0 by lia. cbn [Z.ltb Z.compare].
  rewrite (Z.min_l 0 len) by done.
  destruct ((0 - 1) * l <? 0) eqn:H1.
  - replace (Z.to_nat (0 - Z.max (len + (0 - 1) * l) 0)) with 0%nat by lia.
    done.
  - apply Z.ltb_ge in H1.
    replace (Z.to_nat (0 - Z.min ((0 - 1) * l) len)) with 0%nat by lia. done.
Qed.

(** * Further properties of the worker *)

(** ** A successful firing of a recurring job *)

(** X16. A successful attempt of a recurring job with a valid cron
    expression counts the run (total and successful + 1, last_executed_at
    set) and then either completes the job, when its end_at has passed or
    its max_executions is reached, leaving next_execution_at as it was, or
    keeps the status and advances next_execution_at.  The bound
    max_executions is compared with the count of the row before this run is
    counted: the run that brings total_executions to the bound does not
    complete the job, the one after it does. *)
Theorem X16_recurring_success (bullJob : BullJob) (execId : string)
    (startTime endTime : Z) (env : Environment) (w : World) (job : Job)
    (res : JobResult) (cron : string) :
  jobs w !! qJobId (data bullJob) = Some job →
  id job = qJobId (data bullJob) →
  Forall (fun e => exId e ≠ execId) (executions w) →
  executeOutcome (data bullJob) env = Returned res →
  scheduleType job = recurring →
  cronExpression job = Some cron →
  cronValid cron = true →
  ∃ w' job',
    processJob bullJob execId startTime endTime env w = (w', Returned res) ∧
    jobs w' !! id job = Some job' ∧
    totalExecutions job' = totalExecutions job + 1 ∧
    successfulExecutions job' = successfulExecutions job + 1 ∧
    failedExecutions job' = failedExecutions job ∧
    lastExecutedAt job' = Some endTime ∧
    (endReached endTime job || maxReached job = true →
     status job' = completed ∧ nextExecutionAt job' = nextExecutionAt job) ∧
    (endReached endTime job || maxReached job = false →
     status job' = status job ∧
     nextExecutionAt job' = Some (cronNext cron (timezone job) endTime)) ∧
    (∀ m, endAt job = None → maxExecutions job = Some m → 0 < m →
          status job ≠ completed →
          (status job' = completed ↔ m ≤ totalExecutions job)).
Proof.
  intros Hjob Hid Hfresh Hexec Hrec Hcron Hvalid.
  rewrite (processJob_resolved _ _ _ _ _ _ job res) by done.
  unfold succeededJob. rewrite decide_True by done.
  unfold advance. rewrite Hcron, Hvalid.
  assert (Hbound : ∀ m, endAt job = None → maxExecutions job = Some m →
            0 < m → endReached endTime job = false ∧
                    (maxReached job = true ↔ m ≤ totalExecutions job)).
  { intros m Hno Hm Hpos. unfold endReached, maxReached. rewrite Hno, Hm.
    split; [done|]. destruct (Z.eqb_spec m 0); [lia|]. cbn.
    apply Z.leb_le. }
  destruct (endReached endTime job) eqn:Hend;
    [|destruct (maxReached job) eqn:Hmax].
  all: eexists _, _; split; [reflexivity|]; simpl_world;
    rewrite Hid, lookup_insert_eq; split; [reflexivity|].
  all: unfold mergeChanged;
    cbn [totalExecutions successfulExecutions failedExecutions
         lastExecutedAt status nextExecutionAt countSuccess set_status
         set_nextExecutionAt set_successfulExecutions set_totalExecutions
         set_lastExecutedAt];
    rewrite !changed_incr, !changed_keep, ?changed_same.
  all: do 6 (split; [done|]).
  - intros m Hno Hm Hpos Hst. destruct (Hbound m Hno Hm Hpos). done.
  - intros m Hno Hm Hpos Hst. destruct (Hbound m Hno Hm Hpos) as [_ Hiff].
    split; [by intros _; apply Hiff | done].
  - intros m Hno Hm Hpos Hst. destruct (Hbound m Hno Hm Hpos) as [_ Hiff].
    split; [done|]. intros Hle. apply Hiff in Hle. congruence.
Qed.

(** ** A retry that the worker announces *)

(** X17. The worker announces a retry from the job's max_retries alone,
    whatever options the queue job carries: a failing attempt that is not
    the last one by the worker's count leaves the job with the status it
    had (the failure is counted) and emits job_retry.  The queue job that
    [addRecurringJob] registers for a recurring job carries neither an
    attempts nor a backoff option, its max_retries travels in the envelope
    only. *)
Theorem X17_retry_announced (bullJob : BullJob) (execId : string)
    (startTime endTime : Z) (env : Environment) (w : World) (job : Job)
    (err : string) :
  jobs w !! qJobId (data bullJob) = Some job →
  id job = qJobId (data bullJob) →
  Forall (fun e => exId e ≠ execId) (executions w) →
  executeOutcome (data bullJob) env = Thrown err →
  isLastAttempt bullJob = false →
  (∃ w',
     processJob bullJob execId startTime endTime env w = (w', Thrown err) ∧
     jobs w' !! id job = Some (countFailure endTime job) ∧
     status (countFailure endTime job) = status job ∧
     notifications w'
     = notifications w
         ++ [job_retry (userId job) (id job) (name job)
               (attemptsMade bullJob + 1) (maxRetriesOf bullJob) err]) ∧
  (∀ jobData cron tz w0,
     ∃ w1 b, addRecurringJob jobData cron tz w0 = (w1, Returned b) ∧
             data b = jobData ∧
             attempts (opts b) = None ∧ backoff (opts b) = None).
Proof.
  intros Hjob Hid Hfresh Hexec Hworker. split.
  - rewrite (processJob_rejected _ _ _ _ _ _ job err) by done.
    eexists. split; [reflexivity|]. simpl_world.
    unfold failedJob, failureNotification. rewrite Hworker.
    by rewrite Hid, lookup_insert_eq.
  - intros jobData cron tz w0. unfold addRecurringJob. unfold_M.
    by eexists _, _.
Qed.

(** ** What an attempt leaves alone *)

(** X18. An attempt never touches the queues and never writes a job row
    other than the one its envelope names.  When that row is gone the
    attempt fails on the foreign key without writing anything; when it is
    there, the attempt appends exactly one notification: job_completed when
    it returns, job_retry or max_retries_exceeded when it throws. *)
Theorem X18_attempt_frame (bullJob : BullJob) (execId : string)
    (startTime endTime : Z) (env : Environment) (w w' : World)
    (r : Outcome JobResult) :
  wfWorld w →
  processJob bullJob execId startTime endTime env w = (w', r) →
  jobQueue w' = jobQueue w ∧
  scheduledQueue w' = scheduledQueue w ∧
  (∀ k, k ≠ qJobId (data bullJob) → jobs w' !! k = jobs w !! k) ∧
  match jobs w !! qJobId (data bullJob) with
  | None => w' = w ∧ r = Thrown foreignKeyViolation
  | Some job =>
      ∃ n, notifications w' = notifications w ++ [n] ∧
           match r, n with
           | Returned _, job_completed u j _ _ _ => u = userId job ∧ j = id job
           | Thrown _, job_retry u j _ _ _ _ => u = userId job ∧ j = id job
           | Thrown _, max_retries_exceeded u j _ _ _ =>
               u = userId job ∧ j = id job
           | _, _ => False
           end
  end.
Proof.
  intros Hwf Hrun.
  destruct (jobs w !! qJobId (data bullJob)) as [job|] eqn:Hjob.
  2: { rewrite processJob_orphan in Hrun by done.
       by injection Hrun as <- <-. }
  pose proof (Hwf _ _ Hjob) as Hid.
  assert (Hfail : ∀ e,
    match failureNotification bullJob job e with
    | job_retry u j _ _ _ _ => u = userId job ∧ j = id job
    | max_retries_exceeded u j _ _ _ => u = userId job ∧ j = id job
    | _ => False
    end).
  { intros e. unfold failureNotification. by destruct (isLastAttempt bullJob). }
  destruct (decide (Forall (fun e => exId e ≠ execId) (executions w)))
    as [Hfresh|Hstale].
  - destruct (executeOutcome (data bullJob) env) as [res|err] eqn:Hexec.
    + rewrite (processJob_resolved _ _ _ _ _ _ job res) in Hrun by done.
      destruct (succeededJob endTime job) as [job'|e];
        injection Hrun as <- <-; simpl_world;
        (split; [done|]); (split; [done|]);
        (split; [by intros k Hk; rewrite lookup_insert_ne|]);
        eexists; (split; [reflexivity|]); [done|apply Hfail].
    + rewrite (processJob_rejected _ _ _ _ _ _ job err) in Hrun by done.
      injection Hrun as <- <-. simpl_world.
      split; [done|]. split; [done|].
      split; [by intros k Hk; rewrite lookup_insert_ne|].
      eexists. split; [reflexivity|]. apply Hfail.
  - unfold processJob, JobExecution_create in Hrun.
    cbn [exJobId newExecution exId] in Hrun.
    rewrite Hjob, stale_existsb in Hrun by done.
    rewrite (catchBlock_found _ _ _ _ _ _ job) in Hrun by done.
    injection Hrun as <- <-. simpl_world.
    split; [done|]. split; [done|].
    split; [by intros k Hk; rewrite lookup_insert_ne|].
    eexists. split; [reflexivity|]. apply Hfail.
Qed.

(** ** The removal of a job from the queues *)

Lemma removeFromQueue_frame (job : Job) (w : World) :
  ∃ w1 b, removeFromQueue job w = (w1, Returned b) ∧ jobs w1 = jobs w ∧
          executions w1 = executions w ∧ logs w1 = logs w ∧
          notifications w1 = notifications w.
Proof.
  unfold removeFromQueue, removeRecurringJob, queue_cancelJob.
  repeat case_match; eexists _, _; split; try reflexivity; done.
Qed.

(** ** The outcome of an attempt by job type *)

(** X20. For a job that is not recurring, the Execution row of an attempt
    of type http or webhook is completed exactly when the server answered
    with a status from 200 to 299, and failed otherwise (any other status,
    a socket error, the idle timeout); the row of an attempt of type email
    is always completed. *)
Theorem X20_outcome_by_type (bullJob : BullJob) (execId : string)
    (startTime endTime : Z) (env : Environment) (w : World) (job : Job) :
  jobs w !! qJobId (data bullJob) = Some job →
  id job = qJobId (data bullJob) →
  scheduleType job ≠ recurring →
  Forall (fun e => exId e ≠ execId) (executions w) →
  ∃ w' r e,
    processJob bullJob execId startTime endTime env w = (w', r) ∧
    executions w' = executions w ++ [e] ∧
    (exStatus e = ex_completed ∨ exStatus e = ex_failed) ∧
    (qType (data bullJob) = http ∨ qType (data bullJob) = webhook →
     (exStatus e = ex_completed ↔
      ∃ statusCode body, network env = NetResponse statusCode body ∧
                         200 ≤ statusCode < 300)) ∧
    (qType (data bullJob) = email → exStatus e = ex_completed).
Proof.
  intros Hjob Hid Hnot Hfresh.
  destruct (executeOutcome (data bullJob) env) as [res|err] eqn:Hexec.
  - rewrite (processJob_resolved _ _ _ _ _ _ job res) by done.
    rewrite succeededJob_once by done.
    eexists _, _, _. split; [reflexivity|]. simpl_world.
    split; [reflexivity|]. split; [by left|]. split; [|done].
    intros Htype. split; [|done]. intros _.
    unfold executeOutcome, dispatch, executeWebhookJob, executeHttpJob in Hexec.
    destruct Htype as [Ht | Ht]; rewrite Ht in Hexec;
      (destruct (network env) as [sc body| |]; [|done..]);
      exists sc, body; (split; [done|]);
      destruct ((200 <=? sc) && (sc <? 300)) eqn:Hrange; try done;
      apply andb_true_iff in Hrange as [?%Z.leb_le ?%Z.ltb_lt]; lia.
  - rewrite (processJob_rejected _ _ _ _ _ _ job err) by done.
    eexists _, _, _. split; [reflexivity|]. simpl_world.
    split; [reflexivity|]. split; [by right|]. split.
    + intros Htype. split; [done|]. intros (sc & body & Hnet & Hrange).
      unfold executeOutcome, dispatch, executeWebhookJob, executeHttpJob
        in Hexec.
      assert (Hin : (200 <=? sc) && (sc <? 300) = true).
      { apply andb_true_iff. split; [apply Z.leb_le|apply Z.ltb_lt]; lia. }
      destruct Htype as [Ht | Ht]; rewrite Ht, Hnet, Hin in Hexec; done.
    + intros Ht. unfold executeOutcome, dispatch in Hexec.
      by rewrite Ht in Hexec.
Qed.

(** * The job controllers *)

Lemma Job_findOne_owned (w : World) (job : Job) :
  jobs w !! id job = Some job →
  Job_findOne (id job) (userId job) w = Some job.
Proof. intros Hjob. unfold Job_findOne. by rewrite Hjob, decide_True. Qed.

Lemma Job_findOne_foreign (reqId reqUser : string) (w : World) :
  (∀ job, jobs w !! reqId = Some job → userId job ≠ reqUser) →
  Job_findOne reqId reqUser w = None.
Proof.
  intros Hnot. unfold Job_findOne.
  destruct (jobs w !! reqId) as [job|] eqn:Hjob; [|done].
  by rewrite decide_False by (by apply Hnot).
Qed.

(** X21. A request on a job id that has no row, or whose row belongs to
    another user, changes nothing and is answered with an ApiError: 404
    "Job not found" by the delete, pause, resume, cancel and trigger
    controllers; the reschedule controller checks the body before it looks
    the job up, so it answers 400 when the body has neither a scheduledAt
    nor a cron expression and 404 otherwise.  No user can act on the job of
    another. *)
Theorem X21_foreign_job_not_found (now : Z) (reqId reqUser : string)
    (body : ScheduleData) (w : World) :
  (∀ job, jobs w !! reqId = Some job → userId job ≠ reqUser) →
  controller_deleteJob reqId reqUser w = (w, ApiError 404 "Job not found") ∧
  controller_pauseJob reqId reqUser w = (w, ApiError 404 "Job not found") ∧
  controller_resumeJob now reqId reqUser w
  = (w, ApiError 404 "Job not found") ∧
  controller_cancelJob reqId reqUser w = (w, ApiError 404 "Job not found") ∧
  controller_triggerJob now reqId reqUser w
  = (w, ApiError 404 "Job not found") ∧
  controller_rescheduleJob now reqId reqUser body w
  = (w, match sdScheduledAt body, truthy (sdCronExpression body) with
        | None, None =>
            ApiError 400 "Either scheduledAt or cronExpression is required"
        | _, _ => ApiError 404 "Job not found"
        end).
Proof.
  intros Hnot. apply Job_findOne_foreign in Hnot.
  unfold controller_deleteJob, controller_pauseJob, controller_resumeJob,
    controller_cancelJob, controller_triggerJob, controller_rescheduleJob.
  rewrite Hnot. repeat split.
  by destruct (sdScheduledAt body), (truthy (sdCronExpression body)).
Qed.

(** X22. On a job of the requesting user the controllers guard the status
    before they call the planner: pause is refused with the ApiError 400
    unless the job is active, resume unless it is paused, cancel when the
    job is already cancelled, each time without any change.  Cancel accepts
    every other status, completed and failed included, and the job becomes
    cancelled.  Trigger has no guard of its own: for a job that is not
    active the planner's plain exception goes to the error handler. *)
Theorem X22_controller_guards (now : Z) (w : World) (job : Job) :
  jobs w !! id job = Some job →
  (status job ≠ active →
   controller_pauseJob (id job) (userId job) w
   = (w, ApiError 400 "Can only pause active jobs")) ∧
  (status job = active →
   ∃ w', controller_pauseJob (id job) (userId job) w
         = (w', Sent 200 (set_status paused job)) ∧
         jobs w' !! id job = Some (set_status paused job)) ∧
  (status job ≠ paused →
   controller_resumeJob now (id job) (userId job) w
   = (w, ApiError 400 "Can only resume paused jobs")) ∧
  (status job = cancelled →
   controller_cancelJob (id job) (userId job) w
   = (w, ApiError 400 "Job is already cancelled")) ∧
  (status job ≠ cancelled →
   ∃ w', controller_cancelJob (id job) (userId job) w
         = (w', Sent 200 (set_status cancelled job)) ∧
         jobs w' !! id job = Some (set_status cancelled job)) ∧
  (status job ≠ active →
   controller_triggerJob now (id job) (userId job) w
   = (w, Raised "Can only trigger active jobs")).
Proof.
  intros Hjob. pose proof (Job_findOne_owned w job Hjob) as Hfind.
  unfold controller_pauseJob, controller_resumeJob, controller_cancelJob,
    controller_triggerJob, awaiting.
  rewrite Hfind. repeat split.
  - intros Hst. by rewrite decide_True.
  - intros Hst. rewrite decide_False by (intros H; by apply H).
    destruct (pauseJob_found w job Hjob) as (w' & -> & Hjobs).
    exists w'. split; [done|]. by rewrite Hjobs, lookup_insert_eq.
  - intros Hst. by rewrite decide_True.
  - intros Hst. by rewrite decide_True.
  - intros Hst. rewrite decide_False by done.
    destruct (cancelJob_found w job Hjob) as (w' & -> & Hjobs).
    exists w'. split; [done|]. by rewrite Hjobs, lookup_insert_eq.
  - intros Hst. unfold triggerJob, Job_findByPk. unfold_M. rewrite Hjob.
    by rewrite decide_False.
Qed.

Lemma filter_app_gone {A} (P : A → Prop) `{∀ x, Decision (P x)}
    (l : list A) (x : A) :
  ¬ P x → filter P (l ++ [x]) = filter P l.
Proof.
  intros Hx. rewrite filter_app, filter_cons_False by done.
  by rewrite filter_nil, app_nil_r.
Qed.

(** X23. Deleting a job of the requesting user cancels it and removes its
    row together with its executions and its log lines; the rows of the
    other jobs stay.  An attempt of the deleted job that is delivered
    afterwards fails on the foreign key and writes nothing. *)
Theorem X23_delete_job (w : World) (job : Job) (bullJob : BullJob)
    (execId : string) (startTime endTime : Z) (env : Environment) :
  jobs w !! id job = Some job →
  qJobId (data bullJob) = id job →
  ∃ w',
    controller_deleteJob (id job) (userId job) w = (w', Sent 200 tt) ∧
    jobs w' = delete (id job) (jobs w) ∧
    executions w' = filter (fun e => exJobId e ≠ id job) (executions w) ∧
    logs w' = filter (fun l => logJobId l ≠ id job) (logs w) ∧
    notifications w' = notifications w ∧
    processJob bullJob execId startTime endTime env w'
    = (w', Thrown foreignKeyViolation).
Proof.
  intros Hjob Hq. pose proof (Job_findOne_owned w job Hjob) as Hfind.
  unfold controller_deleteJob, awaiting. rewrite Hfind.
  unfold cancelJob, Job_findByPk. unfold_M. rewrite Hjob.
  destruct (removeFromQueue_frame job w)
    as (w1 & b & -> & Hj1 & He1 & Hl1 & Hn1).
  rewrite (Job_save_found _ _ job) by (by rewrite Hj1).
  rewrite mergeChanged_same. unfold JobLog_create. simpl_world.
  cbn [logJobId id set_status]. rewrite lookup_insert_eq.
  unfold Job_destroy, effect. simpl_world.
  eexists. split; [reflexivity|]. simpl_world.
  assert (Hjobs : delete (id job) (<[id job := set_status cancelled job]>
                                    (jobs w1)) = delete (id job) (jobs w)).
  { by rewrite delete_insert_eq, Hj1. }
  split; [done|]. split; [by rewrite He1|].
  split; [rewrite filter_app_gone, Hl1; [done|]; cbn; by intros H; apply H|].
  split; [done|].
  apply processJob_orphan. simpl_world. rewrite Hq, Hjobs.
  apply lookup_delete_eq.
Qed.

(** ** Attempts of one job in turn *)

(** Every attempt is rejected by its executor. *)
Definition allFail (d : QueueData) (inputs : list AttemptInput) : Prop :=
  Forall (fun i => ∃ err, executeOutcome d (aiEnv i) = Thrown err) inputs.

(** The execution ids generated for the attempts are new and distinct. *)
Definition freshIds (inputs : list AttemptInput) (w : World) : Prop :=
  NoDup (aiExecId <$> inputs) ∧
  Forall (fun i => Forall (fun e => exId e ≠ aiExecId i) (executions w))
    inputs.

(** The calls of [processJob] for successive deliveries of one queue job,
    one after the other: each call receives the job with [attemptsMade] one
    more than the call before it, and [inputs] gives what each call reads
    from outside.  Which deliveries the queue makes is not part of this. *)
Fixpoint attemptsInTurn (bullJob : BullJob) (inputs : list AttemptInput)
    (w : World) : World * list (Outcome JobResult) :=
  match inputs with
  | [] => (w, [])
  | i :: rest =>
      let '(w1, r) := processJob bullJob (aiExecId i) (aiStart i) (aiEnd i)
                        (aiEnv i) w in
      let '(w2, rs) := attemptsInTurn (nextDelivery bullJob) rest w1 in
      (w2, r :: rs)
  end.

Definition rejected (r : Outcome JobResult) : Prop := ∃ err, r = Thrown err.

Lemma failedJob_counters (bullJob : BullJob) (t : Z) (job : Job) :
  totalExecutions (failedJob bullJob t job) = totalExecutions job + 1 ∧
  failedExecutions (failedJob bullJob t job) = failedExecutions job + 1 ∧
  successfulExecutions (failedJob bullJob t job) = successfulExecutions job ∧
  scheduleType (failedJob bullJob t job) = scheduleType job ∧
  status (failedJob bullJob t job)
  = (if isLastAttempt bullJob then failed else status job).
Proof. unfold failedJob. by destruct (isLastAttempt bullJob). Qed.

Lemma fresh_after_attempt (i : AttemptInput) (rest : list AttemptInput)
    (es : list JobExecution) (e : JobExecution) :
  exId e = aiExecId i →
  aiExecId i ∉ aiExecId <$> rest →
  Forall (fun j => Forall (fun x => exId x ≠ aiExecId j) es) rest →
  Forall (fun j => Forall (fun x => exId x ≠ aiExecId j) (es ++ [e])) rest.
Proof.
  intros He Hnew Hfresh. apply Forall_forall. intros j Hj.
  apply Forall_app. split.
  - by eapply Forall_forall in Hfresh.
  - constructor; [|constructor]. rewrite He. intros Heq. apply Hnew.
    rewrite Heq. apply list_elem_of_fmap. by exists j.
Qed.

Lemma attemptsInTurn_all_fail (inputs : list AttemptInput) :
  ∀ (bullJob : BullJob) (w : World) (job : Job),
  jobs w !! qJobId (data bullJob) = Some job →
  id job = qJobId (data bullJob) →
  allFail (data bullJob) inputs →
  freshIds inputs w →
  ∃ w' rs job' es,
    attemptsInTurn bullJob inputs w = (w', rs) ∧
    Forall rejected rs ∧ length rs = length inputs ∧
    jobs w' !! qJobId (data bullJob) = Some job' ∧
    id job' = id job ∧ scheduleType job' = scheduleType job ∧
    totalExecutions job' = totalExecutions job + Z.of_nat (length inputs) ∧
    failedExecutions job' = failedExecutions job + Z.of_nat (length inputs) ∧
    successfulExecutions job' = successfulExecutions job ∧
    status job'
    = (if (0 <? Z.of_nat (length inputs))
          && (maxRetriesOf bullJob
              <=? attemptsMade bullJob + Z.of_nat (length inputs))
       then failed else status job) ∧
    executions w' = executions w ++ es ∧
    Forall (fun e => exStatus e = ex_failed) es ∧
    attempt <$> es
    = (fun k => attemptsMade bullJob + 1 + Z.of_nat k)
        <$> seq 0 (length inputs).
Proof.
  induction inputs as [|i rest IH];
    intros bullJob w job Hjob Hid Hfail [Hnodup Hfresh].
  { exists w, [], job, []. cbn. rewrite app_nil_r.
    repeat split; try done; lia. }
  apply Forall_cons in Hfail as [[err Herr] Hfail].
  apply Forall_cons in Hfresh as [Hfresh_i Hfresh].
  cbn [fmap list_fmap] in Hnodup. apply NoDup_cons in Hnodup as [Hnew Hnodup].
  cbn [attemptsInTurn].
  rewrite (processJob_rejected _ _ _ _ _ _ job err) by done.
  destruct (failedJob_counters bullJob (aiEnd i) job)
    as (Ht & Hf & Hs & Hty & Hst).
  match goal with
  | |- context [attemptsInTurn (nextDelivery bullJob) rest ?w1] =>
      destruct (IH (nextDelivery bullJob) w1
                  (failedJob bullJob (aiEnd i) job))
        as (w' & rs & job' & es & Hrun & Hrs & Hlen & Hjob' & Hi' & Hty'
              & Ht' & Hf' & Hs' & Hst' & Hex & Hall & Hatt)
  end.
  - cbn [data nextDelivery jobs]. apply lookup_insert_eq.
  - cbn [data nextDelivery]. by rewrite failedJob_id.
  - done.
  - split; [done|]. cbn [executions]. by apply (fresh_after_attempt i).
  - rewrite Hrun. eexists _, _, job', (_ :: es).
    split; [reflexivity|]. cbn [data nextDelivery attemptsMade executions] in *.
    split; [constructor; [by exists err|done]|].
    split; [cbn; by rewrite Hlen|]. split; [done|].
    split; [by rewrite Hi', failedJob_id|]. split; [congruence|].
    cbn [length]. rewrite Nat2Z.inj_succ.
    split; [lia|]. split; [lia|]. split; [congruence|]. split.
    { rewrite Hst', Hst. change (maxRetriesOf (nextDelivery bullJob))
        with (maxRetriesOf bullJob). unfold isLastAttempt.
      destruct (Z.ltb_spec 0 (Z.of_nat (length rest)));
        destruct (Z.ltb_spec 0 (Z.succ (Z.of_nat (length rest))));
        destruct (Z.leb_spec (maxRetriesOf bullJob)
                    (attemptsMade bullJob + 1 + Z.of_nat (length rest)));
        destruct (Z.leb_spec (maxRetriesOf bullJob)
                    (attemptsMade bullJob + Z.succ (Z.of_nat (length rest))));
        destruct (Z.leb_spec (maxRetriesOf bullJob) (attemptsMade bullJob + 1));
        cbn [andb]; try done; lia. }
    split; [by rewrite Hex, <- app_assoc|]. split; [by constructor|].
    cbn [seq fmap list_fmap]. f_equal; [cbn; lia|].
    rewrite Hatt, <- seq_shift, <- list_fmap_compose.
    apply list_fmap_ext. intros _ k _. cbn. lia.
Qed.

(** X24. When [processJob] is called for the deliveries 1 to n of one queue
    job, one after the other, and the executor rejects every time: the n
    calls throw, n failed Executions with the attempts 1 to n are added,
    total_executions and failed_executions grow by n, and the job ends with
    the status failed exactly when n has reached its max_retries (the
    configured default when max_retries is 0); otherwise it keeps the status
    it had. *)
Theorem X24_attempts_all_fail (bullJob : BullJob)
    (inputs : list AttemptInput) (w : World) (job : Job) :
  attemptsMade bullJob = 0 →
  inputs ≠ [] →
  jobs w !! qJobId (data bullJob) = Some job →
  id job = qJobId (data bullJob) →
  allFail (data bullJob) inputs →
  freshIds inputs w →
  let n := Z.of_nat (length inputs) in
  ∃ w' rs job' es,
    attemptsInTurn bullJob inputs w = (w', rs) ∧
    Forall rejected rs ∧ Z.of_nat (length rs) = n ∧
    jobs w' !! id job = Some job' ∧
    totalExecutions job' = totalExecutions job + n ∧
    failedExecutions job' = failedExecutions job + n ∧
    successfulExecutions job' = successfulExecutions job ∧
    status job' = (if maxRetriesOf bullJob <=? n then failed else status job) ∧
    executions w' = executions w ++ es ∧
    Forall (fun e => exStatus e = ex_failed) es ∧
    attempt <$> es = (fun k => Z.of_nat k + 1) <$> seq 0 (length inputs).
Proof.
  intros Hmade Hne Hjob Hid Hfail Hfresh n.
  destruct (attemptsInTurn_all_fail inputs bullJob w job)
    as (w' & rs & job' & es & Hrun & Hrs & Hlen & Hjob' & Hi' & Hty'
          & Ht' & Hf' & Hs' & Hst' & Hex & Hall & Hatt); try done.
  exists w', rs, job', es. subst n.
  split; [done|]. split; [done|]. split; [by rewrite Hlen|].
  split; [by rewrite Hid|]. split; [done|]. split; [done|].
  split; [done|]. split.
  { rewrite Hst', Hmade. destruct inputs; [done|].
    cbn [length]. rewrite Nat2Z.inj_succ.
    destruct (Z.ltb_spec 0 (Z.succ (Z.of_nat (length inputs)))); [|lia].
    by rewrite Z.add_0_l. }
  split; [done|]. split; [done|].
  rewrite Hatt, Hmade. apply list_fmap_ext. intros _ k _. cbn. lia.
Qed.

(** ** Manual triggers *)

(** The log line of a manual trigger. *)
Definition triggeredLog (job : Job) : JobLog :=
  {| logJobId := id job; logExecutionId := None; level := info;
     logMessage := MsgTriggered |}.

(** X25. [triggerJob] on an active job, when the job queue holds no entry
    under the id of the job (a recurring job, say, whose registration lives
    in the other queue): exactly one queue job is added, and it is filed
    under the id of the job itself; the id made for the trigger,
    <job id>-manual-<now>, only travels in the data.  The queue job has
    priority 10 and is marked as manual, and its envelope carries the
    max_retries and the timeout of the job but no retry delay and no retry
    backoff.  One log line is written, the job row is not changed and the
    job is returned as it was loaded. *)
Theorem X25_manual_trigger (now : Z) (w : World) (job : Job) :
  jobs w !! id job = Some job →
  status job = active →
  List.find (hasJobId (id job)) (jobQueue w) = None →
  ∃ w' b,
    triggerJob now (id job) w = (w', Returned job) ∧
    jobQueue w' = jobQueue w ++ [b] ∧
    optJobId (opts b) = Some (id job) ∧
    qId (data b) = id job +:+ "-manual-" +:+ pretty now ∧
    qJobId (data b) = id job ∧
    optPriority (opts b) = Some 10 ∧
    isManualTrigger (data b) = true ∧
    qMaxRetries (data b) = maxRetries job ∧
    qTimeout (data b) = timeout job ∧
    qRetryDelay (data b) = None ∧ qRetryBackoff (data b) = None ∧
    attemptsMade b = 0 ∧
    logs w' = logs w ++ [triggeredLog job] ∧
    jobs w' = jobs w ∧
    scheduledQueue w' = scheduledQueue w.
Proof.
  intros Hjob Hact Hfind. unfold triggerJob, Job_findByPk. unfold_M.
  rewrite Hjob. rewrite decide_True by done.
  unfold addJob, jobQueue_add. cbn [optJobId qJobId]. rewrite Hfind.
  unfold JobLog_create. simpl_world. cbn [logJobId]. rewrite Hjob.
  eexists _, _. split; [reflexivity|]. simpl_world. done.
Qed.

(** ** Failures followed by a success *)

Lemma redelivered_next (k : Z) (bullJob : BullJob) :
  redelivered k (nextDelivery bullJob) = redelivered (1 + k) bullJob.
Proof.
  unfold redelivered, nextDelivery. cbn [bullName data opts attemptsMade].
  f_equal. lia.
Qed.

Lemma attemptsInTurn_then_success (res : JobResult) (i : AttemptInput)
    (fails : list AttemptInput) :
  ∀ (bullJob : BullJob) (w : World) (job : Job),
  jobs w !! qJobId (data bullJob) = Some job →
  id job = qJobId (data bullJob) →
  scheduleType job ≠ recurring →
  allFail (data bullJob) fails →
  executeOutcome (data bullJob) (aiEnv i) = Returned res →
  freshIds (fails ++ [i]) w →
  ∃ w' rs job' es,
    attemptsInTurn bullJob (fails ++ [i]) w = (w', rs ++ [Returned res]) ∧
    Forall rejected rs ∧ length rs = length fails ∧
    jobs w' !! qJobId (data bullJob) = Some job' ∧
    id job' = id job ∧
    status job' = completed ∧
    totalExecutions job' = totalExecutions job + Z.of_nat (length fails) + 1 ∧
    failedExecutions job' = failedExecutions job + Z.of_nat (length fails) ∧
    successfulExecutions job' = successfulExecutions job + 1 ∧
    executions w'
    = executions w ++ es
        ++ [completedExecution
              (redelivered (Z.of_nat (length fails)) bullJob) (aiExecId i)
              (aiStart i) (aiEnd i) res] ∧
    length es = length fails ∧
    Forall (fun e => exStatus e = ex_failed) es.
Proof.
  induction fails as [|f fails IH];
    intros bullJob w job Hjob Hid Hnot Hfail Hok [Hnodup Hfresh].
  - cbn [app attemptsInTurn length] in *.
    apply Forall_cons in Hfresh as [Hfresh_i _].
    rewrite (processJob_resolved _ _ _ _ _ _ job res) by done.
    rewrite succeededJob_once by done.
    eexists _, [], _, []. split; [reflexivity|]. simpl_world.
    split; [done|]. split; [done|]. split; [apply lookup_insert_eq|].
    split; [done|]. split; [done|].
    split; [cbn; lia|]. split; [cbn; lia|]. split; [done|].
    split; [|done]. cbn [app]. do 2 f_equal.
    unfold completedExecution, newExecution, redelivered. cbn.
    by rewrite Z.add_0_r.
  - cbn [app attemptsInTurn length] in *.
    apply Forall_cons in Hfail as [[err Herr] Hfail].
    apply Forall_cons in Hfresh as [Hfresh_f Hfresh].
    cbn [fmap list_fmap] in Hnodup.
    apply NoDup_cons in Hnodup as [Hnew Hnodup].
    rewrite (processJob_rejected _ _ _ _ _ _ job err) by done.
    destruct (failedJob_counters bullJob (aiEnd f) job)
      as (Ht & Hf & Hs & Hty & Hst).
    match goal with
    | |- context [attemptsInTurn (nextDelivery bullJob) _ ?w1] =>
        destruct (IH (nextDelivery bullJob) w1
                    (failedJob bullJob (aiEnd f) job))
          as (w' & rs & job' & es & Hrun & Hrs & Hlen & Hjob' & Hi' & Hst'
                & Ht' & Hf' & Hs' & Hex & Hlen' & Hall)
    end.
    + cbn [data nextDelivery jobs]. apply lookup_insert_eq.
    + cbn [data nextDelivery]. by rewrite failedJob_id.
    + by rewrite Hty.
    + done.
    + done.
    + split; [done|]. cbn [executions]. by apply (fresh_after_attempt f).
    + rewrite Hrun. eexists _, (_ :: rs), job', (_ :: es).
      split; [reflexivity|]. cbn [data nextDelivery executions] in *.
      split; [constructor; [by exists err|done]|].
      split; [cbn; by rewrite Hlen|]. split; [done|].
      split; [by rewrite Hi', failedJob_id|]. split; [done|].
      split; [lia|]. split; [lia|]. split; [congruence|].
      split.
      { rewrite Hex, <- !app_assoc. cbn [app].
        by rewrite redelivered_next, Nat2Z.inj_succ, <- Z.add_1_l. }
      split; [cbn; lia|]. by constructor.
Qed.

(** X27. When [processJob] is called for the deliveries 1 to n + 1 of the
    queue job of a job that is not recurring, one after the other, and the
    executor rejects n times and then resolves: the first n calls throw and
    the last one returns the result, n failed Executions and then a
    completed one with attempt n + 1 are added, the job counts n + 1 runs,
    n failures and one success, and it ends with the status completed, also
    when one of the failed attempts had marked it failed. *)
Theorem X27_success_after_failures (bullJob : BullJob)
    (fails : list AttemptInput) (i : AttemptInput)
    (w : World) (job : Job) (res : JobResult) :
  attemptsMade bullJob = 0 →
  jobs w !! qJobId (data bullJob) = Some job →
  id job = qJobId (data bullJob) →
  scheduleType job ≠ recurring →
  allFail (data bullJob) fails →
  executeOutcome (data bullJob) (aiEnv i) = Returned res →
  freshIds (fails ++ [i]) w →
  let n := Z.of_nat (length fails) in
  ∃ w' rs job' es e,
    attemptsInTurn bullJob (fails ++ [i]) w = (w', rs ++ [Returned res]) ∧
    Forall rejected rs ∧ Z.of_nat (length rs) = n ∧
    jobs w' !! id job = Some job' ∧
    status job' = completed ∧
    totalExecutions job' = totalExecutions job + n + 1 ∧
    failedExecutions job' = failedExecutions job + n ∧
    successfulExecutions job' = successfulExecutions job + 1 ∧
    executions w' = executions w ++ es ++ [e] ∧
    length es = length fails ∧
    Forall (fun x => exStatus x = ex_failed) es ∧
    exStatus e = ex_completed ∧ attempt e = n + 1 ∧
    isRetry e = bool_decide (0 < n).
Proof.
  intros Hmade Hjob Hid Hnot Hfail Hok Hfresh n.
  destruct (attemptsInTurn_then_success res i fails bullJob w job)
    as (w' & rs & job' & es & Hrun & Hrs & Hlen & Hjob' & Hi' & Hst' & Ht'
          & Hf' & Hs' & Hex & Hlen' & Hall); try done.
  eexists w', rs, job', es, _. subst n.
  split; [done|]. split; [done|]. split; [by rewrite Hlen|].
  split; [by rewrite Hid|].
  split; [done|]. split; [done|]. split; [done|]. split; [done|].
  split; [exact Hex|]. split; [done|]. split; [done|]. split; [done|].
  cbn. rewrite Hmade. split; [lia|]. by rewrite Z.add_0_l.
Qed.

(** * Attempts that overlap *)

(** The segments of an attempt, run in order without interruption, are the
    attempt. *)
Lemma finalizeSuccess_segments (bullJob : BullJob) (startTime endTime : Z)
    (execution : JobExecution) (res : JobResult) (w : World) :
  finalizeSuccess bullJob startTime endTime execution res w
  = (found ← finalizeLoad bullJob execution;
     finalizeStore bullJob startTime endTime execution res found) w.
Proof.
  unfold finalizeSuccess, finalizeLoad, finalizeStore, JobExecution_save,
    Job_findByPk.
  unfold_M. reflexivity.
Qed.

Lemma catchBlock_segments (bullJob : BullJob) (startTime endTime : Z)
    (execution : option JobExecution) (err : string) (w : World) :
  catchBlock bullJob startTime endTime execution err w
  = (found ← catchLoad bullJob startTime endTime execution err;
     catchStore bullJob endTime execution err found) w.
Proof.
  unfold catchBlock, catchLoad, catchStore, JobExecution_save, Job_findByPk.
  unfold_M. by destruct execution.
Qed.

Lemma catchBlock_throws (bullJob : BullJob) (startTime endTime : Z)
    (execution : option JobExecution) (err : string) (w : World) :
  ∃ w' e, catchBlock bullJob startTime endTime execution err w
          = (w', Thrown e).
Proof.
  unfold catchBlock, JobExecution_save, Job_findByPk, Job_save, JobLog_create.
  unfold_M. repeat case_match; simplify_eq; by eexists _, _.
Qed.

Lemma processJob_segments (bullJob : BullJob) (execId : string)
    (startTime endTime : Z) (env : Environment) (w w1 : World)
    (execution : JobExecution) :
  openAttempt bullJob execId startTime w = (w1, Returned execution) →
  processJob bullJob execId startTime endTime env w
  = match executeOutcome (data bullJob) env with
    | Returned res =>
        let execution' :=
          set_output (Some res)
            (set_result (Some res)
              (set_duration (Some (endTime - startTime))
                (set_completedAt (Some endTime)
                  (set_exStatus ex_completed execution)))) in
        tryCatch
          (found ← finalizeLoad bullJob execution';
           finalizeStore bullJob startTime endTime execution' res found)
          (fun err =>
             found ← catchLoad bullJob startTime endTime (Some execution')
                       err;
             catchStore bullJob endTime (Some execution') err found) w1
    | Thrown err =>
        (found ← catchLoad bullJob startTime endTime (Some execution) err;
         catchStore bullJob endTime (Some execution) err found) w1
    end.
Proof.
  unfold openAttempt, processJob, runExecution, execute.
  intros Hopen. lazy zeta.
  destruct (JobExecution_create (newExecution bullJob execId startTime) w)
    as [w0 [ex|e]] eqn:Hcreate; unfold_M; rewrite Hcreate in Hopen; [|done].
  destruct (JobLog_create _ w0) as [w0' [[]|e]] eqn:Hlog; [|done].
  injection Hopen as <- <-.
  destruct (executeOutcome (data bullJob) env) as [res|err].
  - rewrite finalizeSuccess_segments. unfold_M.
    destruct (finalizeLoad _ _ w0') as [w2 [found|e]]; [|].
    + destruct (finalizeStore _ _ _ _ _ _ w2) as [w3 [r|e]]; [done|].
      rewrite catchBlock_segments. reflexivity.
    + rewrite catchBlock_segments. reflexivity.
  - pose proof (catchBlock_segments bullJob startTime endTime (Some ex) err
                  w0') as Hseg.
    unfold_M. rewrite <- Hseg.
    destruct (catchBlock_throws bullJob startTime endTime (Some ex) err w0')
      as (w' & e & ->).
    reflexivity.
Qed.

End Chronos.

(** * Concrete runs

    The scenarios below run the embedding on literal inputs, in a process
    with the default configuration.  The cron library is instantiated for
    the expression of the scenarios, every five minutes. *)

Definition everyFive (e : string) : bool := bool_decide (e = "*/5 * * * *").

Definition nextFive (e tz : string) (now : Z) : Z := (now / 300000 + 1) * 300000.

Definition bullKey (nm jobId tz pattern : string) : string :=
  nm +:+ ":" +:+ jobId +:+ ":::" +:+ tz +:+ ":" +:+ pattern.

Definition worker : string := "worker-4242-1a2b3c4d".

(** An immediate http job, as in the scenarios of the specification. *)
Definition httpJob (maxR : option Z) (delay : option Z)
    (backoffT : option RetryBackoff) (tmo : option Z) : JobInput :=
  {| inName := "ping"; inType := http; inPayload := "{url:http://svc/ok}";
     inScheduleType := immediate; inScheduledAt := None;
     inCronExpression := None; inTimezone := None;
     inMaxRetries := maxR; inRetryDelay := delay;
     inRetryBackoff := backoffT; inTimeout := tmo; inPriority := None;
     inEndAt := None; inMaxExecutions := None |}.

(** The state after [scheduleJob] at the instant 1000, and the queue job
    the worker receives. *)
Definition created (input : JobInput) : World :=
  (scheduleJob defaultConfig everyFive nextFive bullKey 1000 "job-1" input
     "user-1" emptyWorld).1.

Definition delivered (input : JobInput) : BullJob :=
  queuedJob defaultConfig (immediateRow 1000 "job-1" input "user-1")
    (Some 0) None.

Definition answers (net : NetAnswer) : Environment :=
  {| network := net; subprocess := Thrown "Command failed";
     messageId := "email_0"; handler := Thrown "Unknown handler: none" |}.

Definition refused : Environment := answers (NetError "ECONNREFUSED").
Definition ok200 : Environment := answers (NetResponse 200 "{ok:true}").

Definition attemptAt (execId : string) (startTime endTime : Z)
    (env : Environment) : AttemptInput :=
  {| aiExecId := execId; aiStart := startTime; aiEnd := endTime;
     aiEnv := env |}.

Definition chain (input : JobInput) (inputs : list AttemptInput)
  : World * list Z * ChainEnd :=
  runAttempts defaultConfig everyFive nextFive worker (delivered input) inputs
    (created input).

Lemma created_queue (input : JobInput) :
  inScheduleType input = immediate →
  inPriority input = None →
  jobQueue (created input) = [delivered input].
Proof.
  intros Himm Hprio. unfold created.
  rewrite scheduleJob_immediate by done.
  unfold delivered. cbn. by rewrite Hprio.
Qed.

Lemma wfWorld_empty : wfWorld emptyWorld.
Proof.
  intros k j Hj. change (jobs emptyWorld) with (∅ : gmap string Job) in Hj.
  by rewrite lookup_empty in Hj.
Defined.

Lemma countersInvariant_empty : countersInvariant emptyWorld.
Proof.
  intros k j Hj. change (jobs emptyWorld) with (∅ : gmap string Job) in Hj.
  by rewrite lookup_empty in Hj.
Defined.

(** ** C1 *)

Definition twoRetries : JobInput := httpJob (Some 2) None None (Some 30000).



(** ** C2 *)

Definition defaults : JobInput := httpJob None None None None.



(** ** A history of operations in turn *)

Definition history : list Op :=
  [OpSchedule 1000 "job-1" defaults "user-1";
   OpAttempt (delivered defaults) "exec-1" 1000 1100 refused;
   OpPause "job-1";
   OpResume 5000 "job-1";
   OpAttempt (redelivered 1 (delivered defaults)) "exec-2" 6100 6200 ok200].

Lemma X28_witness :
  (wfWorld emptyWorld ∧ countersInvariant emptyWorld) ∧
  countersInvariant
    (run defaultConfig everyFive nextFive bullKey worker history emptyWorld) ∧
  counterEffect (OpCancel "job-1")
    (run defaultConfig everyFive nextFive bullKey worker history emptyWorld)
    (step defaultConfig everyFive nextFive bullKey worker (OpCancel "job-1")
       (run defaultConfig everyFive nextFive bullKey worker history
          emptyWorld)).
Proof.
  split; [split; [exact wfWorld_empty | exact countersInvariant_empty]|].
  exact (X28_counters_in_turn defaultConfig everyFive nextFive bullKey worker
           history (OpCancel "job-1") emptyWorld wfWorld_empty
           countersInvariant_empty).
Defined.

(** The counters at the end of that history. *)
Example history_counters :
  ∃ job,
    jobs (run defaultConfig everyFive nextFive bullKey worker history
            emptyWorld) !! "job-1" = Some job ∧
    totalExecutions job = 2 ∧ successfulExecutions job = 1 ∧
    failedExecutions job = 1 ∧ status job = completed.
Proof. eexists. vm_compute. by repeat split. Qed.

(** ** C4 *)

Definition firstScenario : JobInput := httpJob (Some 3) None None (Some 30000).

Lemma C4_witness :
  (inScheduleType firstScenario = immediate ∧
   jobs emptyWorld !! "job-1" = None ∧
   List.find (hasJobId "job-1") (jobQueue emptyWorld) = None ∧
   Forall (fun e => exId e ≠ "exec-1") (executions emptyWorld) ∧
   dispatch (inType firstScenario) ok200
   = Returned (HttpResult 200 "{ok:true}")) ∧
  ∃ w2 e job',
    chain firstScenario [attemptAt "exec-1" 1000 1250 ok200]
    = (w2, [], ChainCompleted (HttpResult 200 "{ok:true}")) ∧
    executions w2 = [e] ∧ exStatus e = ex_completed ∧ attempt e = 1 ∧
    jobs w2 !! "job-1" = Some job' ∧ status job' = completed ∧
    successfulExecutions job' = 1 ∧ totalExecutions job' = 1.
Proof.
  assert (H1 : inScheduleType firstScenario = immediate) by reflexivity.
  assert (H2 : jobs emptyWorld !! "job-1" = None) by reflexivity.
  assert (H3 : List.find (hasJobId "job-1") (jobQueue emptyWorld) = None)
    by reflexivity.
  assert (H4 : Forall (fun e => exId e ≠ "exec-1") (executions emptyWorld))
    by constructor.
  assert (H5 : dispatch (inType firstScenario) ok200
               = Returned (HttpResult 200 "{ok:true}")) by reflexivity.
  split; [by repeat split|].
  destruct (C4_immediate_success defaultConfig everyFive nextFive bullKey
              worker 1000 "job-1" firstScenario "user-1" emptyWorld "exec-1"
              1000 1250 ok200 (HttpResult 200 "{ok:true}") [] H1 H2 H3 H4 H5)
    as [(w1 & job & bullJob & w2 & e & job' & Hsched & Hq & Hrun & Hex & _
         & Hst & Hatt & _ & _ & _ & _ & Hjob & Hjst & Hs & Ht & _) _].
  exists w2, e, job'.
  assert (Hw1 : w1 = created firstScenario)
    by (unfold created; by rewrite Hsched).
  assert (Hb : bullJob = delivered firstScenario).
  { rewrite Hw1, created_queue in Hq by done. by injection Hq as <-. }
  unfold chain. rewrite <- Hw1, <- Hb.
  repeat split; assumption.
Defined.

(** ** C5 *)

Definition afterFirstFailure (input : JobInput) : World :=
  run defaultConfig everyFive nextFive bullKey worker
    [OpSchedule 1000 "job-1" input "user-1";
     OpAttempt (delivered input) "exec-1" 1000 1100 refused] emptyWorld.

Lemma afterFirstFailure_wf (input : JobInput) : wfWorld (afterFirstFailure input).
Proof.
  apply (run_reachable defaultConfig everyFive nextFive bullKey worker).
  - exact wfWorld_empty.
  - exact countersInvariant_empty.
Defined.

(** C5. First attempt refused, second attempt answered with a 200: the
    second Execution is a retry of the first (is_retry is set), and its
    previous_execution_id is null, not the id of the first. *)
Example C5_retry_not_linked :
  ∃ w' e1 e2,
    executions (afterFirstFailure firstScenario) = [e1] ∧
    processJob defaultConfig everyFive nextFive worker
      (redelivered 1 (delivered firstScenario)) "exec-2" 6100 6200 ok200
      (afterFirstFailure firstScenario)
    = (w', Returned (HttpResult 200 "{ok:true}")) ∧
    executions w' = [e1; e2] ∧
    exId e1 = "exec-1" ∧ exStatus e1 = ex_failed ∧ attempt e1 = 1 ∧
    exStatus e2 = ex_completed ∧ attempt e2 = 2 ∧ isRetry e2 = true ∧
    exJobId e1 = exJobId e2 ∧
    previousExecutionId e2 = None ∧
    previousExecutionId e2 ≠ Some (exId e1).
Proof. eexists _, _, _. vm_compute. by repeat split. Qed.

(** ** C6 *)

Definition fixedBackoff : JobInput :=
  httpJob (Some 3) (Some 1000) (Some fixed) (Some 30000).

(** C6. A job created with retry_backoff = fixed and retry_delay_ms = 1000:
    the two values are stored in the row and copied into the envelope, and
    the queue job is filed with the retry options of the queue, the
    exponential backoff on the configured 5000 ms, exactly as the queue job
    of a job created without them. *)
Example C6_job_retry_delay_ignored :
  retryBackoff (immediateRow 1000 "job-1" fixedBackoff "user-1") = fixed ∧
  retryDelay (immediateRow 1000 "job-1" fixedBackoff "user-1") = 1000 ∧
  ∃ b,
    jobQueue (created fixedBackoff) = [b] ∧
    qRetryDelay (data b) = Some 1000 ∧
    qRetryBackoff (data b) = Some fixed ∧
    backoff (opts b)
    = Some {| backoffType := exponential; backoffDelay := 5000 |} ∧
    backoff (opts b) ≠ Some {| backoffType := fixed; backoffDelay := 1000 |} ∧
    (∃ b', jobQueue (created (httpJob (Some 3) None None (Some 30000))) = [b']
           ∧ opts b = opts b').
Proof.
  split; [reflexivity|]. split; [reflexivity|].
  eexists. vm_compute. repeat (split; [reflexivity|]).
  split; [discriminate|]. by eexists.
Qed.

(** ** C7 *)

Definition everyFiveMinutes : JobInput :=
  {| inName := "sweep"; inType := http; inPayload := "{url:http://svc/sweep}";
     inScheduleType := recurring; inScheduledAt := None;
     inCronExpression := Some "*/5 * * * *"; inTimezone := None;
     inMaxRetries := Some 1; inRetryDelay := None; inRetryBackoff := None;
     inTimeout := None; inPriority := None; inEndAt := None;
     inMaxExecutions := None |}.

Definition registered : World :=
  (scheduleJob defaultConfig everyFive nextFive bullKey 0 "job-1"
     everyFiveMinutes "user-1" emptyWorld).1.

(** The job the repeatable registration materialises at each firing. *)
Definition fired : BullJob :=
  match scheduledQueue registered with
  | r :: _ => repeatJob r
  | [] => delivered everyFiveMinutes
  end.

(** C7. A recurring job with max_retries = 1 whose firing at 00:05 fails:
    the last-attempt branch does not look at the schedule type, and the job
    is marked failed, its registration stays in the queue and its
    next_execution_at is not advanced. *)
Example C7_recurring_job_marked_failed :
  ∃ w' job',
    processJob defaultConfig everyFive nextFive worker fired "exec-1"
      300000 300100 refused registered
    = (w', Thrown "HTTP request failed: ECONNREFUSED") ∧
    isLastAttempt defaultConfig fired = true ∧
    jobs w' !! "job-1" = Some job' ∧
    scheduleType job' = recurring ∧
    status job' = failed ∧
    nextExecutionAt job' = Some 300000 ∧
    scheduledQueue w' = scheduledQueue registered ∧
    length (scheduledQueue w') = 1%nat ∧
    notifications w'
    = [max_retries_exceeded "user-1" "job-1" "sweep" 1
         "HTTP request failed: ECONNREFUSED"].
Proof. eexists _, _. vm_compute. by repeat split. Qed.

(** ** C3 *)

(** The recurring job of [registered] is triggered by hand at the instant
    300010, while its firing of 300000 is being processed. *)
Definition triggered : World :=
  (triggerJob defaultConfig 300010 "job-1" registered).1.

(** The queue job of the manual trigger. *)
Definition manual : BullJob :=
  match jobQueue triggered with
  | b :: _ => b
  | [] => fired
  end.

(** Both attempts have been opened, the firing by the worker of the
    scheduled queue, the manual trigger by the worker of the job queue. *)
Definition bothOpened : World :=
  (openAttempt worker manual "exec-2" 300020
     (openAttempt worker fired "exec-1" 300000 triggered).1).1.

(** C3. Two attempts of one job overlap, the firing of its registration and
    a manual trigger.  The firing is answered with a 200, the request of the
    manual trigger is refused, and each attempt loads the job row before the
    other saves it: the row ends with one run counted, one success and one
    failure, so successful + failed <= total is broken.  Run one after the
    other, the same two attempts count two runs. *)
Example C3_overlapping_attempts_lose_a_run :
  qJobId (data fired) = "job-1" ∧ qJobId (data manual) = "job-1" ∧
  isManualTrigger (data manual) = true ∧
  (∃ w1 executionA executionB w' job,
     openAttempt worker fired "exec-1" 300000 triggered
     = (w1, Returned executionA) ∧
     openAttempt worker manual "exec-2" 300020 w1
     = (bothOpened, Returned executionB) ∧
     executeOutcome (data fired) ok200
     = Returned (HttpResult 200 "{ok:true}") ∧
     executeOutcome (data manual) refused
     = Thrown "HTTP request failed: ECONNREFUSED" ∧
     overlappingAttempts defaultConfig everyFive nextFive fired manual
       300000 300200 300020 300220 executionA executionB
       (HttpResult 200 "{ok:true}") "HTTP request failed: ECONNREFUSED"
       bothOpened
     = (w', Thrown "HTTP request failed: ECONNREFUSED") ∧
     jobs w' !! "job-1" = Some job ∧
     totalExecutions job = 1 ∧ successfulExecutions job = 1 ∧
     failedExecutions job = 1 ∧ ¬ countersOk job) ∧
  (∃ job,
     jobs (run defaultConfig everyFive nextFive bullKey worker
             [OpAttempt fired "exec-1" 300000 300200 ok200;
              OpAttempt manual "exec-2" 300020 300220 refused] triggered)
       !! "job-1" = Some job ∧
     totalExecutions job = 2 ∧ successfulExecutions job = 1 ∧
     failedExecutions job = 1 ∧ countersOk job).
Proof.
  split; [reflexivity|]. split; [reflexivity|]. split; [reflexivity|]. split.
  - eexists _, _, _, _, _. vm_compute.
    repeat (split; [reflexivity|]). intros H. by apply H.
  - eexists. vm_compute. repeat (split; [reflexivity|]). discriminate.
Qed.

(** ** C8 *)

Definition oneSecond : JobInput := httpJob (Some 3) None None (Some 1000).

Lemma created_wf (input : JobInput) : wfWorld (created input).
Proof.
  apply (run_reachable defaultConfig everyFive nextFive bullKey worker
           [OpSchedule 1000 "job-1" input "user-1"] emptyWorld).
  - exact wfWorld_empty.
  - exact countersInvariant_empty.
Defined.

(** C8. A job with timeout_ms = 1000 whose request is answered with a 200
    after 5000 ms: the attempt is not aborted, its Execution is completed
    with a duration of 5000 ms, and the job is completed.  The attempt is
    the same whatever timeout the envelope carries. *)
Example C8_timeout_not_enforced :
  timeout (immediateRow 1000 "job-1" oneSecond "user-1") = 1000 ∧
  qTimeout (data (delivered oneSecond)) = 1000 ∧
  (∃ w' e job,
     processJob defaultConfig everyFive nextFive worker (delivered oneSecond)
       "exec-1" 1000 6000 ok200 (created oneSecond)
     = (w', Returned (HttpResult 200 "{ok:true}")) ∧
     executions w' = [e] ∧ duration e = Some 5000 ∧
     exStatus e = ex_completed ∧ exStatus e ≠ ex_timeout ∧
     jobs w' !! "job-1" = Some job ∧ status job = completed) ∧
  (∀ t, processJob defaultConfig everyFive nextFive worker
          (withTimeout t (delivered oneSecond)) "exec-1" 1000 6000 ok200
          (created oneSecond)
        = processJob defaultConfig everyFive nextFive worker
            (delivered oneSecond) "exec-1" 1000 6000 ok200
            (created oneSecond)).
Proof.
  split; [reflexivity|]. split; [reflexivity|]. split.
  - eexists _, _, _. vm_compute. by repeat split.
  - intros t. apply processJob_withTimeout.
Qed.

(** ** C9 *)

(** A one-shot job scheduled for the instant [t]. *)
Definition reportAt (t : Z) : JobInput :=
  {| inName := "report"; inType := http; inPayload := "{url:http://svc/r}";
     inScheduleType := scheduled; inScheduledAt := Some t;
     inCronExpression := None; inTimezone := None; inMaxRetries := None;
     inRetryDelay := None; inRetryBackoff := None; inTimeout := None;
     inPriority := None; inEndAt := None; inMaxExecutions := None |}.

(** C9. [scheduleJob] at the instant 100000 with a scheduledAt ten seconds
    in the past: the call
    throws and no queue entry is created, and the job row has been inserted
    with status active. *)
Example C9_past_schedule_persists_row :
  ∃ w' row,
    scheduleJob defaultConfig everyFive nextFive bullKey 100000 "job-1"
      (reportAt (100000 - 10000)) "user-1" emptyWorld
    = (w', Thrown "Execute time must be in the future") ∧
    jobQueue w' = [] ∧ scheduledQueue w' = [] ∧
    jobs w' !! "job-1" = Some row ∧
    status row = active ∧ scheduledAt row = Some 90000 ∧
    jobs w' ≠ jobs emptyWorld.
Proof.
  eexists _, _. vm_compute. repeat split. discriminate.
Qed.

(** A scheduledAt equal to the current instant passes the guard of
    [addDelayedJob] (the delay is 0, not negative). *)
Example schedule_at_now_is_accepted :
  ∃ w' row bullJob,
    scheduleJob defaultConfig everyFive nextFive bullKey 100000 "job-1"
      (reportAt 100000) "user-1" emptyWorld
    = (w', Returned row) ∧
    scheduledAt row = Some 100000 ∧
    jobQueue w' = [bullJob] ∧ optDelay (opts bullJob) = Some 0.
Proof. eexists _, _, _. vm_compute. by repeat split. Qed.

(** ** C10 *)

Definition noRetries : JobInput := httpJob (Some 0) None None None.

(** A recurring job created with max_retries = 0, and the firing of its
    registration at the instant 300000. *)
Definition sweepNoRetries : JobInput :=
  {| inName := "sweep"; inType := http; inPayload := "{url:http://svc/sweep}";
     inScheduleType := recurring; inScheduledAt := None;
     inCronExpression := Some "*/5 * * * *"; inTimezone := None;
     inMaxRetries := Some 0; inRetryDelay := None; inRetryBackoff := None;
     inTimeout := None; inPriority := None; inEndAt := None;
     inMaxExecutions := None |}.

Definition registeredNoRetries : World :=
  (scheduleJob defaultConfig everyFive nextFive bullKey 0 "job-1"
     sweepNoRetries "user-1" emptyWorld).1.

Definition firedNoRetries : BullJob :=
  match scheduledQueue registeredNoRetries with
  | r :: _ => repeatJob r
  | [] => delivered noRetries
  end.

(** The request of the firing is refused.  The worker decides as for
    max_retries = 3 and announces a retry, but the queue job carries no
    attempts option and the chain ends after this one failed attempt: the
    job is not retried. *)
Lemma C10_counterexample :
  (∃ job, jobs registeredNoRetries !! "job-1" = Some job ∧
          maxRetries job = 0) ∧
  qMaxRetries (data firedNoRetries) = 0 ∧
  attempts (opts firedNoRetries) = None ∧
  isLastAttempt defaultConfig firedNoRetries = false ∧
  ∃ w' e,
    runAttempts defaultConfig everyFive nextFive worker firedNoRetries
      [attemptAt "exec-1" 300000 300200 refused;
       attemptAt "exec-2" 305200 305400 ok200] registeredNoRetries
    = (w', [], ChainFailed "HTTP request failed: ECONNREFUSED") ∧
    executions w' = [e] ∧ exStatus e = ex_failed ∧ attempt e = 1 ∧
    notifications w'
    = [job_retry "user-1" "job-1" "sweep" 1 3
         "HTTP request failed: ECONNREFUSED"].
Proof.
  split; [eexists; vm_compute; by split|].
  split; [reflexivity|]. split; [reflexivity|]. split; [reflexivity|].
  eexists _, _. vm_compute. by repeat split.
Qed.

Lemma C10_witness :
  (maxRetryAttempts defaultConfig = 3 ∧
   qMaxRetries (data (delivered noRetries)) = 0) ∧
  maxRetriesOf defaultConfig (delivered noRetries) = 3 ∧
  isLastAttempt defaultConfig (delivered noRetries) = false.
Proof.
  assert (H1 : maxRetryAttempts defaultConfig = 3) by reflexivity.
  assert (H2 : qMaxRetries (data (delivered noRetries)) = 0) by reflexivity.
  split; [by split|].
  destruct (C10_zero_max_retries defaultConfig everyFive nextFive bullKey
              worker (delivered noRetries) H1 H2)
    as (Hmax & _ & _ & Hfirst & _).
  split; [exact Hmax | by apply Hfirst].
Defined.


(** * The configuration and the retry decision *)

(** X26. Whatever the environment variables hold, the three values of the
    job configuration are not 0 (an unset, non-numeric or zero variable
    gives the default 3, 5000 or 300000), and so the max_retries that the
    worker compares an attempt with is never 0, whatever the job carries. *)
Theorem X26_effective_max_retries_nonzero
    (MAX_RETRY_ATTEMPTS RETRY_DELAY_MS JOB_TIMEOUT_MS : option Z)
    (bullJob : BullJob) :
  let config :=
    loadJobConfig MAX_RETRY_ATTEMPTS RETRY_DELAY_MS JOB_TIMEOUT_MS in
  maxRetryAttempts config ≠ 0 ∧ retryDelayMs config ≠ 0 ∧
  timeoutMs config ≠ 0 ∧
  maxRetriesOf config bullJob ≠ 0 ∧
  maxRetryAttempts (loadJobConfig None RETRY_DELAY_MS JOB_TIMEOUT_MS) = 3 ∧
  maxRetryAttempts (loadJobConfig (Some 0) RETRY_DELAY_MS JOB_TIMEOUT_MS) = 3.
Proof.
  assert (Hor : ∀ env d, d ≠ 0 → parseIntOr env d ≠ 0).
  { intros [n|] d Hd; cbn; [|done]. unfold js_or.
    by destruct (Z.eqb_spec n 0). }
  cbn zeta. unfold loadJobConfig, maxRetriesOf.
  cbn [maxRetryAttempts retryDelayMs timeoutMs].
  split; [by apply Hor|]. split; [by apply Hor|]. split; [by apply Hor|].
  split.
  - unfold js_or at 1. destruct (Z.eqb_spec (qMaxRetries (data bullJob)) 0);
      [by apply Hor|done].
  - done.
Qed.


(** * Concrete runs of the further properties *)

(** The row of the job of [created defaults]. *)
Definition pingRow : Job := immediateRow 1000 "job-1" defaults "user-1".

Lemma created_row : jobs (created defaults) !! "job-1" = Some pingRow.
Proof. vm_compute. reflexivity. Qed.

Lemma created_fresh (execId : string) :
  Forall (fun e => exId e ≠ execId) (executions (created defaults)).
Proof. vm_compute. constructor. Qed.

Lemma X1_witness :
  jobs emptyWorld !! "job-1" = None ∧
  pauseJob "job-1" emptyWorld = (emptyWorld, Thrown "Job not found") ∧
  cancelJob "job-1" emptyWorld = (emptyWorld, Thrown "Job not found").
Proof.
  assert (H : jobs emptyWorld !! "job-1" = None) by reflexivity.
  split; [exact H|].
  destruct (X1_missing_job defaultConfig everyFive nextFive bullKey 2000
              "job-1" {| sdScheduledAt := Some 3000; sdCronExpression := None;
                         sdTimezone := None |} emptyWorld H)
    as (_ & Hpause & _ & Hcancel & _).
  split; assumption.
Defined.

Lemma X2_witness :
  jobs (created defaults) !! id pingRow = Some pingRow ∧
  resumeJob defaultConfig everyFive nextFive bullKey 2000 "job-1"
    (created defaults)
  = (created defaults, Thrown "Job is not paused").
Proof.
  assert (H : jobs (created defaults) !! id pingRow = Some pingRow)
    by (vm_compute; reflexivity).
  split; [exact H|].
  destruct (X2_status_guards defaultConfig everyFive nextFive bullKey 2000
              (created defaults) pingRow H) as (Hresume & _).
  apply Hresume. vm_compute. discriminate.
Defined.

Lemma X3_witness :
  (jobs (created defaults) !! id pingRow = Some pingRow ∧
   scheduleType pingRow = immediate ∧ status pingRow = active) ∧
  ∃ w1 w2,
    pauseJob "job-1" (created defaults)
    = (w1, Returned (set_status paused pingRow)) ∧
    resumeJob defaultConfig everyFive nextFive bullKey 2000 "job-1" w1
    = (w2, Returned pingRow) ∧
    jobs w2 = jobs (created defaults).
Proof.
  assert (H1 : jobs (created defaults) !! id pingRow = Some pingRow)
    by (vm_compute; reflexivity).
  assert (H2 : scheduleType pingRow = immediate) by reflexivity.
  assert (H3 : status pingRow = active) by reflexivity.
  split; [by repeat split|].
  destruct (X3_pause_resume_immediate defaultConfig everyFive nextFive bullKey
              2000 (created defaults) pingRow H1 H2 H3)
    as (w1 & w2 & Hpause & _ & _ & Hresume & Hjobs & _).
  exists w1, w2. repeat split; assumption.
Defined.

(** A recurring job that may run once, created at the instant 0. *)
Definition onceOnly : JobInput :=
  {| inName := "sweep"; inType := http; inPayload := "{url:http://svc/sweep}";
     inScheduleType := recurring; inScheduledAt := None;
     inCronExpression := Some "*/5 * * * *"; inTimezone := None;
     inMaxRetries := Some 3; inRetryDelay := None; inRetryBackoff := None;
     inTimeout := None; inPriority := None; inEndAt := None;
     inMaxExecutions := Some 1 |}.

Definition sweepRow : Job :=
  recurringRow nextFive 0 "*/5 * * * *" "job-1" onceOnly "user-1".

Definition sweeping : World :=
  (scheduleJob defaultConfig everyFive nextFive bullKey 0 "job-1" onceOnly
     "user-1" emptyWorld).1.

(** A firing of its repeatable registration. *)
Definition sweepFiring : BullJob :=
  repeatJob (registration bullKey sweepRow "*/5 * * * *").

Definition sweepPaused : World := (pauseJob "job-1" sweeping).1.

Lemma X4_witness :
  (jobs sweepPaused !! id (set_status paused sweepRow)
   = Some (set_status paused sweepRow) ∧
   scheduleType (set_status paused sweepRow) = recurring ∧
   cronExpression (set_status paused sweepRow) = Some "*/5 * * * *" ∧
   everyFive "*/5 * * * *" = true ∧
   status (set_status paused sweepRow) = paused) ∧
  ∃ w' job',
    resumeJob defaultConfig everyFive nextFive bullKey 700000 "job-1"
      sweepPaused = (w', Returned job') ∧
    status job' = active ∧ nextExecutionAt job' = Some 900000.
Proof.
  assert (H1 : jobs sweepPaused !! id (set_status paused sweepRow)
               = Some (set_status paused sweepRow))
    by (vm_compute; reflexivity).
  assert (H2 : scheduleType (set_status paused sweepRow) = recurring)
    by reflexivity.
  assert (H3 : cronExpression (set_status paused sweepRow)
               = Some "*/5 * * * *") by reflexivity.
  assert (H4 : everyFive "*/5 * * * *" = true) by (vm_compute; reflexivity).
  assert (H5 : status (set_status paused sweepRow) = paused) by reflexivity.
  split; [by repeat split|].
  destruct (X4_resume_recurring defaultConfig everyFive nextFive bullKey
              700000 sweepPaused (set_status paused sweepRow) "*/5 * * * *"
              H1 H2 H3 H4 H5) as (w' & Hrun & _).
  eexists _, _. split; [exact Hrun|]. split; reflexivity.
Defined.




Lemma X6_witness :
  (jobs (created defaults) !! id pingRow = Some pingRow ∧ 2000 ≤ 3000) ∧
  ∃ w',
    rescheduleJob defaultConfig everyFive nextFive bullKey 2000 "job-1"
      {| sdScheduledAt := Some 3000; sdCronExpression := None;
         sdTimezone := None |} (created defaults)
    = (w', Returned (rescheduledAt 3000 pingRow)) ∧
    jobQueue w'
    = [queuedJob defaultConfig (rescheduledAt 3000 pingRow) None (Some 1000)].
Proof.
  assert (H1 : jobs (created defaults) !! id pingRow = Some pingRow)
    by (vm_compute; reflexivity).
  assert (H2 : 2000 ≤ 3000) by lia.
  split; [by split|].
  destruct (X6_reschedule_to_instant defaultConfig everyFive nextFive bullKey
              2000 3000 None None (created defaults) pingRow H1 H2)
    as (w' & Hrun & _ & _ & Hq).
  exists w'. split; [exact Hrun|]. rewrite Hq. vm_compute. reflexivity.
Defined.

Lemma X7_witness :
  jobs (created defaults) !! id pingRow = Some pingRow ∧
  ∃ w',
    rescheduleJob defaultConfig everyFive nextFive bullKey 2000 "job-1"
      {| sdScheduledAt := Some 500; sdCronExpression := None;
         sdTimezone := None |} (created defaults)
    = (w', Thrown "Execute time must be in the future") ∧
    jobs w' !! "job-1" = Some (rescheduledAt 500 pingRow) ∧
    jobQueue w' = [].
Proof.
  assert (H1 : jobs (created defaults) !! id pingRow = Some pingRow)
    by (vm_compute; reflexivity).
  split; [exact H1|].
  destruct (X7_failed_reschedule defaultConfig everyFive nextFive bullKey
              2000 None (created defaults) pingRow H1) as [Hpast _].
  destruct (Hpast 500 None ltac:(lia)) as (w' & Hrun & Hjobs & Hq).
  exists w'. split; [exact Hrun|]. split.
  - rewrite Hjobs. apply lookup_insert_eq.
  - rewrite Hq. vm_compute. reflexivity.
Defined.

Lemma X8_witness :
  (inScheduleType (reportAt 5000) = scheduled ∧
   inScheduledAt (reportAt 5000) = Some 5000 ∧ 1000 ≤ 5000 ∧
   jobs emptyWorld !! "job-1" = None ∧
   List.find (hasJobId "job-1") (jobQueue emptyWorld) = None) ∧
  ∃ w',
    scheduleJob defaultConfig everyFive nextFive bullKey 1000 "job-1"
      (reportAt 5000) "user-1" emptyWorld
    = (w', Returned (scheduledRow 5000 "job-1" (reportAt 5000) "user-1")) ∧
    jobQueue w'
    = [queuedJob defaultConfig
         (scheduledRow 5000 "job-1" (reportAt 5000) "user-1") None
         (Some 4000)].
Proof.
  assert (H1 : inScheduleType (reportAt 5000) = scheduled) by reflexivity.
  assert (H2 : inScheduledAt (reportAt 5000) = Some 5000) by reflexivity.
  assert (H3 : 1000 ≤ 5000) by lia.
  assert (H4 : jobs emptyWorld !! "job-1" = None) by reflexivity.
  assert (H5 : List.find (hasJobId "job-1") (jobQueue emptyWorld) = None)
    by reflexivity.
  split; [by repeat split|].
  destruct (X8_schedule_scheduled defaultConfig everyFive nextFive bullKey
              1000 5000 "job-1" (reportAt 5000) "user-1" emptyWorld
              H1 H2 H3 H4 H5) as (w' & Hrun & _ & Hq & _).
  exists w'. split; [exact Hrun|]. rewrite Hq. reflexivity.
Defined.

Lemma X9_witness :
  inScheduleType onceOnly = recurring ∧
  ∃ w',
    scheduleJob defaultConfig everyFive nextFive bullKey 0 "job-1" onceOnly
      "user-1" emptyWorld = (w', Returned sweepRow) ∧
    nextExecutionAt sweepRow = Some 300000 ∧
    scheduledQueue w' = [registration bullKey sweepRow "*/5 * * * *"] ∧
    jobQueue w' = [].
Proof.
  assert (H1 : inScheduleType onceOnly = recurring) by reflexivity.
  split; [exact H1|].
  destruct (X9_schedule_recurring defaultConfig everyFive nextFive bullKey 0
              "job-1" onceOnly "user-1" emptyWorld H1) as [_ Hgood].
  destruct (Hgood "*/5 * * * *" eq_refl ltac:(vm_compute; reflexivity)
              eq_refl) as (w' & Hrun & _ & Hs & Hq).
  exists w'. split; [exact Hrun|]. split; [reflexivity|].
  split; [by rewrite Hs|by rewrite Hq].
Defined.

(** A function that fails at every call, and one that succeeds from its
    second call on. *)
Definition alwaysFails (k : Z) : Outcome Z := Thrown "boom".
Definition secondTime (k : Z) : Outcome Z :=
  if k <? 2 then Thrown "boom" else Returned 7.

Lemma X10_witness :
  (1 ≤ 3 ∧ (∀ k, 1 ≤ k < 3 → failing (alwaysFails k)) ∧
   alwaysFails 3 = Thrown "boom") ∧
  retryWithBackoff alwaysFails (Some 3) (Some 1000) (Some exponential)
  = Some {| calls := 3; slept := [1000; 2000];
            settled := Rejected (Some "boom") |}.
Proof.
  assert (H1 : 1 ≤ 3) by lia.
  assert (H2 : ∀ k, 1 ≤ k < 3 → failing (alwaysFails k))
    by (intros k _; by exists "boom").
  assert (H3 : alwaysFails 3 = Thrown "boom") by reflexivity.
  split; [by repeat split|].
  destruct (X10_retry_all_fail alwaysFails 3 1000 exponential "boom"
              H1 H2 H3) as [Hrun _].
  exact Hrun.
Defined.

Lemma X11_witness :
  0 ≤ 0 ∧
  retryWithBackoff alwaysFails (Some 0) None None
  = Some {| calls := 0; slept := []; settled := Rejected None |}.
Proof.
  assert (H : 0 ≤ 0) by lia.
  split; [exact H|].
  exact (X11_retry_no_attempt alwaysFails 0 None None H).
Defined.

Lemma X12_witness :
  (1 ≤ 2 ≤ 3 ∧ (∀ j, 1 ≤ j < 2 → failing (secondTime j)) ∧
   secondTime 2 = Returned 7) ∧
  retryWithBackoff secondTime (Some 3) (Some 1000) (Some fixed)
  = Some {| calls := 2; slept := [1000]; settled := Resolved 7 |}.
Proof.
  assert (H1 : 1 ≤ 2 ≤ 3) by lia.
  assert (H2 : ∀ j, 1 ≤ j < 2 → failing (secondTime j)).
  { intros j Hj. exists "boom". unfold secondTime.
    destruct (Z.ltb_spec j 2); [reflexivity|lia]. }
  assert (H3 : secondTime 2 = Returned 7) by reflexivity.
  split; [by repeat split|].
  exact (X12_retry_first_success secondTime 3 1000 fixed 2 7 H1 H2 H3).
Defined.

Lemma X13_witness :
  (1 ≤ 2 ∧ 1 ≤ 2) ∧
  pgData (paginate [10; 20; 30; 40; 50] (Some 2) (Some 2)) = [30; 40] ∧
  pgPages (paginate [10; 20; 30; 40; 50] (Some 2) (Some 2)) = Some 3.
Proof.
  assert (H1 : 1 ≤ 2) by lia.
  split; [by split|].
  destruct (X13_paginate_bounds [10; 20; 30; 40; 50] 2 2 H1 H1)
    as (Hdata & _ & pages & Hpages & _).
  split; [exact Hdata|]. reflexivity.
Defined.

Lemma X14_witness :
  (1 ≤ 2 ∧
   pgPages (paginate [10; 20; 30; 40; 50] (Some 1) (Some 2)) = Some 3) ∧
  mjoin ((fun i => pgData (paginate [10; 20; 30; 40; 50]
                             (Some (Z.of_nat i + 1)) (Some 2)))
           <$> seq 0 (Z.to_nat 3))
  = [10; 20; 30; 40; 50].
Proof.
  assert (H1 : 1 ≤ 2) by lia.
  assert (H2 : pgPages (paginate [10; 20; 30; 40; 50] (Some 1) (Some 2))
               = Some 3) by reflexivity.
  split; [by split|].
  exact (X14_paginate_round_trip [10; 20; 30; 40; 50] 2 3 H1 H2).
Defined.

Lemma sweeping_row : jobs sweeping !! "job-1" = Some sweepRow.
Proof. vm_compute. reflexivity. Qed.

Lemma X16_witness :
  (jobs sweeping !! qJobId (data sweepFiring) = Some sweepRow ∧
   id sweepRow = qJobId (data sweepFiring) ∧
   Forall (fun e => exId e ≠ "exec-1") (executions sweeping) ∧
   executeOutcome (data sweepFiring) ok200
   = Returned (HttpResult 200 "{ok:true}") ∧
   scheduleType sweepRow = recurring ∧
   cronExpression sweepRow = Some "*/5 * * * *" ∧
   everyFive "*/5 * * * *" = true) ∧
  ∃ w' job',
    processJob defaultConfig everyFive nextFive worker sweepFiring "exec-1"
      300000 300200 ok200 sweeping
    = (w', Returned (HttpResult 200 "{ok:true}")) ∧
    jobs w' !! "job-1" = Some job' ∧
    maxExecutions job' = Some 1 ∧ totalExecutions job' = 1 ∧
    status job' = active ∧ nextExecutionAt job' = Some 600000.
Proof.
  assert (H1 : jobs sweeping !! qJobId (data sweepFiring) = Some sweepRow)
    by (vm_compute; reflexivity).
  assert (H2 : id sweepRow = qJobId (data sweepFiring)) by reflexivity.
  assert (H3 : Forall (fun e => exId e ≠ "exec-1") (executions sweeping))
    by (vm_compute; constructor).
  assert (H4 : executeOutcome (data sweepFiring) ok200
               = Returned (HttpResult 200 "{ok:true}")) by reflexivity.
  assert (H5 : scheduleType sweepRow = recurring) by reflexivity.
  assert (H6 : cronExpression sweepRow = Some "*/5 * * * *") by reflexivity.
  assert (H7 : everyFive "*/5 * * * *" = true) by (vm_compute; reflexivity).
  split; [by repeat split|].
  destruct (X16_recurring_success defaultConfig everyFive nextFive worker
              sweepFiring "exec-1" 300000 300200 ok200 sweeping sweepRow
              (HttpResult 200 "{ok:true}") "*/5 * * * *"
              H1 H2 H3 H4 H5 H6 H7)
    as (w' & job' & Hrun & Hjob & Ht & _ & _ & _ & _ & Hkeep & Hbound).
  exists w', job'. split; [exact Hrun|]. split; [exact Hjob|].
  destruct (Hkeep ltac:(vm_compute; reflexivity)) as [Hst Hnext].
  split; [|by rewrite Ht, Hst, Hnext].
  vm_compute in Hrun. injection Hrun as <-.
  vm_compute in Hjob. by injection Hjob as <-.
Defined.

Lemma X17_witness :
  (jobs sweeping !! qJobId (data sweepFiring) = Some sweepRow ∧
   id sweepRow = qJobId (data sweepFiring) ∧
   Forall (fun e => exId e ≠ "exec-1") (executions sweeping) ∧
   executeOutcome (data sweepFiring) refused
   = Thrown "HTTP request failed: ECONNREFUSED" ∧
   isLastAttempt defaultConfig sweepFiring = false) ∧
  ∃ w',
    processJob defaultConfig everyFive nextFive worker sweepFiring "exec-1"
      300000 300200 refused sweeping
    = (w', Thrown "HTTP request failed: ECONNREFUSED") ∧
    notifications w'
    = [job_retry "user-1" "job-1" "sweep" 1 3
         "HTTP request failed: ECONNREFUSED"] ∧
    attempts (opts sweepFiring) = None.
Proof.
  assert (H1 : jobs sweeping !! qJobId (data sweepFiring) = Some sweepRow)
    by (vm_compute; reflexivity).
  assert (H2 : id sweepRow = qJobId (data sweepFiring)) by reflexivity.
  assert (H3 : Forall (fun e => exId e ≠ "exec-1") (executions sweeping))
    by (vm_compute; constructor).
  assert (H4 : executeOutcome (data sweepFiring) refused
               = Thrown "HTTP request failed: ECONNREFUSED") by reflexivity.
  assert (H5 : isLastAttempt defaultConfig sweepFiring = false)
    by reflexivity.
  split; [exact (conj H1 (conj H2 (conj H3 (conj H4 H5))))|].
  destruct (X17_retry_announced defaultConfig everyFive nextFive bullKey
              worker sweepFiring "exec-1" 300000 300200 refused sweeping
              sweepRow "HTTP request failed: ECONNREFUSED" H1 H2 H3 H4 H5)
    as [(w' & Hrun & _ & _ & Hn) _].
  exists w'. split; [exact Hrun|]. split; [|reflexivity].
  rewrite Hn. reflexivity.
Defined.

Lemma X18_witness :
  wfWorld (created defaults) ∧
  jobQueue (processJob defaultConfig everyFive nextFive worker
              (delivered defaults) "exec-1" 1000 1250 refused
              (created defaults)).1
  = jobQueue (created defaults).
Proof.
  assert (H1 : wfWorld (created defaults)) by apply created_wf.
  split; [exact H1|].
  destruct (X18_attempt_frame defaultConfig everyFive nextFive worker
              (delivered defaults) "exec-1" 1000 1250 refused
              (created defaults) _ _ H1 (surjective_pairing _))
    as (Hq & _).
  exact Hq.
Defined.

Lemma X20_witness :
  (jobs (created defaults) !! qJobId (data (delivered defaults))
   = Some pingRow ∧
   id pingRow = qJobId (data (delivered defaults)) ∧
   scheduleType pingRow ≠ recurring ∧
   Forall (fun e => exId e ≠ "exec-1") (executions (created defaults))) ∧
  ∃ w' r e,
    processJob defaultConfig everyFive nextFive worker (delivered defaults)
      "exec-1" 1000 1250 (answers (NetResponse 404 "missing"))
      (created defaults) = (w', r) ∧
    executions w' = [e] ∧ exStatus e = ex_failed.
Proof.
  assert (H1 : jobs (created defaults) !! qJobId (data (delivered defaults))
               = Some pingRow) by (vm_compute; reflexivity).
  assert (H2 : id pingRow = qJobId (data (delivered defaults)))
    by reflexivity.
  assert (H3 : scheduleType pingRow ≠ recurring) by (vm_compute; discriminate).
  assert (H4 : Forall (fun e => exId e ≠ "exec-1")
                 (executions (created defaults)))
    by (vm_compute; constructor).
  split; [by repeat split|].
  destruct (X20_outcome_by_type defaultConfig everyFive nextFive worker
              (delivered defaults) "exec-1" 1000 1250
              (answers (NetResponse 404 "missing")) (created defaults)
              pingRow H1 H2 H3 H4)
    as (w' & r & e & Hrun & Hex & Hst & Hhttp & _).
  exists w', r, e. split; [exact Hrun|]. split; [exact Hex|].
  destruct Hst as [Hc|Hf]; [|exact Hf].
  apply Hhttp in Hc; [|by left].
  destruct Hc as (sc & body & Hnet & Hrange).
  injection Hnet as <- <-. lia.
Defined.

Lemma X21_witness :
  (∀ job, jobs (created defaults) !! "job-1" = Some job →
          userId job ≠ "user-2") ∧
  controller_cancelJob "job-1" "user-2" (created defaults)
  = (created defaults, ApiError 404 "Job not found") ∧
  controller_deleteJob "job-1" "user-2" (created defaults)
  = (created defaults, ApiError 404 "Job not found") ∧
  controller_rescheduleJob defaultConfig everyFive nextFive bullKey 2000
    "job-1" "user-2"
    {| sdScheduledAt := None; sdCronExpression := None; sdTimezone := None |}
    (created defaults)
  = (created defaults,
     ApiError 400 "Either scheduledAt or cronExpression is required").
Proof.
  assert (H : ∀ job, jobs (created defaults) !! "job-1" = Some job →
                     userId job ≠ "user-2").
  { intros job. rewrite created_row. intros [= <-]. vm_compute. discriminate. }
  split; [exact H|].
  destruct (X21_foreign_job_not_found defaultConfig everyFive nextFive bullKey
              2000 "job-1" "user-2"
              {| sdScheduledAt := None; sdCronExpression := None;
                 sdTimezone := None |} (created defaults) H)
    as (Hdelete & _ & _ & Hcancel & _ & Hreschedule).
  split; [exact Hcancel|]. split; [exact Hdelete|exact Hreschedule].
Defined.

Lemma X22_witness :
  jobs (created defaults) !! id pingRow = Some pingRow ∧
  controller_resumeJob defaultConfig everyFive nextFive bullKey 2000 "job-1"
    "user-1" (created defaults)
  = (created defaults, ApiError 400 "Can only resume paused jobs") ∧
  ∃ w', controller_pauseJob "job-1" "user-1" (created defaults)
        = (w', Sent 200 (set_status paused pingRow)).
Proof.
  assert (H : jobs (created defaults) !! id pingRow = Some pingRow)
    by (vm_compute; reflexivity).
  split; [exact H|].
  destruct (X22_controller_guards defaultConfig everyFive nextFive bullKey
              2000 (created defaults) pingRow H)
    as (_ & Hpause & Hresume & _).
  split.
  - apply Hresume. vm_compute. discriminate.
  - destruct (Hpause eq_refl) as (w' & Hrun & _). by exists w'.
Defined.

Lemma X23_witness :
  (jobs (created defaults) !! id pingRow = Some pingRow ∧
   qJobId (data (delivered defaults)) = id pingRow) ∧
  ∃ w',
    controller_deleteJob "job-1" "user-1" (created defaults)
    = (w', Sent 200 tt) ∧
    jobs w' !! "job-1" = None ∧
    processJob defaultConfig everyFive nextFive worker (delivered defaults)
      "exec-1" 2000 2250 ok200 w'
    = (w', Thrown foreignKeyViolation).
Proof.
  assert (H1 : jobs (created defaults) !! id pingRow = Some pingRow)
    by (vm_compute; reflexivity).
  assert (H2 : qJobId (data (delivered defaults)) = id pingRow)
    by reflexivity.
  split; [by split|].
  destruct (X23_delete_job defaultConfig everyFive nextFive worker
              (created defaults) pingRow (delivered defaults) "exec-1" 2000
              2250 ok200 H1 H2)
    as (w' & Hrun & Hjobs & _ & _ & _ & Horphan).
  exists w'. split; [exact Hrun|]. split; [|exact Horphan].
  rewrite Hjobs. apply lookup_delete_eq.
Defined.

(** Three attempts that are all refused. *)
Definition threeRefused : list AttemptInput :=
  [attemptAt "exec-1" 1000 1250 refused;
   attemptAt "exec-2" 6250 6500 refused;
   attemptAt "exec-3" 16500 16750 refused].

Lemma X24_witness :
  (attemptsMade (delivered defaults) = 0 ∧
   threeRefused ≠ [] ∧
   jobs (created defaults) !! qJobId (data (delivered defaults))
   = Some pingRow ∧
   id pingRow = qJobId (data (delivered defaults)) ∧
   allFail (data (delivered defaults)) threeRefused ∧
   freshIds threeRefused (created defaults)) ∧
  ∃ w' rs job',
    attemptsInTurn defaultConfig everyFive nextFive worker
      (delivered defaults) threeRefused (created defaults) = (w', rs) ∧
    length rs = 3%nat ∧
    jobs w' !! "job-1" = Some job' ∧
    totalExecutions job' = 3 ∧ failedExecutions job' = 3 ∧
    status job' = failed ∧
    attempt <$> executions w' = [1; 2; 3].
Proof.
  assert (H1 : attemptsMade (delivered defaults) = 0) by reflexivity.
  assert (H2 : threeRefused ≠ []) by discriminate.
  assert (H3 : jobs (created defaults) !! qJobId (data (delivered defaults))
               = Some pingRow) by (vm_compute; reflexivity).
  assert (H4 : id pingRow = qJobId (data (delivered defaults)))
    by reflexivity.
  assert (H5 : allFail (data (delivered defaults)) threeRefused).
  { repeat constructor; by eexists. }
  assert (H6 : freshIds threeRefused (created defaults)).
  { split.
    - apply (bool_decide_unpack _). vm_compute. reflexivity.
    - repeat constructor. }
  split; [exact (conj H1 (conj H2 (conj H3 (conj H4 (conj H5 H6)))))|].
  destruct (X24_attempts_all_fail defaultConfig everyFive nextFive worker
              (delivered defaults) threeRefused (created defaults) pingRow
              H1 H2 H3 H4 H5 H6)
    as (w' & rs & job' & es & Hrun & _ & Hlen & Hjob & Ht & Hf & _ & Hst
          & Hex & _ & Hatt).
  exists w', rs, job'. split; [exact Hrun|].
  split; [apply Nat2Z.inj; exact Hlen|]. split; [exact Hjob|].
  split; [exact Ht|]. split; [exact Hf|]. split; [exact Hst|].
  rewrite Hex. change (executions (created defaults)) with (@nil JobExecution).
  rewrite app_nil_l, Hatt. reflexivity.
Defined.

Lemma X25_witness :
  (jobs sweeping !! id sweepRow = Some sweepRow ∧
   status sweepRow = active ∧
   List.find (hasJobId (id sweepRow)) (jobQueue sweeping) = None) ∧
  ∃ w' b,
    triggerJob defaultConfig 2000 "job-1" sweeping = (w', Returned sweepRow) ∧
    jobQueue w' = [b] ∧
    optJobId (opts b) = Some "job-1" ∧
    qId (data b) = "job-1-manual-2000" ∧
    optPriority (opts b) = Some 10 ∧
    logs w' = logs sweeping ++ [triggeredLog sweepRow].
Proof.
  assert (H1 : jobs sweeping !! id sweepRow = Some sweepRow)
    by (vm_compute; reflexivity).
  assert (H2 : status sweepRow = active) by reflexivity.
  assert (H3 : List.find (hasJobId (id sweepRow)) (jobQueue sweeping) = None)
    by (vm_compute; reflexivity).
  split; [exact (conj H1 (conj H2 H3))|].
  destruct (X25_manual_trigger defaultConfig 2000 sweeping sweepRow H1 H2 H3)
    as (w' & b & Hrun & Hq & Hid & Hqid & _ & Hprio & _ & _ & _ & _ & _ & _
          & Hlogs & _).
  exists w', b. split; [exact Hrun|]. split; [exact Hq|].
  split; [exact Hid|]. split; [|split; [exact Hprio|exact Hlogs]].
  rewrite Hqid. vm_compute. reflexivity.
Defined.

(** Two refused attempts of the job of [created twoRetries]. *)
Definition twoRefused : list AttemptInput :=
  [attemptAt "exec-1" 1000 1250 refused;
   attemptAt "exec-2" 6250 6500 refused].

Definition retriedRow : Job := immediateRow 1000 "job-1" twoRetries "user-1".

Lemma X27_witness :
  (attemptsMade (delivered twoRetries) = 0 ∧
   jobs (created twoRetries) !! qJobId (data (delivered twoRetries))
   = Some retriedRow ∧
   id retriedRow = qJobId (data (delivered twoRetries)) ∧
   scheduleType retriedRow ≠ recurring ∧
   allFail (data (delivered twoRetries)) twoRefused ∧
   executeOutcome (data (delivered twoRetries)) ok200
   = Returned (HttpResult 200 "{ok:true}") ∧
   freshIds (twoRefused ++ [attemptAt "exec-3" 16500 16750 ok200])
     (created twoRetries)) ∧
  ∃ w' rs job',
    attemptsInTurn defaultConfig everyFive nextFive worker
      (delivered twoRetries)
      (twoRefused ++ [attemptAt "exec-3" 16500 16750 ok200])
      (created twoRetries)
    = (w', rs ++ [Returned (HttpResult 200 "{ok:true}")]) ∧
    jobs w' !! "job-1" = Some job' ∧
    status job' = completed ∧
    totalExecutions job' = 3 ∧ failedExecutions job' = 2 ∧
    successfulExecutions job' = 1.
Proof.
  assert (H1 : attemptsMade (delivered twoRetries) = 0) by reflexivity.
  assert (H2 : jobs (created twoRetries) !! qJobId (data (delivered twoRetries))
               = Some retriedRow) by (vm_compute; reflexivity).
  assert (H3 : id retriedRow = qJobId (data (delivered twoRetries)))
    by reflexivity.
  assert (H4 : scheduleType retriedRow ≠ recurring)
    by (vm_compute; discriminate).
  assert (H5 : allFail (data (delivered twoRetries)) twoRefused).
  { repeat constructor; by eexists. }
  assert (H6 : executeOutcome (data (delivered twoRetries)) ok200
               = Returned (HttpResult 200 "{ok:true}")) by reflexivity.
  assert (H7 : freshIds (twoRefused ++ [attemptAt "exec-3" 16500 16750 ok200])
                 (created twoRetries)).
  { split.
    - apply (bool_decide_unpack _). vm_compute. reflexivity.
    - repeat constructor. }
  split;
    [exact (conj H1 (conj H2 (conj H3 (conj H4 (conj H5 (conj H6 H7))))))|].
  destruct (X27_success_after_failures defaultConfig everyFive nextFive
              worker (delivered twoRetries) twoRefused
              (attemptAt "exec-3" 16500 16750 ok200) (created twoRetries)
              retriedRow (HttpResult 200 "{ok:true}")
              H1 H2 H3 H4 H5 H6 H7)
    as (w' & rs & job' & es & e & Hrun & _ & _ & Hjob & Hst & Ht & Hf & Hs
          & _).
  exists w', rs, job'.
  split; [exact Hrun|]. split; [exact Hjob|]. split; [exact Hst|].
  split; [exact Ht|]. split; [exact Hf|exact Hs].
Defined.

Lemma X29_witness :
  (wfWorld (afterFirstFailure firstScenario) ∧
   (∃ job, jobs (afterFirstFailure firstScenario)
             !! qJobId (data (redelivered 1 (delivered firstScenario)))
           = Some job) ∧
   Forall (fun e => exId e ≠ "exec-2")
     (executions (afterFirstFailure firstScenario))) ∧
  ∃ w' r e,
    processJob defaultConfig everyFive nextFive worker
      (redelivered 1 (delivered firstScenario)) "exec-2" 6100 6200 ok200
      (afterFirstFailure firstScenario) = (w', r) ∧
    executions w' = executions (afterFirstFailure firstScenario) ++ [e] ∧
    attempt e = 2 ∧ isRetry e = true.
Proof.
  assert (H1 : wfWorld (afterFirstFailure firstScenario))
    by apply afterFirstFailure_wf.
  assert (H2 : ∃ job, jobs (afterFirstFailure firstScenario)
                        !! qJobId (data (redelivered 1
                                           (delivered firstScenario)))
                      = Some job) by (eexists; vm_compute; reflexivity).
  assert (H3 : Forall (fun e => exId e ≠ "exec-2")
                 (executions (afterFirstFailure firstScenario)))
    by (vm_compute; repeat constructor; discriminate).
  split; [exact (conj H1 (conj H2 H3))|].
  destruct H2 as [job H2].
  destruct (X29_attempt_numbering defaultConfig everyFive nextFive worker
              (redelivered 1 (delivered firstScenario)) "exec-2" 6100 6200
              ok200 (afterFirstFailure firstScenario) job H1 H2 H3)
    as (w' & r & e & Hrun & Hex & _ & _ & Hatt & Hretry).
  exists w', r, e. split; [exact Hrun|]. split; [exact Hex|].
  split; [exact Hatt|]. apply Hretry. rewrite Hatt. reflexivity.
Defined.
